(** * The TWI (two-wire / I2C) bus controller of MiniCore's Wire library

    A shallow embedding of [Twi] (utility/twi.h, twi.cpp): the controller
    object, its foreground entry points [readFrom], [writeTo], [transmit],
    the control primitives [reply], [stop], [releaseBus], and the interrupt
    handler [onInterrupt].

    - Every [uint8_t] is a [Z] kept in [0, 256) by an explicit [u8] at each
      assignment that can leave the range; [bufferSize] is a C [int].
    - The three heap buffers are lists, indexed through stdpp's lookup and
      insert.  An access outside the list is undefined behaviour in C++;
      the model leaves the list alone, reads 0, and still records the store
      in the trace, so that an out-of-range store stays visible.
    - The five registers are fields holding the pointee of the class's
      register pointers.
    - [trace] is a ghost field: the chronological log of register writes,
      buffer stores and collaborator calls made by the controller's code.
    - The busy-wait loops of the foreground code make progress only through
      interrupts: they are modelled by [spin], which delivers the pending
      interrupts one by one while the loop condition holds. *)

From Stdlib Require Import ZArith Lia List Bool.
From stdpp Require Import base list.
Import ListNotations.
Local Open Scope Z_scope.

(** ** Integer conventions *)

Definition u8 (v : Z) : Z := v mod 256.

(** C truth value of an integer used as a condition. *)
Definition truthy (v : Z) : bool := negb (v =? 0).

Definition _BV (bit : Z) : Z := Z.shiftl 1 bit.

(** Bit numbers of the control register TWCR (avr/io.h). *)
Definition TWINT : Z := 7.
Definition TWEA : Z := 6.
Definition TWSTA : Z := 5.
Definition TWSTO : Z := 4.
Definition TWWC : Z := 3.
Definition TWEN : Z := 2.
Definition TWIE : Z := 0.

(** twi.h *)
Definition TWI_READY : Z := 0.
Definition TWI_MRX : Z := 1.
Definition TWI_MTX : Z := 2.
Definition TWI_SRX : Z := 3.
Definition TWI_STX : Z := 4.

(** compat/twi.h (avr-libc) *)
Definition TW_READ : Z := 1.
Definition TW_WRITE : Z := 0.
Definition TW_STATUS_MASK : Z := 0xF8.

(** The status codes that label the cases of the handler's switch.
    [TW_MR_ARB_LOST] has the value of [TW_MT_ARB_LOST] and is handled by
    its case. *)
Inductive TwStatus : Type :=
  | TW_START | TW_REP_START
  | TW_MT_SLA_ACK | TW_MT_SLA_NACK | TW_MT_DATA_ACK | TW_MT_DATA_NACK
  | TW_MT_ARB_LOST
  | TW_MR_SLA_ACK | TW_MR_SLA_NACK | TW_MR_DATA_ACK | TW_MR_DATA_NACK
  | TW_ST_SLA_ACK | TW_ST_ARB_LOST_SLA_ACK | TW_ST_DATA_ACK
  | TW_ST_DATA_NACK | TW_ST_LAST_DATA
  | TW_SR_SLA_ACK | TW_SR_ARB_LOST_SLA_ACK | TW_SR_GCALL_ACK
  | TW_SR_ARB_LOST_GCALL_ACK | TW_SR_DATA_ACK | TW_SR_DATA_NACK
  | TW_SR_GCALL_DATA_ACK | TW_SR_GCALL_DATA_NACK | TW_SR_STOP
  | TW_NO_INFO | TW_BUS_ERROR.

Definition status_code (s : TwStatus) : Z :=
  match s with
  | TW_START => 0x08 | TW_REP_START => 0x10
  | TW_MT_SLA_ACK => 0x18 | TW_MT_SLA_NACK => 0x20
  | TW_MT_DATA_ACK => 0x28 | TW_MT_DATA_NACK => 0x30
  | TW_MT_ARB_LOST => 0x38
  | TW_MR_SLA_ACK => 0x40 | TW_MR_SLA_NACK => 0x48
  | TW_MR_DATA_ACK => 0x50 | TW_MR_DATA_NACK => 0x58
  | TW_ST_SLA_ACK => 0xA8 | TW_ST_ARB_LOST_SLA_ACK => 0xB0
  | TW_ST_DATA_ACK => 0xB8 | TW_ST_DATA_NACK => 0xC0
  | TW_ST_LAST_DATA => 0xC8
  | TW_SR_SLA_ACK => 0x60 | TW_SR_ARB_LOST_SLA_ACK => 0x68
  | TW_SR_GCALL_ACK => 0x70 | TW_SR_ARB_LOST_GCALL_ACK => 0x78
  | TW_SR_DATA_ACK => 0x80 | TW_SR_DATA_NACK => 0x88
  | TW_SR_GCALL_DATA_ACK => 0x90 | TW_SR_GCALL_DATA_NACK => 0x98
  | TW_SR_STOP => 0xA0
  | TW_NO_INFO => 0xF8 | TW_BUS_ERROR => 0x00
  end.

(** Which case label, if any, a masked status value selects. *)
Definition decode_status (v : Z) : option TwStatus :=
  match v with
  | 0x08 => Some TW_START | 0x10 => Some TW_REP_START
  | 0x18 => Some TW_MT_SLA_ACK | 0x20 => Some TW_MT_SLA_NACK
  | 0x28 => Some TW_MT_DATA_ACK | 0x30 => Some TW_MT_DATA_NACK
  | 0x38 => Some TW_MT_ARB_LOST
  | 0x40 => Some TW_MR_SLA_ACK | 0x48 => Some TW_MR_SLA_NACK
  | 0x50 => Some TW_MR_DATA_ACK | 0x58 => Some TW_MR_DATA_NACK
  | 0xA8 => Some TW_ST_SLA_ACK | 0xB0 => Some TW_ST_ARB_LOST_SLA_ACK
  | 0xB8 => Some TW_ST_DATA_ACK | 0xC0 => Some TW_ST_DATA_NACK
  | 0xC8 => Some TW_ST_LAST_DATA
  | 0x60 => Some TW_SR_SLA_ACK | 0x68 => Some TW_SR_ARB_LOST_SLA_ACK
  | 0x70 => Some TW_SR_GCALL_ACK | 0x78 => Some TW_SR_ARB_LOST_GCALL_ACK
  | 0x80 => Some TW_SR_DATA_ACK | 0x88 => Some TW_SR_DATA_NACK
  | 0x90 => Some TW_SR_GCALL_DATA_ACK | 0x98 => Some TW_SR_GCALL_DATA_NACK
  | 0xA0 => Some TW_SR_STOP
  | 0xF8 => Some TW_NO_INFO | 0x00 => Some TW_BUS_ERROR
  | _ => None
  end.

(** ** The controller object *)

Inductive Buffer : Type := MasterBuffer | TxBuffer | RxBuffer.

(** What the controller's code does to the outside world, in order. *)
Inductive Action : Type :=
  | WrTWCR (v : Z)                       (* *twcr = v *)
  | WrTWDR (v : Z)                       (* *twdr = v *)
  | Store (b : Buffer) (i : Z) (v : Z)   (* buffer[i] = v *)
  | CallSlaveReceive (buf : list Z) (count : Z)
  | CallSlaveTransmit.

Record Twi : Type := mkTwi {
  bufferSize : Z;
  state : Z;
  slarw : Z;
  sendStop : Z;
  inRepStart : Z;
  masterBuffer : list Z;
  masterBufferIndex : Z;
  masterBufferLength : Z;
  txBuffer : list Z;
  txBufferIndex : Z;
  txBufferLength : Z;
  rxBuffer : list Z;
  rxBufferIndex : Z;
  error : Z;
  twar : Z;
  twbr : Z;
  twcr : Z;
  twdr : Z;
  twsr : Z;
  trace : list Action
}.

(** Field assignments.  The code never assigns [bufferSize] or the field
    [sendStop] after construction, so they have no setter. *)
Definition set_state (v : Z) (t : Twi) : Twi :=
  mkTwi (bufferSize t) v (slarw t) (sendStop t) (inRepStart t)
    (masterBuffer t) (masterBufferIndex t) (masterBufferLength t)
    (txBuffer t) (txBufferIndex t) (txBufferLength t)
    (rxBuffer t) (rxBufferIndex t) (error t)
    (twar t) (twbr t) (twcr t) (twdr t) (twsr t) (trace t).
Definition set_slarw (v : Z) (t : Twi) : Twi :=
  mkTwi (bufferSize t) (state t) v (sendStop t) (inRepStart t)
    (masterBuffer t) (masterBufferIndex t) (masterBufferLength t)
    (txBuffer t) (txBufferIndex t) (txBufferLength t)
    (rxBuffer t) (rxBufferIndex t) (error t)
    (twar t) (twbr t) (twcr t) (twdr t) (twsr t) (trace t).
Definition set_inRepStart (v : Z) (t : Twi) : Twi :=
  mkTwi (bufferSize t) (state t) (slarw t) (sendStop t) v
    (masterBuffer t) (masterBufferIndex t) (masterBufferLength t)
    (txBuffer t) (txBufferIndex t) (txBufferLength t)
    (rxBuffer t) (rxBufferIndex t) (error t)
    (twar t) (twbr t) (twcr t) (twdr t) (twsr t) (trace t).
Definition set_masterBuffer (v : list Z) (t : Twi) : Twi :=
  mkTwi (bufferSize t) (state t) (slarw t) (sendStop t) (inRepStart t)
    v (masterBufferIndex t) (masterBufferLength t)
    (txBuffer t) (txBufferIndex t) (txBufferLength t)
    (rxBuffer t) (rxBufferIndex t) (error t)
    (twar t) (twbr t) (twcr t) (twdr t) (twsr t) (trace t).
Definition set_masterBufferIndex (v : Z) (t : Twi) : Twi :=
  mkTwi (bufferSize t) (state t) (slarw t) (sendStop t) (inRepStart t)
    (masterBuffer t) v (masterBufferLength t)
    (txBuffer t) (txBufferIndex t) (txBufferLength t)
    (rxBuffer t) (rxBufferIndex t) (error t)
    (twar t) (twbr t) (twcr t) (twdr t) (twsr t) (trace t).
Definition set_masterBufferLength (v : Z) (t : Twi) : Twi :=
  mkTwi (bufferSize t) (state t) (slarw t) (sendStop t) (inRepStart t)
    (masterBuffer t) (masterBufferIndex t) v
    (txBuffer t) (txBufferIndex t) (txBufferLength t)
    (rxBuffer t) (rxBufferIndex t) (error t)
    (twar t) (twbr t) (twcr t) (twdr t) (twsr t) (trace t).
Definition set_txBuffer (v : list Z) (t : Twi) : Twi :=
  mkTwi (bufferSize t) (state t) (slarw t) (sendStop t) (inRepStart t)
    (masterBuffer t) (masterBufferIndex t) (masterBufferLength t)
    v (txBufferIndex t) (txBufferLength t)
    (rxBuffer t) (rxBufferIndex t) (error t)
    (twar t) (twbr t) (twcr t) (twdr t) (twsr t) (trace t).
Definition set_txBufferIndex (v : Z) (t : Twi) : Twi :=
  mkTwi (bufferSize t) (state t) (slarw t) (sendStop t) (inRepStart t)
    (masterBuffer t) (masterBufferIndex t) (masterBufferLength t)
    (txBuffer t) v (txBufferLength t)
    (rxBuffer t) (rxBufferIndex t) (error t)
    (twar t) (twbr t) (twcr t) (twdr t) (twsr t) (trace t).
Definition set_txBufferLength (v : Z) (t : Twi) : Twi :=
  mkTwi (bufferSize t) (state t) (slarw t) (sendStop t) (inRepStart t)
    (masterBuffer t) (masterBufferIndex t) (masterBufferLength t)
    (txBuffer t) (txBufferIndex t) v
    (rxBuffer t) (rxBufferIndex t) (error t)
    (twar t) (twbr t) (twcr t) (twdr t) (twsr t) (trace t).
Definition set_rxBuffer (v : list Z) (t : Twi) : Twi :=
  mkTwi (bufferSize t) (state t) (slarw t) (sendStop t) (inRepStart t)
    (masterBuffer t) (masterBufferIndex t) (masterBufferLength t)
    (txBuffer t) (txBufferIndex t) (txBufferLength t)
    v (rxBufferIndex t) (error t)
    (twar t) (twbr t) (twcr t) (twdr t) (twsr t) (trace t).
Definition set_rxBufferIndex (v : Z) (t : Twi) : Twi :=
  mkTwi (bufferSize t) (state t) (slarw t) (sendStop t) (inRepStart t)
    (masterBuffer t) (masterBufferIndex t) (masterBufferLength t)
    (txBuffer t) (txBufferIndex t) (txBufferLength t)
    (rxBuffer t) v (error t)
    (twar t) (twbr t) (twcr t) (twdr t) (twsr t) (trace t).
Definition set_error (v : Z) (t : Twi) : Twi :=
  mkTwi (bufferSize t) (state t) (slarw t) (sendStop t) (inRepStart t)
    (masterBuffer t) (masterBufferIndex t) (masterBufferLength t)
    (txBuffer t) (txBufferIndex t) (txBufferLength t)
    (rxBuffer t) (rxBufferIndex t) v
    (twar t) (twbr t) (twcr t) (twdr t) (twsr t) (trace t).
Definition set_twcr (v : Z) (t : Twi) : Twi :=
  mkTwi (bufferSize t) (state t) (slarw t) (sendStop t) (inRepStart t)
    (masterBuffer t) (masterBufferIndex t) (masterBufferLength t)
    (txBuffer t) (txBufferIndex t) (txBufferLength t)
    (rxBuffer t) (rxBufferIndex t) (error t)
    (twar t) (twbr t) v (twdr t) (twsr t) (trace t).
Definition set_twdr (v : Z) (t : Twi) : Twi :=
  mkTwi (bufferSize t) (state t) (slarw t) (sendStop t) (inRepStart t)
    (masterBuffer t) (masterBufferIndex t) (masterBufferLength t)
    (txBuffer t) (txBufferIndex t) (txBufferLength t)
    (rxBuffer t) (rxBufferIndex t) (error t)
    (twar t) (twbr t) (twcr t) v (twsr t) (trace t).
Definition set_twsr (v : Z) (t : Twi) : Twi :=
  mkTwi (bufferSize t) (state t) (slarw t) (sendStop t) (inRepStart t)
    (masterBuffer t) (masterBufferIndex t) (masterBufferLength t)
    (txBuffer t) (txBufferIndex t) (txBufferLength t)
    (rxBuffer t) (rxBufferIndex t) (error t)
    (twar t) (twbr t) (twcr t) (twdr t) v (trace t).
Definition set_trace (v : list Action) (t : Twi) : Twi :=
  mkTwi (bufferSize t) (state t) (slarw t) (sendStop t) (inRepStart t)
    (masterBuffer t) (masterBufferIndex t) (masterBufferLength t)
    (txBuffer t) (txBufferIndex t) (txBufferLength t)
    (rxBuffer t) (rxBufferIndex t) (error t)
    (twar t) (twbr t) (twcr t) (twdr t) (twsr t) v.

(** ** Memory and register accesses *)

Definition emit (a : Action) (t : Twi) : Twi := set_trace (trace t ++ [a]) t.

Definition write_twcr (v : Z) (t : Twi) : Twi := emit (WrTWCR v) (set_twcr v t).
Definition write_twdr (v : Z) (t : Twi) : Twi := emit (WrTWDR v) (set_twdr v t).

(** [buf[i]] as an rvalue. *)
Definition load (buf : list Z) (i : Z) : Z := default 0 (buf !! Z.to_nat i).

(** [buf[i] = v] on the list alone. *)
Definition poke (buf : list Z) (i v : Z) : list Z :=
  if (0 <=? i) then <[Z.to_nat i := v]> buf else buf.

Definition store_master (i v : Z) (t : Twi) : Twi :=
  emit (Store MasterBuffer i v) (set_masterBuffer (poke (masterBuffer t) i v) t).
Definition store_tx (i v : Z) (t : Twi) : Twi :=
  emit (Store TxBuffer i v) (set_txBuffer (poke (txBuffer t) i v) t).
Definition store_rx (i v : Z) (t : Twi) : Twi :=
  emit (Store RxBuffer i v) (set_rxBuffer (poke (rxBuffer t) i v) t).

(** [for (i = lo; i < lo + count; ++i) body(i)] *)
Fixpoint for_loop {S : Type} (count : nat) (i : Z) (body : Z -> S -> S) (s : S) : S :=
  match count with
  | O => s
  | Datatypes.S count' => for_loop count' (i + 1) body (body i s)
  end.

(** ** Construction

    The constructor sets [bufferSize], allocates the three buffers, and
    initialises [state], [sendStop] and [inRepStart].  The other members
    are not initialised by it; [twi0] is a namespace-scope object, whose
    storage is zeroed before the constructor runs.  The contents of the
    freshly allocated buffers are indeterminate: [fill] stands for them. *)
Definition Twi_new (bufferSize : Z) (fill : Z) : Twi :=
  let cells := replicate (Z.to_nat bufferSize) fill in
  {| bufferSize := bufferSize;
     state := TWI_READY;
     slarw := 0;
     sendStop := 1;
     inRepStart := 0;
     masterBuffer := cells;
     masterBufferIndex := 0;
     masterBufferLength := 0;
     txBuffer := cells;
     txBufferIndex := 0;
     txBufferLength := 0;
     rxBuffer := cells;
     rxBufferIndex := 0;
     error := 0;
     twar := 0; twbr := 0; twcr := 0; twdr := 0; twsr := TW_STATUS_MASK;
     trace := [] |}.

(** ** Control primitives *)

Definition reply (ack : Z) (t : Twi) : Twi :=
  if truthy ack then
    write_twcr (Z.lor (Z.lor (Z.lor (_BV TWEN) (_BV TWIE)) (_BV TWINT)) (_BV TWEA)) t
  else
    write_twcr (Z.lor (Z.lor (_BV TWEN) (_BV TWIE)) (_BV TWINT)) t.

(** [stop] writes the stop condition and then loops while the control
    register still shows TWSTO: the loop ends when the hardware has cleared
    that bit, which is the register content the model continues with. *)
Definition stop (t : Twi) : Twi :=
  let t := write_twcr
             (Z.lor (Z.lor (Z.lor (Z.lor (_BV TWEN) (_BV TWIE)) (_BV TWEA))
                       (_BV TWINT)) (_BV TWSTO)) t in
  let t := set_twcr (Z.land (twcr t) (Z.lnot (_BV TWSTO))) t in
  set_state TWI_READY t.

Definition releaseBus (t : Twi) : Twi :=
  let t := write_twcr
             (Z.lor (Z.lor (Z.lor (_BV TWEN) (_BV TWIE)) (_BV TWEA)) (_BV TWINT)) t in
  set_state TWI_READY t.

(** The arm shared by the master transmitter and the master receiver when
    the transaction ends: [if (sendStop) stop(); else { ... }]. *)
Definition stop_or_repeated_start (t : Twi) : Twi :=
  if truthy (sendStop t) then stop t
  else
    let t := set_inRepStart 1 t in
    let t := write_twcr (Z.lor (Z.lor (_BV TWINT) (_BV TWSTA)) (_BV TWEN)) t in
    set_state TWI_READY t.

(** ** Slave transmit buffering *)

Definition transmit (data : list Z) (length : Z) (t : Twi) : Z * Twi :=
  if bufferSize t <? txBufferLength t + length then (1, t)
  else if negb (TWI_STX =? state t) then (2, t)
  else
    let t := for_loop (Z.to_nat length) 0
               (fun i t => store_tx (txBufferLength t + i) (load data i) t) t in
    let t := set_txBufferLength (u8 (txBufferLength t + length)) t in
    (0, t).

(** ** The interrupt handler and the foreground entry points *)

(** An interrupt raised by the peripheral: the content it has placed in the
    status register and, when a byte was received, in the data register. *)
Record Interrupt : Type := mkInterrupt {
  irq_status : Z;
  irq_data : option Z
}.

Definition irq (s : TwStatus) : Interrupt := mkInterrupt (status_code s) None.
Definition irq_byte (s : TwStatus) (b : Z) : Interrupt :=
  mkInterrupt (status_code s) (Some b).

Definition TW_STATUS (t : Twi) : Z := Z.land (twsr t) TW_STATUS_MASK.

Section Controller.

(** The slave event collaborators [twi0_onSlaveTransmit] and
    [twi0_onSlaveReceive] are function pointers defined outside twi.cpp:
    they are parameters here, each with whatever effect it has on the
    controller. *)
Variable twi0_onSlaveTransmit : Twi -> Twi.
Variable twi0_onSlaveReceive : list Z -> Z -> Twi -> Twi.

(** [case TW_MR_SLA_ACK], also reached by falling through from
    [case TW_MR_DATA_ACK]. *)
Definition mr_ack_if_more (t : Twi) : Twi :=
  if masterBufferIndex t <? masterBufferLength t then reply 1 t else reply 0 t.

(** [masterBuffer[masterBufferIndex++] = *twdr] *)
Definition mr_store_byte (t : Twi) : Twi :=
  let i := masterBufferIndex t in
  let t := set_masterBufferIndex (u8 (i + 1)) t in
  store_master i (twdr t) t.

(** [case TW_ST_DATA_ACK], also reached by falling through from
    [case TW_ST_SLA_ACK]. *)
Definition st_send_next (t : Twi) : Twi :=
  let i := txBufferIndex t in
  let t := set_txBufferIndex (u8 (i + 1)) t in
  let t := write_twdr (load (txBuffer t) i) t in
  if txBufferIndex t <? txBufferLength t then reply 1 t else reply 0 t.

Definition onInterrupt (t : Twi) : Twi :=
  match decode_status (TW_STATUS t) with
  (* All Master *)
  | Some TW_START | Some TW_REP_START =>
      let t := write_twdr (slarw t) t in
      reply 1 t
  (* Master Transmitter *)
  | Some TW_MT_SLA_ACK | Some TW_MT_DATA_ACK =>
      if masterBufferIndex t <? masterBufferLength t then
        let i := masterBufferIndex t in
        let t := set_masterBufferIndex (u8 (i + 1)) t in
        let t := write_twdr (load (masterBuffer t) i) t in
        reply 1 t
      else stop_or_repeated_start t
  | Some TW_MT_SLA_NACK =>
      let t := set_error (status_code TW_MT_SLA_NACK) t in
      stop t
  | Some TW_MT_DATA_NACK =>
      let t := set_error (status_code TW_MT_DATA_NACK) t in
      stop t
  | Some TW_MT_ARB_LOST =>
      let t := set_error (status_code TW_MT_ARB_LOST) t in
      releaseBus t
  (* Master Receiver *)
  | Some TW_MR_DATA_ACK =>
      let t := mr_store_byte t in
      mr_ack_if_more t
  | Some TW_MR_SLA_ACK => mr_ack_if_more t
  | Some TW_MR_DATA_NACK =>
      let t := mr_store_byte t in
      stop_or_repeated_start t
  | Some TW_MR_SLA_NACK => stop t
  (* Slave Receiver *)
  | Some TW_SR_SLA_ACK | Some TW_SR_GCALL_ACK
  | Some TW_SR_ARB_LOST_SLA_ACK | Some TW_SR_ARB_LOST_GCALL_ACK =>
      let t := set_state TWI_SRX t in
      let t := set_rxBufferIndex 0 t in
      reply 1 t
  | Some TW_SR_DATA_ACK | Some TW_SR_GCALL_DATA_ACK =>
      if rxBufferIndex t <? bufferSize t then
        let i := rxBufferIndex t in
        let t := set_rxBufferIndex (u8 (i + 1)) t in
        let t := store_rx i (twdr t) t in
        reply 1 t
      else reply 0 t
  | Some TW_SR_STOP =>
      let t := releaseBus t in
      let t := if rxBufferIndex t <? bufferSize t
               then store_rx (rxBufferIndex t) 0 t else t in
      let t := emit (CallSlaveReceive (rxBuffer t) (rxBufferIndex t)) t in
      let t := twi0_onSlaveReceive (rxBuffer t) (rxBufferIndex t) t in
      set_rxBufferIndex 0 t
  | Some TW_SR_DATA_NACK | Some TW_SR_GCALL_DATA_NACK => reply 0 t
  (* Slave Transmitter *)
  | Some TW_ST_SLA_ACK | Some TW_ST_ARB_LOST_SLA_ACK =>
      let t := set_state TWI_STX t in
      let t := set_txBufferIndex 0 t in
      let t := set_txBufferLength 0 t in
      let t := emit CallSlaveTransmit t in
      let t := twi0_onSlaveTransmit t in
      let t := if 0 =? txBufferLength t
               then store_tx 0 0x00 (set_txBufferLength 1 t) else t in
      st_send_next t
  | Some TW_ST_DATA_ACK => st_send_next t
  | Some TW_ST_DATA_NACK | Some TW_ST_LAST_DATA =>
      let t := reply 1 t in
      set_state TWI_READY t
  (* All *)
  | Some TW_NO_INFO => t
  | Some TW_BUS_ERROR =>
      let t := set_error (status_code TW_BUS_ERROR) t in
      stop t
  | None => t
  end.

(** The dispatcher: the peripheral has updated its registers and the
    handler runs once. *)
Definition raise (i : Interrupt) (t : Twi) : Twi :=
  let t := set_twsr (irq_status i) t in
  let t := match irq_data i with Some b => set_twdr b t | None => t end in
  onInterrupt t.

Definition raise_all (irqs : list Interrupt) (t : Twi) : Twi :=
  fold_left (fun t i => raise i t) irqs t.

(** [while (busy) continue;] in foreground code.  Each pending interrupt
    preempts the loop in turn; with the loop condition still true and no
    interrupt left the loop never ends ([None]). *)
Fixpoint spin (busy : Twi -> bool) (pending : list Interrupt) (t : Twi)
  : option (Twi * list Interrupt) :=
  if busy t then
    match pending with
    | [] => None
    | i :: pending' => spin busy pending' (raise i t)
    end
  else Some (t, pending).

(** The tail shared by [readFrom] and [writeTo]: continue a pending
    repeated start, or send a start condition.  The do-while around the
    data register write repeats while the hardware flags a write collision
    (TWWC); the model takes the run without collision, one write. *)
Definition start_or_continue (start_bits : Z) (t : Twi) : Twi :=
  if 1 =? inRepStart t then
    let t := set_inRepStart 0 t in
    let t := write_twdr (slarw t) t in
    write_twcr (Z.lor (Z.lor (Z.lor (_BV TWINT) (_BV TWEA)) (_BV TWEN)) (_BV TWIE)) t
  else write_twcr start_bits t.

(** [readFrom] between the first wait loop and the second. *)
Definition readFrom_begin (address length sendStop : Z) (t : Twi) : Twi :=
  let t := set_state TWI_MRX t in
  let sendStop := sendStop in            (* sendStop = sendStop; *)
  let t := set_error 0xFF t in
  let t := set_masterBufferIndex 0 t in
  let t := set_masterBufferLength (u8 (length - 1)) t in
  let t := set_slarw TW_READ t in
  let t := set_slarw (u8 (Z.lor (slarw t) (Z.shiftl address 1))) t in
  start_or_continue
    (Z.lor (Z.lor (Z.lor (Z.lor (_BV TWEN) (_BV TWIE)) (_BV TWEA)) (_BV TWINT))
       (_BV TWSTA)) t.

(** [readFrom] after the second wait loop: the caller's array after the
    copy, and the returned count. *)
Definition readFrom_end (data : list Z) (length : Z) (t : Twi) : Z * list Z :=
  let length := if masterBufferIndex t <? length then masterBufferIndex t else length in
  let data := for_loop (Z.to_nat length) 0
                (fun i data => poke data i (load (masterBuffer t) i)) data in
  (length, data).

Definition readFrom (address : Z) (data : list Z) (length sendStop : Z)
    (t : Twi) (pending : list Interrupt)
  : option (Z * list Z * Twi * list Interrupt) :=
  if bufferSize t <? length then Some (0, data, t, pending)
  else
    match spin (fun t => negb (TWI_READY =? state t)) pending t with
    | None => None
    | Some (t, pending) =>
        let t := readFrom_begin address length sendStop t in
        match spin (fun t => TWI_MRX =? state t) pending t with
        | None => None
        | Some (t, pending) =>
            let '(n, data) := readFrom_end data length t in
            Some (n, data, t, pending)
        end
    end.

(** [writeTo] between the first wait loop and the second. *)
Definition writeTo_begin (address : Z) (data : list Z) (length sendStop : Z)
    (t : Twi) : Twi :=
  let t := set_state TWI_MTX t in
  let sendStop := sendStop in            (* sendStop = sendStop; *)
  let t := set_error 0xFF t in
  let t := set_masterBufferIndex 0 t in
  let t := set_masterBufferLength length t in
  let t := for_loop (Z.to_nat length) 0
             (fun i t => store_master i (load data i) t) t in
  let t := set_slarw TW_WRITE t in
  let t := set_slarw (u8 (Z.lor (slarw t) (Z.shiftl address 1))) t in
  start_or_continue
    (Z.lor (Z.lor (Z.lor (Z.lor (_BV TWINT) (_BV TWEA)) (_BV TWEN)) (_BV TWIE))
       (_BV TWSTA)) t.

(** The return statement of [writeTo]. *)
Definition writeTo_end (t : Twi) : Z :=
  if error t =? 0xFF then 0
  else if error t =? status_code TW_MT_SLA_NACK then 2
  else if error t =? status_code TW_MT_DATA_NACK then 3
  else 4.

Definition writeTo (address : Z) (data : list Z) (length wait sendStop : Z)
    (t : Twi) (pending : list Interrupt)
  : option (Z * Twi * list Interrupt) :=
  if bufferSize t <? length then Some (1, t, pending)
  else
    match spin (fun t => negb (TWI_READY =? state t)) pending t with
    | None => None
    | Some (t, pending) =>
        let t := writeTo_begin address data length sendStop t in
        match spin (fun t => truthy wait && (TWI_MTX =? state t)) pending t with
        | None => None
        | Some (t, pending) => Some (writeTo_end t, t, pending)
        end
    end.

End Controller.

(** ** Configuration entry points *)

(** The two bus pins, written through the Arduino core's [digitalWrite]. *)
Inductive Pin : Type := SDA | SCL.

(** Prescaler bits of the status register TWSR (avr/io.h). *)
Definition TWPS0 : Z := 0.
Definition TWPS1 : Z := 1.

(** twi.h, unless the build overrides it. *)
Definition TWI_FREQ : Z := 100000.

Definition set_twar (v : Z) (t : Twi) : Twi :=
  mkTwi (bufferSize t) (state t) (slarw t) (sendStop t) (inRepStart t)
    (masterBuffer t) (masterBufferIndex t) (masterBufferLength t)
    (txBuffer t) (txBufferIndex t) (txBufferLength t)
    (rxBuffer t) (rxBufferIndex t) (error t)
    v (twbr t) (twcr t) (twdr t) (twsr t) (trace t).
Definition set_twbr (v : Z) (t : Twi) : Twi :=
  mkTwi (bufferSize t) (state t) (slarw t) (sendStop t) (inRepStart t)
    (masterBuffer t) (masterBufferIndex t) (masterBufferLength t)
    (txBuffer t) (txBufferIndex t) (txBufferLength t)
    (rxBuffer t) (rxBufferIndex t) (error t)
    (twar t) v (twcr t) (twdr t) (twsr t) (trace t).

(** Wrap-around of [unsigned long] arithmetic (32 bits on AVR). *)
Definition u32 (v : Z) : Z := v mod 2 ^ 32.

(** [cbi(sfr, bit)]: [sfr &= ~_BV(bit)]. *)
Definition cbi (sfr bit : Z) : Z := Z.land sfr (Z.lnot (_BV bit)).

(** [*twar = address << 1]: the left shift is done on [int], the store
    keeps the low eight bits. *)
Definition setAddress (address : Z) (t : Twi) : Twi :=
  set_twar (u8 (Z.shiftl address 1)) t.

Section Clock.

(** The CPU clock macro of the build, an integer constant of type [long]
    such as [16000000L]. *)
Variable F_CPU : Z.

(** [begin]: the calls of [digitalWrite], in order, come with the
    controller.  The writes to TWSR and TWBR show in the register fields;
    the write to TWCR is also recorded in the trace.  The bit rate is
    computed on [long]: C division truncates toward zero. *)
Definition begin (t : Twi) : Twi * list (Pin * Z) :=
  let pins := [(SDA, 1); (SCL, 1)] in
  let t := set_twsr (cbi (twsr t) TWPS0) t in
  let t := set_twsr (cbi (twsr t) TWPS1) t in
  let t := set_twbr (u8 (Z.quot (Z.quot F_CPU TWI_FREQ - 16) 2)) t in
  let t := write_twcr (Z.lor (Z.lor (_BV TWEN) (_BV TWIE)) (_BV TWEA)) t in
  (t, pins).

(** [disable]: the control register is read, masked and written back; the
    pins are written afterwards. *)
Definition disable (t : Twi) : Twi * list (Pin * Z) :=
  let t := write_twcr
             (Z.land (twcr t)
                (Z.lnot (Z.lor (Z.lor (_BV TWEN) (_BV TWIE)) (_BV TWEA)))) t in
  (t, [(SDA, 0); (SCL, 0)]).

(** [setFrequency]: [frequency] is a [uint32_t], so the quotient, the
    subtraction and the halving are done on [unsigned long]; the store to
    TWBR keeps the low eight bits.  Division by zero is undefined
    behaviour ([None]). *)
Definition setFrequency (frequency : Z) (t : Twi) : option Twi :=
  if frequency =? 0 then None
  else Some (set_twbr (u8 (u32 (F_CPU / frequency - 16) / 2)) t).

End Clock.

(** ** Vocabulary of the properties *)

(** The control words the code writes to TWCR. *)
Definition CR_START : Z := 0xE5.      (* TWINT | TWEA | TWEN | TWIE | TWSTA *)
Definition CR_STOP : Z := 0xD5.       (* TWEN | TWIE | TWEA | TWINT | TWSTO *)
Definition CR_REP_START : Z := 0xA4.  (* TWINT | TWSTA | TWEN *)
Definition CR_ACK : Z := 0xC5.        (* TWEN | TWIE | TWINT | TWEA *)
Definition CR_NACK : Z := 0x85.       (* TWEN | TWIE | TWINT *)
Definition CR_RELEASE : Z := 0xC5.    (* TWEN | TWIE | TWEA | TWINT *)

Definition reply_word (ack : bool) : Z := if ack then CR_ACK else CR_NACK.

(** Bus conditions asserted by a control register write. *)
Inductive Condition : Type := StartCondition | StopCondition.

Definition condition_of (a : Action) : option Condition :=
  match a with
  | WrTWCR v =>
      if Z.testbit v TWSTO then Some StopCondition
      else if Z.testbit v TWSTA then Some StartCondition
      else None
  | _ => None
  end.

Definition conditions (tr : list Action) : list Condition := omap condition_of tr.

(** The acknowledge bit armed by a control register write that asserts
    neither start nor stop. *)
Definition ack_of (a : Action) : option bool :=
  match a with
  | WrTWCR v =>
      if Z.testbit v TWSTO || Z.testbit v TWSTA then None
      else Some (Z.testbit v TWEA)
  | _ => None
  end.

Definition acks (tr : list Action) : list bool := omap ack_of tr.

(** Stores into one buffer, as index and value. *)
Definition store_of (b : Buffer) (a : Action) : option (Z * Z) :=
  match a with
  | Store b' i v =>
      match b, b' with
      | MasterBuffer, MasterBuffer | TxBuffer, TxBuffer | RxBuffer, RxBuffer => Some (i, v)
      | _, _ => None
      end
  | _ => None
  end.

Definition stores (b : Buffer) (tr : list Action) : list (Z * Z) := omap (store_of b) tr.

(** The data interrupts of a master read from a device that supplies
    exactly the bytes of [bytes]: each byte but the last is reported as
    acknowledged, the last as answered by NACK. *)
Fixpoint mr_bytes (bytes : list Z) : list Interrupt :=
  match bytes with
  | [] => []
  | [b] => [irq_byte TW_MR_DATA_NACK b]
  | b :: rest => irq_byte TW_MR_DATA_ACK b :: mr_bytes rest
  end.

(** The interrupts a simulated slave device causes on a master read when it
    acknowledges its address and supplies exactly the bytes of [bytes].
    When the transaction continues a repeated start ([continued]) the start
    interrupt is masked and never served. *)
Definition mr_device (continued : bool) (bytes : list Z) : list Interrupt :=
  (if continued then [] else [irq TW_START])
    ++ irq TW_MR_SLA_ACK :: mr_bytes bytes.

(** The interrupts a simulated slave device causes on a master write of
    [n] bytes when it acknowledges its address and every byte. *)
Definition mt_device (continued : bool) (n : nat) : list Interrupt :=
  (if continued then [] else [irq TW_START])
    ++ irq TW_MT_SLA_ACK :: replicate n (irq TW_MT_DATA_ACK).

(** Whether the next transaction continues a repeated start that the
    handler has already issued. *)
Definition continues (t : Twi) : bool := 1 =? inRepStart t.

(** The register writes that put the address on the bus: by the entry
    point and, unless a repeated start is continued, by the handler on the
    start interrupt. *)
Definition address_trace (continued : bool) (sla : Z) : list Action :=
  if continued then [WrTWDR sla; WrTWCR CR_ACK]
  else [WrTWCR CR_START; WrTWDR sla; WrTWCR CR_ACK].

(** The interrupts of a slave reception of [bytes] ended by a stop. *)
Definition sr_device (bytes : list Z) : list Interrupt :=
  irq TW_SR_SLA_ACK :: map (irq_byte TW_SR_DATA_ACK) bytes ++ [irq TW_SR_STOP].

(** The calls of the receive collaborator recorded in a trace, each with
    the buffer content and the count it was given. *)
Definition receive_call (a : Action) : option (list Z * Z) :=
  match a with
  | CallSlaveReceive buf count => Some (buf, count)
  | _ => None
  end.

Definition receive_calls (tr : list Action) : list (list Z * Z) := omap receive_call tr.

(** The receive-buffer invariant: the index is within the capacity and
    every store into the receive buffer recorded so far was in bounds. *)
Definition rx_store_in_bounds (size : Z) (a : Action) : Prop :=
  match a with
  | Store RxBuffer i _ => 0 <= i < size
  | _ => True
  end.

Definition rx_invariant (t : Twi) : Prop :=
  0 <= rxBufferIndex t <= bufferSize t /\
  Forall (rx_store_in_bounds (bufferSize t)) (trace t).

(** [buf[i] = b0; buf[i+1] = b1; ...] *)
Fixpoint pokes (buf : list Z) (i : Z) (bytes : list Z) : list Z :=
  match bytes with
  | [] => buf
  | b :: rest => pokes (poke buf i b) (i + 1) rest
  end.

(** What the handler does while the master receives [bytes], the first of
    them going to [masterBuffer[i]], with [len] the armed target length: a
    store per byte and, after every byte but the last, a reply. *)
Fixpoint mr_data_trace (i len : Z) (bytes : list Z) : list Action :=
  match bytes with
  | [] => []
  | [b] => [Store MasterBuffer i b]
  | b :: rest =>
      Store MasterBuffer i b :: WrTWCR (reply_word (i + 1 <? len))
        :: mr_data_trace (i + 1) len rest
  end.

(** What the handler does while the master sends [bytes]. *)
Definition mt_data_trace (bytes : list Z) : list Action :=
  flat_map (fun b => [WrTWDR b; WrTWCR CR_ACK]) bytes.

(** The control word that ends a master transaction. *)
Definition end_word (t : Twi) : Z :=
  if truthy (sendStop t) then CR_STOP else CR_REP_START.

(** The return code [writeTo] derives from a value of the error latch. *)
Definition return_code (latch : Z) : Z :=
  match latch with
  | 0xFF => 0
  | 0x20 => 2
  | 0x30 => 3
  | _ => 4
  end.

(** The indices [i, i+1, ..., i+n-1] a for loop runs through. *)
Fixpoint zrange (i : Z) (n : nat) : list Z :=
  match n with
  | O => []
  | S n' => i :: zrange (i + 1) n'
  end.

(** The two interrupts that report an acknowledged byte of a master write. *)
Definition mt_ack (i : Interrupt) : Prop :=
  i = irq TW_MT_SLA_ACK \/ i = irq TW_MT_DATA_ACK.

(** The bytes written to the data register, in order: what the controller
    puts on the bus. *)
Definition data_write (a : Action) : option Z :=
  match a with
  | WrTWDR v => Some v
  | _ => None
  end.

Definition data_writes (tr : list Action) : list Z := omap data_write tr.

(** The start interrupt of a transaction, absent when a repeated start is
    continued. *)
Definition start_irq (continued : bool) : list Interrupt :=
  if continued then [] else [irq TW_START].

(** The two statuses that end a master transaction from outside: lost
    arbitration and bus error. *)
Definition aborts (s : TwStatus) : Prop := s = TW_MT_ARB_LOST \/ s = TW_BUS_ERROR.

(** The return code of a blocking [writeTo] whose transaction the handler
    ends on status [s], for the four statuses that latch an error. *)
Definition write_failure (s : TwStatus) : option Z :=
  match s with
  | TW_MT_SLA_NACK => Some 2
  | TW_MT_DATA_NACK => Some 3
  | TW_MT_ARB_LOST | TW_BUS_ERROR => Some 4
  | _ => None
  end.

(** The interrupts of a master write whose address and first [m - 1] bytes
    are acknowledged ([m] acknowledgements in all, at most one per byte and
    one for the address). *)
Definition mt_acks (len : Z) (m : nat) : list Interrupt :=
  take m (irq TW_MT_SLA_ACK :: replicate (Z.to_nat len) (irq TW_MT_DATA_ACK)).

(** The controller never leaves the "stop at the end" regime: the field
    [sendStop] is true, no repeated start is pending, and the repeated-start
    control word has never been written. *)
Definition no_repeated_start (t : Twi) : Prop :=
  truthy (sendStop t) = true /\
  continues t = false /\
  Forall (fun a => a <> WrTWCR CR_REP_START) (trace t).

(** What the handler does while the slave receives [bytes] with room for
    all of them, the first going to [rxBuffer[i]]: a store and an ACK per
    byte. *)
Fixpoint sr_data_trace (i : Z) (bytes : list Z) : list Action :=
  match bytes with
  | [] => []
  | b :: rest => Store RxBuffer i b :: WrTWCR CR_ACK :: sr_data_trace (i + 1) rest
  end.

(** The statuses that open a slave reception (own address or general
    call, possibly after lost arbitration) and those that report a byte
    received and acknowledged. *)
Definition sr_addressed (s : TwStatus) : Prop :=
  s = TW_SR_SLA_ACK \/ s = TW_SR_GCALL_ACK \/
  s = TW_SR_ARB_LOST_SLA_ACK \/ s = TW_SR_ARB_LOST_GCALL_ACK.

Definition sr_data (s : TwStatus) : Prop :=
  s = TW_SR_DATA_ACK \/ s = TW_SR_GCALL_DATA_ACK.

(** The interrupts of a slave reception of [bytes] opened with status [sa],
    each byte reported with status [sd], and ended by a stop or a repeated
    start. *)
Definition sr_transaction (sa sd : TwStatus) (bytes : list Z) : list Interrupt :=
  irq sa :: map (irq_byte sd) bytes ++ [irq TW_SR_STOP].

(** What the handler does while the slave receives [bytes] and stores
    every one of them, [i] bytes of the message having come before: the
    receive index is a [uint8_t], so the byte at position [j] of the
    message goes to [rxBuffer[j mod 256]]. *)
Fixpoint sr_store_trace (i : Z) (bytes : list Z) : list Action :=
  match bytes with
  | [] => []
  | b :: rest => Store RxBuffer (u8 i) b :: WrTWCR CR_ACK :: sr_store_trace (i + 1) rest
  end.

(** The interrupts of the bytes a master keeps sending to a slave whose
    receive buffer is full: the first was still acknowledged by the
    hardware, the following ones are not. *)
Definition sr_excess (b : Z) (more : list Z) : list Interrupt :=
  irq_byte TW_SR_DATA_ACK b :: map (irq_byte TW_SR_DATA_NACK) more.

(** Collaborators that leave the controller alone. *)
Definition idle_onSlaveTransmit (t : Twi) : Twi := t.
Definition idle_onSlaveReceive (buf : list Z) (count : Z) (t : Twi) : Twi := t.

(** A transmit collaborator that hands [length] bytes of [data] to
    [transmit] and ignores its return code, as the request service of the
    wire library does with the bytes its user wrote. *)
Definition transmitting_onSlaveTransmit (data : list Z) (length : Z) (t : Twi) : Twi :=
  snd (transmit data length t).

(** What the handler does while it sends [k] bytes of a transmit buffer
    [buf] of declared length [len], from offset [i]: each byte goes to the
    data register and is followed by the reply "more to come" or "last". *)
Definition st_data_trace (buf : list Z) (len i : Z) (k : nat) : list Action :=
  flat_map (fun j => [WrTWDR (load buf j); WrTWCR (reply_word (j + 1 <? len))])
    (zrange i k).

(** The interrupts of a master reading [n] bytes from the controller and
    ending the transfer with status [last]. *)
Definition st_device (n : nat) (last : TwStatus) : list Interrupt :=
  irq TW_ST_SLA_ACK :: replicate (n - 1) (irq TW_ST_DATA_ACK) ++ [irq last].

(** * Properties *)

Ltac twi_simpl :=
  cbn [bufferSize state slarw sendStop inRepStart masterBuffer masterBufferIndex
       masterBufferLength txBuffer txBufferIndex txBufferLength rxBuffer
       rxBufferIndex error twar twbr twcr twdr twsr trace
       set_state set_slarw set_inRepStart set_masterBuffer set_masterBufferIndex
       set_masterBufferLength set_txBuffer set_txBufferIndex set_txBufferLength
       set_rxBuffer set_rxBufferIndex set_error set_twcr set_twdr set_twsr set_trace
       emit write_twcr write_twdr store_master store_tx store_rx] in *.

Ltac twi_norm :=
  cbv [bufferSize state slarw sendStop inRepStart masterBuffer masterBufferIndex
       masterBufferLength txBuffer txBufferIndex txBufferLength rxBuffer
       rxBufferIndex error twar twbr twcr twdr twsr trace
       set_state set_slarw set_inRepStart set_masterBuffer set_masterBufferIndex
       set_masterBufferLength set_txBuffer set_txBufferIndex set_txBufferLength
       set_rxBuffer set_rxBufferIndex set_error set_twcr set_twdr set_twsr set_trace
       emit write_twcr write_twdr store_master store_tx store_rx].

Lemma u8_small v : 0 <= v < 256 -> u8 v = v.
Proof. intros H. unfold u8. apply Z.mod_small. exact H. Qed.

Lemma u8_range v : 0 <= u8 v < 256.
Proof. unfold u8. apply Z.mod_pos_bound. lia. Qed.

Lemma u8_le v : 0 <= v -> u8 v <= v.
Proof. intros H. unfold u8. apply Z.mod_le; lia. Qed.

Lemma reply_eq ack t : reply ack t = write_twcr (reply_word (truthy ack)) t.
Proof. unfold reply. destruct (truthy ack); reflexivity. Qed.

Lemma for_loop_preserves {S : Type} (P : S -> Prop) (body : Z -> S -> S) :
  (forall j s, P s -> P (body j s)) ->
  forall n i s, P s -> P (for_loop n i body s).
Proof.
  intros Hbody n. induction n as [|n IH]; intros i s Hs; simpl.
  - exact Hs.
  - apply IH. apply Hbody. exact Hs.
Qed.

Lemma trace_stop t : trace (stop t) = trace t ++ [WrTWCR CR_STOP].
Proof. reflexivity. Qed.

Lemma trace_releaseBus t : trace (releaseBus t) = trace t ++ [WrTWCR CR_RELEASE].
Proof. reflexivity. Qed.

Lemma trace_stop_or_repeated_start t :
  trace (stop_or_repeated_start t) = trace t ++ [WrTWCR (end_word t)].
Proof.
  unfold stop_or_repeated_start, end_word.
  destruct (truthy (sendStop t)); reflexivity.
Qed.

Lemma state_stop_or_repeated_start t : state (stop_or_repeated_start t) = TWI_READY.
Proof.
  unfold stop_or_repeated_start. destruct (truthy (sendStop t)); reflexivity.
Qed.

Lemma conditions_app tr1 tr2 : conditions (tr1 ++ tr2) = conditions tr1 ++ conditions tr2.
Proof. unfold conditions. apply omap_app. Qed.

Lemma acks_app tr1 tr2 : acks (tr1 ++ tr2) = acks tr1 ++ acks tr2.
Proof. unfold acks. apply omap_app. Qed.

Lemma stores_app b tr1 tr2 : stores b (tr1 ++ tr2) = stores b tr1 ++ stores b tr2.
Proof. unfold stores. apply omap_app. Qed.


Lemma zrange_length i n : length (zrange i n) = n.
Proof. revert i. induction n as [|n IH]; intros i; simpl; [reflexivity|]. now rewrite IH. Qed.

Lemma twi_eta t :
  set_trace (trace t) (set_masterBuffer (masterBuffer t) t) = t.
Proof. destruct t; reflexivity. Qed.

(** The copy loop of [writeTo] in closed form. *)
Lemma copy_in_loop data n i t :
  for_loop n i (fun i t => store_master i (load data i) t) t =
  set_trace (trace t ++ map (fun j => Store MasterBuffer j (load data j)) (zrange i n))
    (set_masterBuffer (pokes (masterBuffer t) i (map (load data) (zrange i n))) t).
Proof.
  revert i t. induction n as [|n IH]; intros i t; simpl.
  - rewrite app_nil_r. symmetry. apply twi_eta.
  - rewrite IH. twi_simpl. rewrite <- app_assoc. reflexivity.
Qed.

Lemma spin_idle hT hR busy pending t :
  busy t = false -> spin hT hR busy pending t = Some (t, pending).
Proof. intros H. destruct pending; simpl; rewrite H; reflexivity. Qed.

Lemma spin_step hT hR busy i pending t :
  busy t = true -> spin hT hR busy (i :: pending) t = spin hT hR busy pending (raise hT hR i t).
Proof. intros H. simpl. rewrite H. reflexivity. Qed.

Ltac begin_cases :=
  unfold writeTo_begin, readFrom_begin, start_or_continue;
  rewrite ?copy_in_loop; twi_simpl;
  match goal with |- context [if ?c then _ else _] => destruct c end;
  twi_simpl.

Lemma writeTo_begin_error a d l s t : error (writeTo_begin a d l s t) = 0xFF.
Proof. begin_cases; reflexivity. Qed.


Lemma writeTo_begin_sendStop a d l s t : sendStop (writeTo_begin a d l s t) = sendStop t.
Proof. begin_cases; reflexivity. Qed.

Lemma writeTo_begin_last a d l s t :
  exists v, last (trace (writeTo_begin a d l s t)) = Some (WrTWCR v).
Proof. begin_cases; rewrite last_snoc; eexists; reflexivity. Qed.

Lemma readFrom_begin_error a l s t : error (readFrom_begin a l s t) = 0xFF.
Proof. begin_cases; reflexivity. Qed.


Lemma readFrom_begin_sendStop a l s t : sendStop (readFrom_begin a l s t) = sendStop t.
Proof. begin_cases; reflexivity. Qed.

Lemma readFrom_begin_length a l s t :
  masterBufferLength (readFrom_begin a l s t) = u8 (l - 1).
Proof. begin_cases; reflexivity. Qed.

Lemma writeTo_end_return_code t : writeTo_end t = return_code (error t).
Proof.
  unfold writeTo_end, return_code.
  destruct (error t =? 0xFF) eqn:E1; [apply Z.eqb_eq in E1; rewrite E1; reflexivity|].
  destruct (error t =? status_code TW_MT_SLA_NACK) eqn:E2;
    [apply Z.eqb_eq in E2; rewrite E2; reflexivity|].
  destruct (error t =? status_code TW_MT_DATA_NACK) eqn:E3;
    [apply Z.eqb_eq in E3; rewrite E3; reflexivity|].
  apply Z.eqb_neq in E1, E2, E3. simpl in E2, E3.
  destruct (error t) as [|p|p]; try reflexivity.
  repeat (destruct p as [p|p|]; try reflexivity); congruence.
Qed.

Section Properties.

Variable twi0_onSlaveTransmit : Twi -> Twi.
Variable twi0_onSlaveReceive : list Z -> Z -> Twi -> Twi.

Local Abbreviation handler := (onInterrupt twi0_onSlaveTransmit twi0_onSlaveReceive).
Local Abbreviation deliver := (raise twi0_onSlaveTransmit twi0_onSlaveReceive).
Local Abbreviation deliver_all := (raise_all twi0_onSlaveTransmit twi0_onSlaveReceive).
Local Abbreviation wait_while := (spin twi0_onSlaveTransmit twi0_onSlaveReceive).
Local Abbreviation read_from := (readFrom twi0_onSlaveTransmit twi0_onSlaveReceive).
Local Abbreviation write_to := (writeTo twi0_onSlaveTransmit twi0_onSlaveReceive).

(** ** The capacity guards *)

(** C5.  A [writeTo] whose length exceeds [bufferSize] returns 1 and a
    [readFrom] whose length exceeds it returns 0, both at once: the
    controller (registers and trace included) is the one the call found,
    no pending interrupt is consumed and the caller's array is untouched.
    A length equal to [bufferSize] passes both guards: the call goes on to
    its wait loops, and a non-blocking [writeTo] on a ready controller has
    then written the control register. *)
Theorem capacity_guard address data length wait sendStop t pending :
  (bufferSize t < length ->
     write_to address data length wait sendStop t pending = Some (1, t, pending) /\
     read_from address data length sendStop t pending = Some (0, data, t, pending)) /\
  (length = bufferSize t ->
     write_to address data length wait sendStop t pending =
       match wait_while (fun t => negb (TWI_READY =? state t)) pending t with
       | None => None
       | Some (t, pending) =>
           let t := writeTo_begin address data length sendStop t in
           match wait_while (fun t => truthy wait && (TWI_MTX =? state t)) pending t with
           | None => None
           | Some (t, pending) => Some (writeTo_end t, t, pending)
           end
       end /\
     read_from address data length sendStop t pending =
       match wait_while (fun t => negb (TWI_READY =? state t)) pending t with
       | None => None
       | Some (t, pending) =>
           let t := readFrom_begin address length sendStop t in
           match wait_while (fun t => TWI_MRX =? state t) pending t with
           | None => None
           | Some (t, pending) =>
               Some (fst (readFrom_end data length t),
                     snd (readFrom_end data length t), t, pending)
           end
       end /\
     (state t = TWI_READY ->
      exists t', write_to address data length 0 sendStop t pending = Some (0, t', pending) /\
                 t' = writeTo_begin address data length sendStop t /\
                 exists v, last (trace t') = Some (WrTWCR v))).
Proof.
  split.
  - intros Hlen. unfold writeTo, readFrom.
    assert ((bufferSize t <? length) = true) as -> by (apply Z.ltb_lt; lia).
    split; reflexivity.
  - intros Hlen. unfold writeTo, readFrom.
    assert ((bufferSize t <? length) = false) as -> by (apply Z.ltb_ge; lia).
    split; [reflexivity|]. split.
    + destruct (wait_while _ pending t) as [[t1 p1]|]; [|reflexivity].
      destruct (wait_while _ p1 _) as [[t2 p2]|]; [|reflexivity].
      destruct (readFrom_end data length t2); reflexivity.
    + intros Hready.
      rewrite spin_idle by (rewrite Hready; reflexivity).
      rewrite spin_idle by reflexivity.
      eexists. split; [|split; [reflexivity|apply writeTo_begin_last]].
      rewrite writeTo_end_return_code, writeTo_begin_error. reflexivity.
Qed.

(** ** One interrupt at a time *)

Lemma reply_1 t : reply 1 t = write_twcr CR_ACK t.
Proof. reflexivity. Qed.

Lemma reply_0 t : reply 0 t = write_twcr CR_NACK t.
Proof. reflexivity. Qed.

Lemma deliver_START t :
  deliver (irq TW_START) t =
  write_twcr CR_ACK (write_twdr (slarw t) (set_twsr 0x08 t)).
Proof. reflexivity. Qed.

Lemma deliver_mt_ack i t :
  mt_ack i ->
  deliver i t =
  let t0 := set_twsr (irq_status i) t in
  if masterBufferIndex t <? masterBufferLength t then
    write_twcr CR_ACK
      (write_twdr (load (masterBuffer t) (masterBufferIndex t))
         (set_masterBufferIndex (u8 (masterBufferIndex t + 1)) t0))
  else stop_or_repeated_start t0.
Proof. intros [-> | ->]; reflexivity. Qed.

Lemma deliver_MT_SLA_NACK t :
  deliver (irq TW_MT_SLA_NACK) t = stop (set_error 0x20 (set_twsr 0x20 t)).
Proof. reflexivity. Qed.

Lemma deliver_MT_DATA_NACK t :
  deliver (irq TW_MT_DATA_NACK) t = stop (set_error 0x30 (set_twsr 0x30 t)).
Proof. reflexivity. Qed.

Lemma deliver_MT_ARB_LOST t :
  deliver (irq TW_MT_ARB_LOST) t = releaseBus (set_error 0x38 (set_twsr 0x38 t)).
Proof. reflexivity. Qed.

Lemma deliver_MR_SLA_ACK t :
  deliver (irq TW_MR_SLA_ACK) t =
  write_twcr (reply_word (masterBufferIndex t <? masterBufferLength t))
    (set_twsr 0x40 t).
Proof.
  change (deliver (irq TW_MR_SLA_ACK) t) with (mr_ack_if_more (set_twsr 0x40 t)).
  unfold mr_ack_if_more. twi_simpl.
  destruct (masterBufferIndex t <? masterBufferLength t); reflexivity.
Qed.

Lemma deliver_MR_DATA_ACK b t :
  deliver (irq_byte TW_MR_DATA_ACK b) t =
  write_twcr (reply_word (u8 (masterBufferIndex t + 1) <? masterBufferLength t))
    (store_master (masterBufferIndex t) b
       (set_masterBufferIndex (u8 (masterBufferIndex t + 1))
          (set_twdr b (set_twsr 0x50 t)))).
Proof.
  change (deliver (irq_byte TW_MR_DATA_ACK b) t)
    with (mr_ack_if_more (mr_store_byte (set_twdr b (set_twsr 0x50 t)))).
  unfold mr_ack_if_more, mr_store_byte. twi_simpl.
  destruct (u8 (masterBufferIndex t + 1) <? masterBufferLength t); reflexivity.
Qed.

Lemma deliver_MR_DATA_NACK b t :
  deliver (irq_byte TW_MR_DATA_NACK b) t =
  stop_or_repeated_start
    (store_master (masterBufferIndex t) b
       (set_masterBufferIndex (u8 (masterBufferIndex t + 1))
          (set_twdr b (set_twsr 0x58 t)))).
Proof. reflexivity. Qed.

(** What the end of a master transaction leaves alone. *)
Lemma stop_or_repeated_start_frame t :
  let t' := stop_or_repeated_start t in
  bufferSize t' = bufferSize t /\ sendStop t' = sendStop t /\
  error t' = error t /\ masterBuffer t' = masterBuffer t /\
  masterBufferIndex t' = masterBufferIndex t /\
  masterBufferLength t' = masterBufferLength t /\
  inRepStart t' = (if truthy (sendStop t) then inRepStart t else 1).
Proof.
  unfold stop_or_repeated_start. destruct (truthy (sendStop t)); repeat split.
Qed.

(** ** Whole transactions against a simulated device *)

(** Master transmitter: from the acknowledged address to the end of the
    transaction, every byte being acknowledged. *)
Lemma mt_run wait evs :
  truthy wait = true ->
  forall t rest,
  Forall mt_ack evs ->
  state t = TWI_MTX ->
  0 <= masterBufferIndex t <= masterBufferLength t ->
  masterBufferLength t < 256 ->
  masterBufferIndex t + Z.of_nat (length evs) = masterBufferLength t + 1 ->
  exists t',
    wait_while (fun t => truthy wait && (TWI_MTX =? state t)) (evs ++ rest) t
      = Some (t', rest) /\
    state t' = TWI_READY /\ error t' = error t /\ sendStop t' = sendStop t /\
    bufferSize t' = bufferSize t /\ masterBuffer t' = masterBuffer t /\
    inRepStart t' = (if truthy (sendStop t) then inRepStart t else 1) /\
    trace t' = trace t
      ++ mt_data_trace (map (load (masterBuffer t))
                          (zrange (masterBufferIndex t) (length evs - 1)))
      ++ [WrTWCR (end_word t)].
Proof.
  intros Hwait. induction evs as [|e evs IH]; intros t rest Hacks Hst Hidx Hlen Hn.
  - simpl in Hn. lia.
  - inversion Hacks as [|? ? He Hacks']; subst.
    simpl app. rewrite spin_step by (rewrite Hwait, Hst; reflexivity).
    rewrite (deliver_mt_ack _ _ He). cbv zeta.
    destruct (masterBufferIndex t <? masterBufferLength t) eqn:Hlt.
    + apply Z.ltb_lt in Hlt.
      rewrite (u8_small (masterBufferIndex t + 1)) by lia.
      simpl length in Hn.
      edestruct (IH (write_twcr CR_ACK
                       (write_twdr (load (masterBuffer t) (masterBufferIndex t))
                          (set_masterBufferIndex (masterBufferIndex t + 1)
                             (set_twsr (irq_status e) t)))) rest)
        as (t' & Hrun & H1 & H2 & H3 & H4 & H5 & H6 & H7);
        twi_simpl; try assumption; try lia.
      exists t'. split; [exact Hrun|]. repeat (split; [assumption|]).
      rewrite H7. unfold end_word. twi_simpl.
      destruct evs as [|e' evs]; [simpl in Hn; lia|].
      simpl length. replace (S (S (length evs)) - 1)%nat with (S (length evs)) by lia.
      replace (S (length evs) - 1)%nat with (length evs) by lia.
      simpl. rewrite <- !app_assoc. reflexivity.
    + apply Z.ltb_ge in Hlt.
      assert (evs = []) as -> by (destruct evs; [reflexivity|simpl in Hn; lia]).
      simpl app.
      pose proof (stop_or_repeated_start_frame (set_twsr (irq_status e) t)) as Hf.
      cbv zeta in Hf. twi_simpl. destruct Hf as (F1 & F2 & F3 & F4 & F5 & F6 & F7).
      eexists. split.
      { apply spin_idle. rewrite state_stop_or_repeated_start. apply andb_false_r. }
      rewrite state_stop_or_repeated_start, trace_stop_or_repeated_start.
      repeat (split; [first [reflexivity | assumption]|]).
      reflexivity.
Qed.

(** Master receiver: from the first data byte to the end of the
    transaction, the device supplying [bytes] and the last of them being
    answered by NACK. *)
Lemma mr_run bytes :
  forall t rest,
  bytes <> [] ->
  state t = TWI_MRX ->
  0 <= masterBufferIndex t ->
  masterBufferLength t < 256 ->
  masterBufferIndex t + Z.of_nat (length bytes) = masterBufferLength t + 1 ->
  exists t',
    wait_while (fun t => TWI_MRX =? state t) (mr_bytes bytes ++ rest) t
      = Some (t', rest) /\
    state t' = TWI_READY /\ error t' = error t /\ sendStop t' = sendStop t /\
    bufferSize t' = bufferSize t /\
    masterBufferLength t' = masterBufferLength t /\
    masterBufferIndex t' = u8 (masterBufferLength t + 1) /\
    masterBuffer t' = pokes (masterBuffer t) (masterBufferIndex t) bytes /\
    trace t' = trace t
      ++ mr_data_trace (masterBufferIndex t) (masterBufferLength t) bytes
      ++ [WrTWCR (end_word t)].
Proof.
  induction bytes as [|b bytes IH]; intros t rest Hne Hst Hidx Hlen Hn; [congruence|].
  destruct bytes as [|b2 bytes].
  - (* the last byte *)
    simpl in Hn. simpl mr_bytes. simpl app.
    rewrite spin_step by (rewrite Hst; reflexivity).
    rewrite deliver_MR_DATA_NACK.
    match goal with |- context [stop_or_repeated_start ?x] =>
      pose proof (stop_or_repeated_start_frame x) as Hf;
      pose proof (state_stop_or_repeated_start x) as Hs;
      pose proof (trace_stop_or_repeated_start x) as Ht
    end.
    cbv zeta in Hf. unfold end_word in *. twi_simpl.
    destruct Hf as (F1 & F2 & F3 & F4 & F5 & F6 & F7).
    eexists. split; [apply spin_idle; rewrite Hs; reflexivity|].
    rewrite Hs, F1, F2, F3, F4, F5, F6, Ht.
    replace (masterBufferLength t + 1) with (masterBufferIndex t + 1) by lia.
    rewrite <- app_assoc. repeat split.
  - (* a byte that is not the last *)
    change (mr_bytes (b :: b2 :: bytes))
      with (irq_byte TW_MR_DATA_ACK b :: mr_bytes (b2 :: bytes)).
    simpl app. rewrite spin_step by (rewrite Hst; reflexivity).
    rewrite deliver_MR_DATA_ACK.
    simpl length in Hn.
    rewrite (u8_small (masterBufferIndex t + 1)) by lia.
    edestruct (IH (write_twcr
                     (reply_word (masterBufferIndex t + 1 <? masterBufferLength t))
                     (store_master (masterBufferIndex t) b
                        (set_masterBufferIndex (masterBufferIndex t + 1)
                           (set_twdr b (set_twsr 0x50 t))))) rest)
      as (t' & Hrun & H1 & H2 & H3 & H4 & H5 & H6 & H7 & H8);
      twi_simpl; try assumption; try lia; try congruence.
    { simpl length. lia. }
    exists t'. split; [exact Hrun|].
    repeat (split; [assumption|]).
    rewrite H8. unfold end_word. twi_simpl.
    change (mr_data_trace (masterBufferIndex t) (masterBufferLength t) (b :: b2 :: bytes))
      with (Store MasterBuffer (masterBufferIndex t) b
              :: WrTWCR (reply_word (masterBufferIndex t + 1 <? masterBufferLength t))
              :: mr_data_trace (masterBufferIndex t + 1) (masterBufferLength t) (b2 :: bytes)).
    rewrite <- !app_assoc. reflexivity.
Qed.

(** The replies armed during the data phase of a master read: ACK for
    every byte but the last, NACK for the last. *)
Lemma acks_mr_data_trace bytes :
  forall i len,
  bytes <> [] ->
  i + Z.of_nat (length bytes) = len + 1 ->
  acks (WrTWCR (reply_word (i <? len)) :: mr_data_trace i len bytes)
  = replicate (length bytes - 1) true ++ [false].
Proof.
  induction bytes as [|b bytes IH]; intros i len Hne Hn; [congruence|].
  destruct bytes as [|b2 bytes].
  - simpl in Hn. assert ((i <? len) = false) as -> by (apply Z.ltb_ge; lia).
    reflexivity.
  - simpl length in Hn.
    assert ((i <? len) = true) as -> by (apply Z.ltb_lt; lia).
    change (mr_data_trace i len (b :: b2 :: bytes))
      with (Store MasterBuffer i b :: WrTWCR (reply_word (i + 1 <? len))
              :: mr_data_trace (i + 1) len (b2 :: bytes)).
    change (acks (WrTWCR (reply_word true) :: Store MasterBuffer i b
                    :: WrTWCR (reply_word (i + 1 <? len))
                    :: mr_data_trace (i + 1) len (b2 :: bytes)))
      with (true :: acks (WrTWCR (reply_word (i + 1 <? len))
                            :: mr_data_trace (i + 1) len (b2 :: bytes))).
    rewrite IH by (simpl length; first [congruence | lia]).
    simpl length. replace (S (S (length bytes)) - 1)%nat with (S (length bytes)) by lia.
    replace (S (length bytes) - 1)%nat with (length bytes) by lia.
    reflexivity.
Qed.

(** The stores of the data phase: the supplied bytes, in order, at
    consecutive indices. *)
Lemma stores_mr_data_trace bytes :
  forall i len,
  stores MasterBuffer (mr_data_trace i len bytes) = zip (zrange i (length bytes)) bytes.
Proof.
  induction bytes as [|b bytes IH]; intros i len; [reflexivity|].
  destruct bytes as [|b2 bytes]; [reflexivity|].
  change (mr_data_trace i len (b :: b2 :: bytes))
    with (Store MasterBuffer i b :: WrTWCR (reply_word (i + 1 <? len))
            :: mr_data_trace (i + 1) len (b2 :: bytes)).
  change (stores MasterBuffer
            (Store MasterBuffer i b :: WrTWCR (reply_word (i + 1 <? len))
               :: mr_data_trace (i + 1) len (b2 :: bytes)))
    with ((i, b) :: stores MasterBuffer (mr_data_trace (i + 1) len (b2 :: bytes))).
  rewrite IH. reflexivity.
Qed.

(** ** Buffers as lists *)

Lemma poke_nat (buf : list Z) (i : nat) v : poke buf (Z.of_nat i) v = <[i := v]> buf.
Proof.
  unfold poke. assert ((0 <=? Z.of_nat i) = true) as -> by (apply Z.leb_le; lia).
  rewrite Nat2Z.id. reflexivity.
Qed.

Lemma load_nat (buf : list Z) (i : nat) x : buf !! i = Some x -> load buf (Z.of_nat i) = x.
Proof. intros H. unfold load. rewrite Nat2Z.id, H. reflexivity. Qed.

Lemma pokes_take_drop bytes :
  forall (buf : list Z) (i : nat),
  (i + length bytes <= length buf)%nat ->
  pokes buf (Z.of_nat i) bytes = take i buf ++ bytes ++ drop (i + length bytes) buf.
Proof.
  induction bytes as [|b bytes IH]; intros buf i Hlen; simpl.
  - rewrite Nat.add_0_r. symmetry. apply take_drop.
  - simpl in Hlen. rewrite poke_nat.
    replace (Z.of_nat i + 1) with (Z.of_nat (S i)) by lia.
    rewrite IH by (rewrite length_insert; lia).
    rewrite (take_S_r _ i b) by (apply list_lookup_insert_eq; lia).
    rewrite take_insert_ge by lia.
    rewrite drop_insert_lt by lia.
    rewrite <- app_assoc.
    replace (S i + length bytes)%nat with (i + S (length bytes))%nat by lia.
    reflexivity.
Qed.

Lemma copy_out_loop (src : list Z) n :
  forall (dst : list Z) (i : nat),
  (i + n <= length src)%nat ->
  for_loop n (Z.of_nat i) (fun j d => poke d j (load src j)) dst
  = pokes dst (Z.of_nat i) (take n (drop i src)).
Proof.
  induction n as [|n IH]; intros dst i Hlen; simpl; [reflexivity|].
  destruct (lookup_lt_is_Some_2 src i) as [x Hx]; [lia|].
  rewrite (drop_S _ x _ Hx). simpl.
  rewrite (load_nat _ _ _ Hx).
  replace (Z.of_nat i + 1) with (Z.of_nat (S i)) by lia.
  apply IH. lia.
Qed.

(** ** The entry points up to their wait loop, in closed form *)

Lemma readFrom_begin_fresh a len s t :
  continues t = false ->
  readFrom_begin a len s t =
  write_twcr CR_START
    (set_slarw (u8 (Z.lor TW_READ (Z.shiftl a 1)))
       (set_masterBufferLength (u8 (len - 1))
          (set_masterBufferIndex 0 (set_error 0xFF (set_state TWI_MRX t))))).
Proof.
  unfold continues. intros H.
  unfold readFrom_begin, start_or_continue. twi_simpl. rewrite H.
  destruct t. twi_norm. reflexivity.
Qed.

Lemma readFrom_begin_continued a len s t :
  continues t = true ->
  readFrom_begin a len s t =
  write_twcr CR_ACK
    (write_twdr (u8 (Z.lor TW_READ (Z.shiftl a 1)))
       (set_inRepStart 0
          (set_slarw (u8 (Z.lor TW_READ (Z.shiftl a 1)))
             (set_masterBufferLength (u8 (len - 1))
                (set_masterBufferIndex 0 (set_error 0xFF (set_state TWI_MRX t))))))).
Proof.
  unfold continues. intros H.
  unfold readFrom_begin, start_or_continue. twi_simpl. rewrite H.
  destruct t. twi_norm. reflexivity.
Qed.

Lemma writeTo_begin_fresh a data len s t :
  continues t = false ->
  writeTo_begin a data len s t =
  write_twcr CR_START
    (set_slarw (u8 (Z.lor TW_WRITE (Z.shiftl a 1)))
       (set_trace
          (trace t ++ map (fun j => Store MasterBuffer j (load data j))
                        (zrange 0 (Z.to_nat len)))
          (set_masterBuffer
             (pokes (masterBuffer t) 0 (map (load data) (zrange 0 (Z.to_nat len))))
             (set_masterBufferLength len
                (set_masterBufferIndex 0 (set_error 0xFF (set_state TWI_MTX t))))))).
Proof.
  unfold continues. intros H.
  unfold writeTo_begin, start_or_continue. rewrite copy_in_loop. twi_simpl.
  rewrite H. destruct t. twi_norm. reflexivity.
Qed.

Lemma writeTo_begin_continued a data len s t :
  continues t = true ->
  writeTo_begin a data len s t =
  write_twcr CR_ACK
    (write_twdr (u8 (Z.lor TW_WRITE (Z.shiftl a 1)))
       (set_inRepStart 0
          (set_slarw (u8 (Z.lor TW_WRITE (Z.shiftl a 1)))
             (set_trace
                (trace t ++ map (fun j => Store MasterBuffer j (load data j))
                              (zrange 0 (Z.to_nat len)))
                (set_masterBuffer
                   (pokes (masterBuffer t) 0 (map (load data) (zrange 0 (Z.to_nat len))))
                   (set_masterBufferLength len
                      (set_masterBufferIndex 0
                         (set_error 0xFF (set_state TWI_MTX t))))))))).
Proof.
  unfold continues. intros H.
  unfold writeTo_begin, start_or_continue. rewrite copy_in_loop. twi_simpl.
  rewrite H. destruct t. twi_norm. reflexivity.
Qed.

(** A whole master read against a device that supplies [bytes]. *)
Lemma readFrom_run a data len s t bytes rest :
  len <= bufferSize t ->
  state t = TWI_READY ->
  Z.of_nat (length bytes) = u8 (len - 1) + 1 ->
  exists t',
    read_from a data len s t (mr_device (continues t) bytes ++ rest)
      = Some (fst (readFrom_end data len t'), snd (readFrom_end data len t'), t', rest) /\
    state t' = TWI_READY /\ error t' = 0xFF /\ sendStop t' = sendStop t /\
    bufferSize t' = bufferSize t /\
    masterBufferLength t' = u8 (len - 1) /\
    masterBufferIndex t' = u8 (u8 (len - 1) + 1) /\
    masterBuffer t' = pokes (masterBuffer t) 0 bytes /\
    trace t' = trace t
      ++ address_trace (continues t) (u8 (Z.lor TW_READ (Z.shiftl a 1)))
      ++ (WrTWCR (reply_word (0 <? u8 (len - 1))) :: mr_data_trace 0 (u8 (len - 1)) bytes)
      ++ [WrTWCR (end_word t)].
Proof.
  intros Hcap Hready Hn.
  pose proof (u8_range (len - 1)) as Hu.
  assert (bytes <> []) as Hne by (destruct bytes; [simpl in Hn; lia|congruence]).
  unfold readFrom.
  assert ((bufferSize t <? len) = false) as -> by (apply Z.ltb_ge; lia).
  rewrite spin_idle by (rewrite Hready; reflexivity).
  unfold mr_device, address_trace.
  destruct (continues t) eqn:Hc.
  - rewrite readFrom_begin_continued by assumption.
    simpl app. rewrite spin_step by reflexivity.
    rewrite deliver_MR_SLA_ACK. twi_simpl.
    match goal with |- context [spin _ _ _ (mr_bytes bytes ++ rest) ?X] =>
      destruct (mr_run bytes X rest) as (t' & Hrun & H1 & H2 & H3 & H4 & H5 & H6 & H7 & H8)
    end; twi_simpl; try first [assumption | reflexivity | lia].
    exists t'. rewrite Hrun. unfold end_word in *. twi_simpl.
    destruct (readFrom_end data len t'). simpl fst; simpl snd.
    split; [reflexivity|]. repeat (split; [assumption|]).
    rewrite H8. rewrite <- !app_assoc. reflexivity.
  - rewrite readFrom_begin_fresh by assumption.
    simpl app. rewrite spin_step by reflexivity.
    rewrite deliver_START. rewrite spin_step by reflexivity.
    rewrite deliver_MR_SLA_ACK. twi_simpl.
    match goal with |- context [spin _ _ _ (mr_bytes bytes ++ rest) ?X] =>
      destruct (mr_run bytes X rest) as (t' & Hrun & H1 & H2 & H3 & H4 & H5 & H6 & H7 & H8)
    end; twi_simpl; try first [assumption | reflexivity | lia].
    exists t'. rewrite Hrun. unfold end_word in *. twi_simpl.
    destruct (readFrom_end data len t'). simpl fst; simpl snd.
    split; [reflexivity|]. repeat (split; [assumption|]).
    rewrite H8. rewrite <- !app_assoc. reflexivity.
Qed.

(** A whole blocking master write against a device that acknowledges its
    address and every byte. *)
Lemma writeTo_run a data len wait s t rest :
  truthy wait = true ->
  0 <= len < 256 ->
  len <= bufferSize t ->
  state t = TWI_READY ->
  exists t',
    write_to a data len wait s t (mt_device (continues t) (Z.to_nat len) ++ rest)
      = Some (0, t', rest) /\
    state t' = TWI_READY /\ error t' = 0xFF /\ sendStop t' = sendStop t /\
    bufferSize t' = bufferSize t /\
    continues t' = negb (truthy (sendStop t)) /\
    masterBuffer t' = pokes (masterBuffer t) 0 (map (load data) (zrange 0 (Z.to_nat len))) /\
    trace t' = trace t
      ++ map (fun j => Store MasterBuffer j (load data j)) (zrange 0 (Z.to_nat len))
      ++ address_trace (continues t) (u8 (Z.lor TW_WRITE (Z.shiftl a 1)))
      ++ mt_data_trace (map (load (masterBuffer t')) (zrange 0 (Z.to_nat len)))
      ++ [WrTWCR (end_word t)].
Proof.
  intros Hwait Hlen Hcap Hready.
  unfold writeTo.
  assert ((bufferSize t <? len) = false) as -> by (apply Z.ltb_ge; lia).
  rewrite spin_idle by (rewrite Hready; reflexivity).
  unfold mt_device, address_trace.
  assert (Forall mt_ack (irq TW_MT_SLA_ACK :: replicate (Z.to_nat len) (irq TW_MT_DATA_ACK)))
    as Hacks.
  { constructor; [left; reflexivity|].
    apply Forall_forall. intros x Hx. apply elem_of_replicate in Hx as [-> _].
    right; reflexivity. }
  destruct (continues t) eqn:Hc.
  - rewrite writeTo_begin_continued by assumption.
    change ([] ++ ?l) with l.
    match goal with |- context [spin _ _ _ (?E ++ rest) ?X] =>
      destruct (mt_run wait E Hwait X rest Hacks)
        as (t' & Hrun & H1 & H2 & H3 & H4 & H5 & H6 & H7)
    end; twi_simpl; try first [assumption | reflexivity | lia].
    { simpl length. rewrite length_replicate. lia. }
    exists t'. rewrite Hrun.
    rewrite writeTo_end_return_code, H2.
    split; [reflexivity|]. repeat (split; [first [assumption | reflexivity]|]).
    split.
    { unfold continues. rewrite H6. destruct (truthy (sendStop t)); reflexivity. }
    split; [assumption|].
    rewrite H7, H5. unfold end_word. twi_simpl.
    replace (length (irq TW_MT_SLA_ACK :: replicate (Z.to_nat len) (irq TW_MT_DATA_ACK)) - 1)%nat
      with (Z.to_nat len) by (simpl length; rewrite length_replicate; lia).
    rewrite <- !app_assoc. reflexivity.
  - rewrite writeTo_begin_fresh by assumption.
    change (([irq TW_START] ++ ?l) ++ rest) with (irq TW_START :: (l ++ rest)).
    rewrite spin_step by (twi_simpl; rewrite Hwait; reflexivity).
    rewrite deliver_START. twi_simpl.
    match goal with |- context [spin _ _ _ (?E ++ rest) ?X] =>
      destruct (mt_run wait E Hwait X rest Hacks)
        as (t' & Hrun & H1 & H2 & H3 & H4 & H5 & H6 & H7)
    end; twi_simpl; try first [assumption | reflexivity | lia].
    { simpl length. rewrite length_replicate. lia. }
    exists t'. rewrite Hrun.
    rewrite writeTo_end_return_code, H2.
    split; [reflexivity|]. repeat (split; [first [assumption | reflexivity]|]).
    split.
    { unfold continues in *. rewrite H6. destruct (truthy (sendStop t)); [assumption|reflexivity]. }
    split; [assumption|].
    rewrite H7, H5. unfold end_word. twi_simpl.
    replace (length (irq TW_MT_SLA_ACK :: replicate (Z.to_nat len) (irq TW_MT_DATA_ACK)) - 1)%nat
      with (Z.to_nat len) by (simpl length; rewrite length_replicate; lia).
    rewrite <- !app_assoc. reflexivity.
Qed.

(** ** Master read *)

(** C3.  [readFrom] of [len] bytes, 1 <= len <= bufferSize, against a device
    that supplies exactly the [len] bytes of [bytes]: the target length is
    armed as [len - 1]; the replies of the data phase are ACK for each of
    the first [len - 1] bytes and NACK for the last, the NACK being armed
    when the second-to-last byte is served; the bytes are stored in order;
    the call returns [min len received = len] and the caller's array holds
    the supplied bytes in order. *)
Theorem master_read_ack_sequence a data len s t bytes rest :
  Z.of_nat (length bytes) = len ->
  1 <= len -> len < 256 -> len <= bufferSize t ->
  state t = TWI_READY ->
  Z.of_nat (length (masterBuffer t)) = bufferSize t ->
  len <= Z.of_nat (length data) ->
  masterBufferLength (readFrom_begin a len s t) = len - 1 /\
  exists t' data_phase,
    read_from a data len s t (mr_device (continues t) bytes ++ rest)
      = Some (Z.min len (masterBufferIndex t'),
              bytes ++ drop (length bytes) data, t', rest) /\
    masterBufferIndex t' = len /\
    state t' = TWI_READY /\
    trace t' = trace t
      ++ address_trace (continues t) (u8 (Z.lor TW_READ (Z.shiftl a 1)))
      ++ data_phase ++ [WrTWCR (end_word t)] /\
    acks data_phase = replicate (length bytes - 1) true ++ [false] /\
    stores MasterBuffer data_phase = zip (zrange 0 (length bytes)) bytes.
Proof.
  intros Hn H1 H256 Hcap Hready Halloc Hdata.
  assert (u8 (len - 1) = len - 1) as Hu by (apply u8_small; lia).
  split; [rewrite readFrom_begin_length; exact Hu|].
  destruct (readFrom_run a data len s t bytes rest)
    as (t' & Hrun & R1 & R2 & R3 & R4 & R5 & R6 & R7 & R8);
    try first [assumption | lia].
  rewrite Hu in *.
  rewrite u8_small in R6 by lia. replace (len - 1 + 1) with len in R6 by lia.
  exists t', (WrTWCR (reply_word (0 <? len - 1)) :: mr_data_trace 0 (len - 1) bytes).
  assert (bytes <> []) as Hne by (destruct bytes; [simpl in Hn; lia|congruence]).
  split; [|split; [assumption|split; [assumption|split; [assumption|split]]]].
  - rewrite Hrun. unfold readFrom_end. rewrite R6, R7.
    rewrite Z.ltb_irrefl, Z.min_id.
    change 0 with (Z.of_nat 0).
    rewrite pokes_take_drop by (simpl; lia).
    rewrite <- Hn, Nat2Z.id. simpl fst; simpl snd.
    rewrite copy_out_loop
      by (simpl; rewrite length_app, length_drop; lia).
    rewrite pokes_take_drop by (rewrite length_take; simpl; lia).
    change (drop 0 ?l) with l. change (take 0 data) with (@nil Z).
    rewrite take_app_length. reflexivity.
  - apply acks_mr_data_trace; [assumption|lia].
  - change (stores MasterBuffer
              (WrTWCR (reply_word (0 <? len - 1)) :: mr_data_trace 0 (len - 1) bytes))
      with (stores MasterBuffer (mr_data_trace 0 (len - 1) bytes)).
    apply stores_mr_data_trace.
Qed.

(** C9.  [readFrom] with length 0 passes the capacity guard, and
    [length - 1] wraps to 255 in [masterBufferLength].  The handler then
    acknowledges as long as [masterBufferIndex < 255]: against a device
    that keeps supplying bytes the master acknowledges 255 of them, stores
    256, and the call returns 0 without copying anything. *)
Theorem read_of_length_zero a data s t bytes rest :
  0 <= bufferSize t ->
  state t = TWI_READY ->
  length bytes = 256%nat ->
  (bufferSize t <? 0) = false /\
  masterBufferLength (readFrom_begin a 0 s t) = 255 /\
  (forall u, masterBufferLength u = 255 -> masterBufferIndex u < 255 ->
             mr_ack_if_more u = reply 1 u) /\
  exists t' data_phase,
    read_from a data 0 s t (mr_device (continues t) bytes ++ rest)
      = Some (0, data, t', rest) /\
    masterBufferLength t' = 255 /\
    trace t' = trace t
      ++ address_trace (continues t) (u8 (Z.lor TW_READ (Z.shiftl a 1)))
      ++ data_phase ++ [WrTWCR (end_word t)] /\
    acks data_phase = replicate 255 true ++ [false] /\
    stores MasterBuffer data_phase = zip (zrange 0 256) bytes.
Proof.
  intros Hcap Hready Hn.
  split; [apply Z.ltb_ge; lia|].
  split; [rewrite readFrom_begin_length; reflexivity|].
  split.
  { intros u Hl Hi. unfold mr_ack_if_more.
    assert ((masterBufferIndex u <? masterBufferLength u) = true) as ->
      by (apply Z.ltb_lt; lia).
    reflexivity. }
  destruct (readFrom_run a data 0 s t bytes rest)
    as (t' & Hrun & R1 & R2 & R3 & R4 & R5 & R6 & R7 & R8);
    try first [assumption | lia].
  { rewrite Hn. reflexivity. }
  change (u8 (0 - 1)) with 255 in *. change (u8 (255 + 1)) with 0 in R6.
  exists t', (WrTWCR (reply_word (0 <? 255)) :: mr_data_trace 0 255 bytes).
  assert (bytes <> []) as Hne by (destruct bytes; [discriminate|congruence]).
  split; [|split; [assumption|split; [assumption|split]]].
  - rewrite Hrun. unfold readFrom_end. rewrite R6. reflexivity.
  - rewrite acks_mr_data_trace by (try assumption; rewrite Hn; reflexivity).
    rewrite Hn. reflexivity.
  - change (stores MasterBuffer (WrTWCR (reply_word (0 <? 255)) :: mr_data_trace 0 255 bytes))
      with (stores MasterBuffer (mr_data_trace 0 255 bytes)).
    rewrite stores_mr_data_trace, Hn. reflexivity.
Qed.

(** ** Master write *)

(** A wait loop that ends has served a prefix of the pending interrupts
    and left its condition false. *)
Lemma spin_inv busy pending :
  forall t t' rest,
  wait_while busy pending t = Some (t', rest) ->
  exists served, pending = served ++ rest /\ t' = deliver_all served t /\ busy t' = false.
Proof.
  induction pending as [|i pending IH]; intros t t' rest H; simpl in H.
  - destruct (busy t) eqn:Hb; [discriminate|]. inversion H; subst.
    exists []. repeat split; assumption.
  - destruct (busy t) eqn:Hb.
    + apply IH in H as (served & -> & -> & Hb'). exists (i :: served). repeat split; assumption.
    + inversion H; subst. exists []. repeat split; assumption.
Qed.

(** C4.  A blocking [writeTo] that completes: the error latch is 0xFF when
    the transaction starts, and the return code is the image of the latch
    the handler leaves: 0 for 0xFF, 2 for address-NACK, 3 for data-NACK, 4
    for anything else, arbitration loss included.  The handler latches
    address-NACK and data-NACK and issues a stop; on arbitration loss it
    latches, writes the release word, which asserts no stop condition, and
    sets the state to ready.  A device that acknowledges everything gives
    0, one that rejects its address 2, one that rejects the first byte 3,
    and a lost arbitration 4. *)
Theorem write_error_mapping a data len wait s :
  truthy wait = true ->
  (forall t pending rc t' rest,
     len <= bufferSize t ->
     write_to a data len wait s t pending = Some (rc, t', rest) ->
     (exists t0 served,
        state t0 = TWI_READY /\
        error (writeTo_begin a data len s t0) = 0xFF /\
        t' = deliver_all served (writeTo_begin a data len s t0) /\
        state t' <> TWI_MTX) /\
     rc = return_code (error t') /\
     (error t' = 0xFF -> rc = 0) /\
     (error t' = status_code TW_MT_SLA_NACK -> rc = 2) /\
     (error t' = status_code TW_MT_DATA_NACK -> rc = 3) /\
     (error t' = status_code TW_MT_ARB_LOST -> rc = 4) /\
     (error t' <> 0xFF -> error t' <> status_code TW_MT_SLA_NACK ->
      error t' <> status_code TW_MT_DATA_NACK -> rc = 4)) /\
  (forall u,
     let u' := deliver (irq TW_MT_SLA_NACK) u in
     error u' = status_code TW_MT_SLA_NACK /\ state u' = TWI_READY /\
     trace u' = trace u ++ [WrTWCR CR_STOP] /\
     conditions [WrTWCR CR_STOP] = [StopCondition]) /\
  (forall u,
     let u' := deliver (irq TW_MT_DATA_NACK) u in
     error u' = status_code TW_MT_DATA_NACK /\ state u' = TWI_READY /\
     trace u' = trace u ++ [WrTWCR CR_STOP]) /\
  (forall u,
     let u' := deliver (irq TW_MT_ARB_LOST) u in
     error u' = status_code TW_MT_ARB_LOST /\ state u' = TWI_READY /\
     trace u' = trace u ++ [WrTWCR CR_RELEASE] /\
     conditions [WrTWCR CR_RELEASE] = []) /\
  (forall t rest,
     0 <= len < 256 -> len <= bufferSize t -> state t = TWI_READY ->
     let start := if continues t then [] else [irq TW_START] in
     (exists t', write_to a data len wait s t
                   (mt_device (continues t) (Z.to_nat len) ++ rest) = Some (0, t', rest)) /\
     (exists t', write_to a data len wait s t
                   (start ++ irq TW_MT_SLA_NACK :: rest) = Some (2, t', rest)) /\
     (0 < len ->
      exists t', write_to a data len wait s t
                   (start ++ irq TW_MT_SLA_ACK :: irq TW_MT_DATA_NACK :: rest)
                 = Some (3, t', rest)) /\
     (exists t', write_to a data len wait s t
                   (start ++ irq TW_MT_ARB_LOST :: rest) = Some (4, t', rest))).
Proof.
  intros Hwait. split; [|split; [|split; [|split]]].
  - intros t pending rc t' rest Hcap Hrun. unfold writeTo in Hrun.
    assert ((bufferSize t <? len) = false) as Hg by (apply Z.ltb_ge; lia).
    rewrite Hg in Hrun.
    destruct (wait_while _ pending t) as [[t0 p0]|] eqn:Hw1; [|discriminate].
    destruct (wait_while _ p0 _) as [[t1 p1]|] eqn:Hw2; [|discriminate].
    inversion Hrun; subst; clear Hrun.
    apply spin_inv in Hw1 as (served1 & _ & _ & Hb1).
    apply spin_inv in Hw2 as (served2 & _ & Ht' & Hb2).
    rewrite Hwait, andb_true_l in Hb2.
    apply negb_false_iff, Z.eqb_eq in Hb1. apply Z.eqb_neq in Hb2.
    rewrite writeTo_end_return_code.
    split.
    { exists t0, served2. repeat split; try congruence. apply writeTo_begin_error. }
    split; [reflexivity|].
    repeat split; try (intros ->; reflexivity).
    intros N1 N2 N3. simpl in N2, N3. unfold return_code.
    destruct (error t') as [|p|p]; try reflexivity.
    repeat (destruct p as [p|p|]; try reflexivity); congruence.
  - intros u. rewrite deliver_MT_SLA_NACK. repeat split.
  - intros u. rewrite deliver_MT_DATA_NACK. repeat split.
  - intros u. rewrite deliver_MT_ARB_LOST. repeat split.
  - intros t rest Hlen Hcap Hready. cbv zeta. split; [|split; [|split]].
    + destruct (writeTo_run a data len wait s t rest) as (t' & Hrun & _); try assumption.
      exists t'. exact Hrun.
    + unfold writeTo.
      assert ((bufferSize t <? len) = false) as -> by (apply Z.ltb_ge; lia).
      rewrite spin_idle by (rewrite Hready; reflexivity).
      destruct (continues t) eqn:Hc.
      * rewrite writeTo_begin_continued by assumption. simpl app.
        rewrite spin_step by (twi_simpl; rewrite Hwait; reflexivity).
        rewrite deliver_MT_SLA_NACK.
        rewrite spin_idle by (apply andb_false_r).
        eexists. reflexivity.
      * rewrite writeTo_begin_fresh by assumption. simpl app.
        rewrite spin_step by (twi_simpl; rewrite Hwait; reflexivity).
        rewrite deliver_START.
        rewrite spin_step by (twi_simpl; rewrite Hwait; reflexivity).
        rewrite deliver_MT_SLA_NACK.
        rewrite spin_idle by (apply andb_false_r).
        eexists. reflexivity.
    + intros Hpos. unfold writeTo.
      assert ((bufferSize t <? len) = false) as -> by (apply Z.ltb_ge; lia).
      rewrite spin_idle by (rewrite Hready; reflexivity).
      assert ((0 <? len) = true) as Hlt by (apply Z.ltb_lt; lia).
      destruct (continues t) eqn:Hc.
      * rewrite writeTo_begin_continued by assumption. simpl app.
        rewrite spin_step by (twi_simpl; rewrite Hwait; reflexivity).
        rewrite (deliver_mt_ack (irq TW_MT_SLA_ACK)) by (left; reflexivity).
        cbv zeta. twi_simpl. rewrite Hlt.
        rewrite spin_step by (twi_simpl; rewrite Hwait; reflexivity).
        rewrite deliver_MT_DATA_NACK.
        rewrite spin_idle by (apply andb_false_r).
        eexists. reflexivity.
      * rewrite writeTo_begin_fresh by assumption. simpl app.
        rewrite spin_step by (twi_simpl; rewrite Hwait; reflexivity).
        rewrite deliver_START.
        rewrite spin_step by (twi_simpl; rewrite Hwait; reflexivity).
        rewrite (deliver_mt_ack (irq TW_MT_SLA_ACK)) by (left; reflexivity).
        cbv zeta. twi_simpl. rewrite Hlt.
        rewrite spin_step by (twi_simpl; rewrite Hwait; reflexivity).
        rewrite deliver_MT_DATA_NACK.
        rewrite spin_idle by (apply andb_false_r).
        eexists. reflexivity.
    + unfold writeTo.
      assert ((bufferSize t <? len) = false) as -> by (apply Z.ltb_ge; lia).
      rewrite spin_idle by (rewrite Hready; reflexivity).
      destruct (continues t) eqn:Hc.
      * rewrite writeTo_begin_continued by assumption. simpl app.
        rewrite spin_step by (twi_simpl; rewrite Hwait; reflexivity).
        rewrite deliver_MT_ARB_LOST.
        rewrite spin_idle by (apply andb_false_r).
        eexists. reflexivity.
      * rewrite writeTo_begin_fresh by assumption. simpl app.
        rewrite spin_step by (twi_simpl; rewrite Hwait; reflexivity).
        rewrite deliver_START.
        rewrite spin_step by (twi_simpl; rewrite Hwait; reflexivity).
        rewrite deliver_MT_ARB_LOST.
        rewrite spin_idle by (apply andb_false_r).
        eexists. reflexivity.
Qed.

(** ** Start and stop conditions in a trace *)

Lemma conditions_stores (f : Z -> Action) l :
  (forall j, condition_of (f j) = None) -> conditions (map f l) = [].
Proof.
  intros Hf. induction l as [|j l IH]; [reflexivity|].
  simpl. unfold conditions in *. simpl. rewrite Hf. exact IH.
Qed.

Lemma conditions_mt_data_trace l : conditions (mt_data_trace l) = [].
Proof. induction l as [|b l IH]; [reflexivity|exact IH]. Qed.

Lemma conditions_reply b tr :
  conditions (WrTWCR (reply_word b) :: tr) = conditions tr.
Proof. destruct b; reflexivity. Qed.

Lemma conditions_mr_data_trace bytes :
  forall i len, conditions (mr_data_trace i len bytes) = [].
Proof.
  induction bytes as [|b bytes IH]; intros i len; [reflexivity|].
  destruct bytes as [|b2 bytes]; [reflexivity|].
  change (mr_data_trace i len (b :: b2 :: bytes))
    with (Store MasterBuffer i b :: WrTWCR (reply_word (i + 1 <? len))
            :: mr_data_trace (i + 1) len (b2 :: bytes)).
  change (conditions (Store MasterBuffer i b :: ?tr)) with (conditions tr).
  rewrite conditions_reply. apply IH.
Qed.

(** C1.  On the controller as constructed, a blocking [writeTo] called
    with [sendStop = 0] to a device that acknowledges everything, followed
    at once by a [readFrom]: the write ends with a stop condition, and the
    read sends a start condition of its own.  The conditions on the bus
    are start, stop, start, stop; no repeated start joins the two
    transactions. *)
Theorem write_without_stop_then_read size fill a data len ra rdata rs bytes :
  0 <= len < 256 -> len <= size ->
  1 <= Z.of_nat (length bytes) < 256 -> Z.of_nat (length bytes) <= size ->
  exists t1 t2 n d,
    write_to a data len 1 0 (Twi_new size fill) (mt_device false (Z.to_nat len))
      = Some (0, t1, []) /\
    read_from ra rdata (Z.of_nat (length bytes)) rs t1 (mr_device false bytes)
      = Some (n, d, t2, []) /\
    conditions (trace t1) = [StartCondition; StopCondition] /\
    conditions (trace t2)
      = [StartCondition; StopCondition; StartCondition; StopCondition].
Proof.
  intros Hlen Hcap Hn Hncap.
  destruct (writeTo_run a data len 1 0 (Twi_new size fill) [])
    as (t1 & Hw & W1 & W2 & W3 & W4 & W5 & W6 & W7);
    try first [assumption | reflexivity].
  change (continues (Twi_new size fill)) with false in *.
  change (sendStop (Twi_new size fill)) with 1 in *.
  change (bufferSize (Twi_new size fill)) with size in *.
  change (negb (truthy 1)) with false in W5.
  rewrite app_nil_r in Hw.
  destruct (readFrom_run ra rdata (Z.of_nat (length bytes)) rs t1 bytes [])
    as (t2 & Hr & R1 & R2 & R3 & R4 & R5 & R6 & R7 & R8);
    try first [assumption | lia].
  { rewrite u8_small; lia. }
  rewrite W5, app_nil_r in Hr.
  assert (conditions (trace t1) = [StartCondition; StopCondition]) as Hc1.
  { rewrite W7. change (trace (Twi_new size fill)) with (@nil Action).
    rewrite app_nil_l, !conditions_app, conditions_mt_data_trace.
    rewrite conditions_stores by reflexivity. reflexivity. }
  exists t1, t2. do 2 eexists.
  split; [exact Hw|]. split; [exact Hr|]. split; [exact Hc1|].
  rewrite R8, !conditions_app, Hc1, W5.
  rewrite conditions_reply, conditions_mr_data_trace.
  unfold end_word. rewrite W3. reflexivity.
Qed.

Lemma readFrom_begin_indep a l s s' t :
  readFrom_begin a l s t = readFrom_begin a l s' t.
Proof. unfold readFrom_begin. reflexivity. Qed.

Lemma writeTo_begin_indep a d l s s' t :
  writeTo_begin a d l s t = writeTo_begin a d l s' t.
Proof. unfold writeTo_begin. reflexivity. Qed.

Lemma readFrom_indep a d l s s' t p : read_from a d l s t p = read_from a d l s' t p.
Proof.
  unfold readFrom.
  destruct (bufferSize t <? l); [reflexivity|].
  destruct (wait_while _ p t) as [[t0 p0]|]; [|reflexivity].
  rewrite (readFrom_begin_indep a l s s'). reflexivity.
Qed.

Lemma writeTo_indep a d l w s s' t p : write_to a d l w s t p = write_to a d l w s' t p.
Proof.
  unfold writeTo.
  destruct (bufferSize t <? l); [reflexivity|].
  destruct (wait_while _ p t) as [[t0 p0]|]; [|reflexivity].
  rewrite (writeTo_begin_indep a d l s s'). reflexivity.
Qed.

(** C2.  The constructor sets the field [sendStop] to true, and neither
    [writeTo] nor [readFrom] assigns it: the field is the same after the
    prologue, and the whole result of either call is independent of its
    [sendStop] argument.  The handler ends a master transaction by the
    field alone: stop when it is nonzero, repeated start when it is zero. *)
Theorem sendStop_argument_is_not_stored :
  (forall size fill, sendStop (Twi_new size fill) = 1) /\
  (forall a d l s t, sendStop (writeTo_begin a d l s t) = sendStop t) /\
  (forall a l s t, sendStop (readFrom_begin a l s t) = sendStop t) /\
  (forall a d l w s s' t p, write_to a d l w s t p = write_to a d l w s' t p) /\
  (forall a d l s s' t p, read_from a d l s t p = read_from a d l s' t p) /\
  (forall t i, mt_ack i -> masterBufferLength t <= masterBufferIndex t ->
     deliver i t = stop_or_repeated_start (set_twsr (irq_status i) t)) /\
  (forall t b,
     deliver (irq_byte TW_MR_DATA_NACK b) t =
     stop_or_repeated_start (mr_store_byte (set_twdr b (set_twsr 0x58 t)))) /\
  (forall t,
     trace (stop_or_repeated_start t)
     = trace t ++ [WrTWCR (if truthy (sendStop t) then CR_STOP else CR_REP_START)]) /\
  conditions [WrTWCR CR_STOP] = [StopCondition] /\
  conditions [WrTWCR CR_REP_START] = [StartCondition].
Proof.
  split; [reflexivity|].
  split; [intros; apply writeTo_begin_sendStop|].
  split; [intros; apply readFrom_begin_sendStop|].
  split; [intros; apply writeTo_indep|]. split; [intros; apply readFrom_indep|].
  split.
  { intros t i Hi Hidx. rewrite (deliver_mt_ack _ _ Hi). cbv zeta.
    assert ((masterBufferIndex t <? masterBufferLength t) = false) as ->
      by (apply Z.ltb_ge; lia).
    reflexivity. }
  split; [reflexivity|].
  split; [apply trace_stop_or_repeated_start|].
  split; reflexivity.
Qed.

(** ** Slave receiver *)

Lemma sr_stop_step t k :
  decode_status (TW_STATUS t) = Some TW_SR_STOP ->
  rxBufferIndex t = k -> 0 <= k < bufferSize t ->
  Z.of_nat (length (rxBuffer t)) = bufferSize t ->
  exists pre,
    handler t = set_rxBufferIndex 0 (twi0_onSlaveReceive (rxBuffer pre) k pre) /\
    state pre = TWI_READY /\
    rxBufferIndex pre = k /\
    rxBuffer pre = <[Z.to_nat k := 0]> (rxBuffer t) /\
    rxBuffer pre !! Z.to_nat k = Some 0 /\
    trace pre = trace t
      ++ [WrTWCR CR_RELEASE; Store RxBuffer k 0; CallSlaveReceive (rxBuffer pre) k] /\
    conditions [WrTWCR CR_RELEASE] = [] /\
    rxBufferIndex (handler t) = 0.
Proof.
  intros Hst Hk Hlt Halloc.
  unfold onInterrupt. rewrite Hst. cbv zeta.
  change (rxBufferIndex (releaseBus t)) with (rxBufferIndex t).
  change (bufferSize (releaseBus t)) with (bufferSize t).
  assert ((rxBufferIndex t <? bufferSize t) = true) as -> by (apply Z.ltb_lt; lia).
  subst k.
  exists (emit (CallSlaveReceive
                  (rxBuffer (store_rx (rxBufferIndex t) 0 (releaseBus t)))
                  (rxBufferIndex t))
            (store_rx (rxBufferIndex t) 0 (releaseBus t))).
  split; [reflexivity|]. unfold releaseBus. twi_simpl.
  assert (poke (rxBuffer t) (rxBufferIndex t) 0
          = <[Z.to_nat (rxBufferIndex t) := 0]> (rxBuffer t)) as Hp.
  { unfold poke. assert ((0 <=? rxBufferIndex t) = true) as -> by (apply Z.leb_le; lia).
    reflexivity. }
  rewrite Hp.
  repeat split.
  - apply list_lookup_insert_eq. lia.
  - rewrite <- !app_assoc. reflexivity.
Qed.

(** Three bytes received by the slave of capacity 8, as constructed. *)
Lemma sr_three_bytes fill b1 b2 b3 :
  let t3 := deliver_all (irq TW_SR_SLA_ACK :: map (irq_byte TW_SR_DATA_ACK) [b1; b2; b3])
              (Twi_new 8 fill) in
  rxBufferIndex t3 = 3 /\ state t3 = TWI_SRX /\ bufferSize t3 = 8 /\
  rxBuffer t3 = [b1; b2; b3; fill; fill; fill; fill; fill] /\
  trace t3 = [WrTWCR CR_ACK; Store RxBuffer 0 b1; WrTWCR CR_ACK;
              Store RxBuffer 1 b2; WrTWCR CR_ACK; Store RxBuffer 2 b3;
              WrTWCR CR_ACK].
Proof. vm_compute. repeat apply conj; reflexivity. Qed.

(** The receive-buffer invariant through the controller's own steps. *)
Ltac rx_invariant_step :=
  unfold stop_or_repeated_start, mr_ack_if_more, mr_store_byte, st_send_next,
    stop, releaseBus;
  rewrite ?reply_1, ?reply_0; cbv zeta;
  repeat match goal with
         | |- context [if ?c then _ else _] => destruct c eqn:?
         end;
  unfold rx_invariant in *; twi_simpl;
  repeat match goal with H : _ /\ _ |- _ => destruct H end;
  (split;
   [ try lia
   | rewrite ?Forall_app; repeat apply conj; try assumption;
     repeat constructor; simpl; try lia ]).

Lemma rx_invariant_handler :
  (forall u, rx_invariant u -> rx_invariant (twi0_onSlaveTransmit u)) ->
  (forall buf n u, rx_invariant u -> rx_invariant (twi0_onSlaveReceive buf n u)) ->
  forall t, rx_invariant t -> rx_invariant (handler t).
Proof.
  intros Htx Hrx t Hinv. unfold onInterrupt.
  destruct (decode_status (TW_STATUS t)) as [st|]; [|exact Hinv].
  destruct st; try exact Hinv; try (rx_invariant_step; fail).
  - (* slave transmitter addressed *)
    cbv zeta.
    set (t1 := emit CallSlaveTransmit
                 (set_txBufferLength 0 (set_txBufferIndex 0 (set_state TWI_STX t)))).
    assert (rx_invariant t1) as H1 by (subst t1; rx_invariant_step).
    apply Htx in H1. revert H1. generalize (twi0_onSlaveTransmit t1). clear.
    intros t2 H2. rx_invariant_step.
  - cbv zeta.
    set (t1 := emit CallSlaveTransmit
                 (set_txBufferLength 0 (set_txBufferIndex 0 (set_state TWI_STX t)))).
    assert (rx_invariant t1) as H1 by (subst t1; rx_invariant_step).
    apply Htx in H1. revert H1. generalize (twi0_onSlaveTransmit t1). clear.
    intros t2 H2. rx_invariant_step.
  - (* slave receiver, data *)
    rx_invariant_step.
    pose proof (u8_range (rxBufferIndex t + 1)).
    pose proof (u8_le (rxBufferIndex t + 1)). lia.
  - rx_invariant_step.
    pose proof (u8_range (rxBufferIndex t + 1)).
    pose proof (u8_le (rxBufferIndex t + 1)). lia.
  - (* slave receiver, stop *)
    cbv zeta.
    match goal with |- rx_invariant (set_rxBufferIndex 0 (twi0_onSlaveReceive ?b ?n ?x)) =>
      assert (rx_invariant x) as H1;
      [|apply (Hrx b n) in H1; revert H1; generalize (twi0_onSlaveReceive b n x)]
    end.
    + rx_invariant_step.
    + clear. intros t2 H2. rx_invariant_step.
Qed.

Lemma rx_invariant_deliver :
  (forall u, rx_invariant u -> rx_invariant (twi0_onSlaveTransmit u)) ->
  (forall buf n u, rx_invariant u -> rx_invariant (twi0_onSlaveReceive buf n u)) ->
  forall i t, rx_invariant t -> rx_invariant (deliver i t).
Proof.
  intros Htx Hrx i t Hinv. unfold raise. cbv zeta.
  apply rx_invariant_handler; try assumption.
  destruct (irq_data i); exact Hinv.
Qed.

(** C8, as the code has it.  When the handler serves a slave-receiver data
    status with room left ([rxBufferIndex < bufferSize]) it stores the
    received byte at [rxBufferIndex], replies ACK, and the index becomes
    [(rxBufferIndex + 1) mod 256] (it is a [uint8_t]): [rxBufferIndex + 1]
    whenever [rxBufferIndex < 255], in particular whenever
    [bufferSize <= 255], and 0 after 255.  Without room it stores nothing,
    leaves the index, and replies NACK.  The index never exceeds
    [bufferSize] and no store into the receive buffer is out of bounds:
    this holds as constructed and is kept by every run of the handler, on
    any status, as long as the two collaborators keep it. *)
Theorem slave_receive_bounds :
  (forall t st,
     st = TW_SR_DATA_ACK \/ st = TW_SR_GCALL_DATA_ACK ->
     TW_STATUS t = status_code st ->
     0 <= rxBufferIndex t ->
     (rxBufferIndex t < bufferSize t ->
        rxBuffer (handler t) = <[Z.to_nat (rxBufferIndex t) := twdr t]> (rxBuffer t) /\
        rxBufferIndex (handler t) = u8 (rxBufferIndex t + 1) /\
        (rxBufferIndex t < 255 -> rxBufferIndex (handler t) = rxBufferIndex t + 1) /\
        (bufferSize t <= 255 -> rxBufferIndex (handler t) = rxBufferIndex t + 1) /\
        (rxBufferIndex t = 255 -> rxBufferIndex (handler t) = 0) /\
        trace (handler t)
          = trace t ++ [Store RxBuffer (rxBufferIndex t) (twdr t); WrTWCR CR_ACK]) /\
     (bufferSize t <= rxBufferIndex t ->
        handler t = write_twcr CR_NACK t /\
        rxBuffer (handler t) = rxBuffer t /\
        masterBuffer (handler t) = masterBuffer t /\
        txBuffer (handler t) = txBuffer t /\
        rxBufferIndex (handler t) = rxBufferIndex t /\
        trace (handler t) = trace t ++ [WrTWCR CR_NACK])) /\
  ((forall u, rx_invariant u -> rx_invariant (twi0_onSlaveTransmit u)) ->
   (forall buf n u, rx_invariant u -> rx_invariant (twi0_onSlaveReceive buf n u)) ->
   (forall t, rx_invariant t -> rx_invariant (handler t)) /\
   (forall irqs t, rx_invariant t -> rx_invariant (deliver_all irqs t))) /\
  (forall size fill, 0 <= size -> rx_invariant (Twi_new size fill)).
Proof.
  split; [|split].
  - intros t st Hcase Hst Hidx.
    assert (handler t =
            if rxBufferIndex t <? bufferSize t then
              write_twcr CR_ACK
                (store_rx (rxBufferIndex t) (twdr t)
                   (set_rxBufferIndex (u8 (rxBufferIndex t + 1)) t))
            else write_twcr CR_NACK t) as Hh.
    { unfold onInterrupt. rewrite Hst. destruct Hcase as [-> | ->]; reflexivity. }
    split.
    + intros Hlt. rewrite Hh.
      assert ((rxBufferIndex t <? bufferSize t) = true) as -> by (apply Z.ltb_lt; lia).
      twi_simpl. unfold poke.
      assert ((0 <=? rxBufferIndex t) = true) as -> by (apply Z.leb_le; lia).
      split; [reflexivity|]. split; [reflexivity|].
      split; [intros; apply u8_small; lia|].
      split; [intros; apply u8_small; lia|].
      split; [intros ->; reflexivity|].
      rewrite <- app_assoc. reflexivity.
    + intros Hge. rewrite Hh.
      assert ((rxBufferIndex t <? bufferSize t) = false) as -> by (apply Z.ltb_ge; lia).
      repeat apply conj; reflexivity.
  - intros Htx Hrx. split.
    + apply rx_invariant_handler; assumption.
    + intros irqs. induction irqs as [|i irqs IH]; intros t Hinv; [exact Hinv|].
      apply IH. apply rx_invariant_deliver; assumption.
  - intros size fill Hsize. unfold rx_invariant. simpl. split; [lia|constructor].
Qed.

End Properties.

(** ** Slave transmit buffering *)

Lemma twi_eta_tx t : set_trace (trace t) (set_txBuffer (txBuffer t) t) = t.
Proof. destruct t; reflexivity. Qed.

(** The copy loop of [transmit] in closed form. *)
Lemma transmit_loop data n i t :
  for_loop n i (fun i t => store_tx (txBufferLength t + i) (load data i) t) t =
  set_trace
    (trace t ++ map (fun j => Store TxBuffer (txBufferLength t + j) (load data j))
               (zrange i n))
    (set_txBuffer
       (pokes (txBuffer t) (txBufferLength t + i) (map (load data) (zrange i n))) t).
Proof.
  revert i t. induction n as [|n IH]; intros i t; simpl.
  - rewrite app_nil_r. symmetry. apply twi_eta_tx.
  - rewrite IH. twi_simpl. rewrite <- app_assoc.
    replace (txBufferLength t + (i + 1)) with (txBufferLength t + i + 1) by lia.
    destruct t. twi_norm. reflexivity.
Qed.

Lemma map_load_zrange (data : list Z) n :
  forall i : nat,
  (i + n <= length data)%nat ->
  map (load data) (zrange (Z.of_nat i) n) = take n (drop i data).
Proof.
  induction n as [|n IH]; intros i Hlen; simpl.
  - reflexivity.
  - destruct (lookup_lt_is_Some_2 data i) as [x Hx]; [lia|].
    rewrite (drop_S _ x _ Hx). simpl. rewrite (load_nat _ _ _ Hx).
    replace (Z.of_nat i + 1) with (Z.of_nat (S i)) by lia.
    rewrite IH by lia. reflexivity.
Qed.

(** C7, as the code has it.  [transmit] returns 1 and changes nothing when
    [txBufferLength + length] exceeds [bufferSize]; otherwise it returns 2
    and changes nothing unless the state is slave transmitter; otherwise it
    returns 0, the bytes of [data] are appended to the transmit buffer from
    offset [txBufferLength], and [txBufferLength] becomes
    [(txBufferLength + length) mod 256], which is [txBufferLength + length]
    whenever that sum is below 256, in particular whenever
    [bufferSize <= 255]. *)
Theorem transmit_appends data len t :
  0 <= len -> 0 <= txBufferLength t ->
  (bufferSize t < txBufferLength t + len -> transmit data len t = (1, t)) /\
  (txBufferLength t + len <= bufferSize t -> state t <> TWI_STX ->
   transmit data len t = (2, t)) /\
  (txBufferLength t + len <= bufferSize t -> state t = TWI_STX ->
   Z.of_nat (length (txBuffer t)) = bufferSize t ->
   len <= Z.of_nat (length data) ->
   let t' := snd (transmit data len t) in
   fst (transmit data len t) = 0 /\
   txBuffer t' = take (Z.to_nat (txBufferLength t)) (txBuffer t)
                   ++ take (Z.to_nat len) data
                   ++ drop (Z.to_nat (txBufferLength t + len)) (txBuffer t) /\
   txBufferLength t' = u8 (txBufferLength t + len) /\
   (txBufferLength t + len < 256 -> txBufferLength t' = txBufferLength t + len) /\
   (bufferSize t <= 255 -> txBufferLength t' = txBufferLength t + len) /\
   state t' = state t /\ bufferSize t' = bufferSize t /\
   txBufferIndex t' = txBufferIndex t /\
   stores TxBuffer (trace t')
     = stores TxBuffer (trace t)
         ++ zip (map (fun j => txBufferLength t + j) (zrange 0 (Z.to_nat len)))
              (take (Z.to_nat len) data)).
Proof.
  intros Hlen Htx. unfold transmit. split; [|split].
  - intros Hov.
    assert ((bufferSize t <? txBufferLength t + len) = true) as -> by (apply Z.ltb_lt; lia).
    reflexivity.
  - intros Hfit Hst.
    assert ((bufferSize t <? txBufferLength t + len) = false) as -> by (apply Z.ltb_ge; lia).
    assert ((TWI_STX =? state t) = false) as -> by (apply Z.eqb_neq; congruence).
    reflexivity.
  - intros Hfit Hst Halloc Hdata.
    assert ((bufferSize t <? txBufferLength t + len) = false) as -> by (apply Z.ltb_ge; lia).
    assert ((TWI_STX =? state t) = true) as -> by (apply Z.eqb_eq; congruence).
    cbv zeta. simpl negb. cbv iota. rewrite transmit_loop.
    simpl fst; simpl snd. twi_simpl.
    split; [reflexivity|].
    split.
    { change (zrange 0 (Z.to_nat len)) with (zrange (Z.of_nat 0) (Z.to_nat len)).
      rewrite map_load_zrange by (simpl; lia).
      change (drop 0 data) with data.
      replace (txBufferLength t + 0) with (Z.of_nat (Z.to_nat (txBufferLength t))) by lia.
      rewrite pokes_take_drop by (rewrite length_take; lia).
      rewrite length_take.
      replace (Z.to_nat (txBufferLength t) + Z.to_nat len `min` length data)%nat
        with (Z.to_nat (txBufferLength t + len)) by lia.
      reflexivity. }
    split; [reflexivity|].
    split; [intros; apply u8_small; lia|].
    split; [intros; apply u8_small; lia|].
    split; [reflexivity|]. split; [reflexivity|]. split; [reflexivity|].
    rewrite stores_app. f_equal.
    change (take (Z.to_nat len) data) with (take (Z.to_nat len) (drop 0 data)).
    rewrite <- (map_load_zrange data (Z.to_nat len) 0) by (simpl; lia).
    change (Z.of_nat 0) with 0.
    generalize (zrange 0 (Z.to_nat len)). intros l.
    induction l as [|j l IH]; [reflexivity|].
    simpl. unfold stores in *. simpl. rewrite IH. reflexivity.
Qed.

(** C10.  In [transmit] the capacity check comes first: when the bytes do
    not fit and the state is not slave transmitter either, the call returns
    1, not 2, and changes nothing. *)
Theorem transmit_overflow_before_state data len t :
  bufferSize t < txBufferLength t + len ->
  state t <> TWI_STX ->
  transmit data len t = (1, t) /\ fst (transmit data len t) <> 2.
Proof.
  intros Hov Hst. unfold transmit.
  assert ((bufferSize t <? txBufferLength t + len) = true) as -> by (apply Z.ltb_lt; lia).
  split; [reflexivity|]. simpl. lia.
Qed.

(** [transmit] on a controller of capacity 300 whose transmit buffer
    already holds 200 bytes (the result of a first [transmit] of 200
    bytes): 100 more bytes fit and are accepted with return code 0, and
    [txBufferLength] becomes 44, not 300. *)
Lemma transmit_length_wraps :
  let t := snd (transmit (replicate 200 7) 200 (set_state TWI_STX (Twi_new 300 0))) in
  txBufferLength t = 200 /\ state t = TWI_STX /\
  txBufferLength t + 100 <= bufferSize t /\
  fst (transmit (replicate 100 9) 100 t) = 0 /\
  txBufferLength (snd (transmit (replicate 100 9) 100 t)) = 44 /\
  txBufferLength (snd (transmit (replicate 100 9) 100 t)) <> txBufferLength t + 100.
Proof. vm_compute. repeat apply conj; try reflexivity; discriminate. Qed.

(** ** The theorems at concrete inputs *)

Lemma capacity_guard_witness :
  writeTo idle_onSlaveTransmit idle_onSlaveReceive 0x50 [1; 2; 3] 40 1 1 (Twi_new 32 0) []
    = Some (1, Twi_new 32 0, []) /\
  readFrom idle_onSlaveTransmit idle_onSlaveReceive 0x50 [1; 2; 3] 40 1 (Twi_new 32 0) []
    = Some (0, [1; 2; 3], Twi_new 32 0, []).
Proof.
  apply (proj1 (capacity_guard idle_onSlaveTransmit idle_onSlaveReceive
                  0x50 [1; 2; 3] 40 1 1 (Twi_new 32 0) [])).
  simpl. lia.
Defined.

Lemma write_without_stop_then_read_witness :
  exists t1 t2 n d,
    writeTo idle_onSlaveTransmit idle_onSlaveReceive 0x50 [0xAB] 1 1 0 (Twi_new 32 0)
      (mt_device false (Z.to_nat 1)) = Some (0, t1, []) /\
    readFrom idle_onSlaveTransmit idle_onSlaveReceive 0x50 [0; 0]
      (Z.of_nat (length [7; 9])) 1 t1 (mr_device false [7; 9]) = Some (n, d, t2, []) /\
    conditions (trace t1) = [StartCondition; StopCondition] /\
    conditions (trace t2)
      = [StartCondition; StopCondition; StartCondition; StopCondition].
Proof.
  apply (write_without_stop_then_read idle_onSlaveTransmit idle_onSlaveReceive
           32 0 0x50 [0xAB] 1 0x50 [0; 0] 1 [7; 9]); simpl; lia.
Defined.

Lemma master_read_ack_sequence_witness :
  exists t' data_phase,
    readFrom idle_onSlaveTransmit idle_onSlaveReceive 0x50 [0; 0; 0] 2 1 (Twi_new 32 0)
      (mr_device false [7; 9] ++ []) = Some (2, [7; 9; 0], t', []) /\
    acks data_phase = [true; false] /\
    stores MasterBuffer data_phase = [(0, 7); (1, 9)].
Proof.
  destruct (master_read_ack_sequence idle_onSlaveTransmit idle_onSlaveReceive
              0x50 [0; 0; 0] 2 1 (Twi_new 32 0) [7; 9] [])
    as (_ & t' & data_phase & Hrun & Hidx & _ & _ & Hacks & Hstores);
    try first [reflexivity | simpl; lia].
  exists t', data_phase. rewrite Hidx in Hrun. exact (conj Hrun (conj Hacks Hstores)).
Defined.

Lemma write_error_mapping_witness :
  exists t',
    writeTo idle_onSlaveTransmit idle_onSlaveReceive 0x50 [1; 2] 2 1 1 (Twi_new 32 0)
      ([irq TW_START] ++ irq TW_MT_SLA_NACK :: []) = Some (2, t', []).
Proof.
  destruct (write_error_mapping idle_onSlaveTransmit idle_onSlaveReceive
              0x50 [1; 2] 2 1 1 eq_refl) as (_ & _ & _ & _ & H).
  destruct (H (Twi_new 32 0) []) as (_ & H2 & _); try first [reflexivity | simpl; lia].
  exact H2.
Defined.

Lemma sendStop_argument_is_not_stored_witness :
  sendStop (writeTo_begin 0x50 [1] 1 0 (Twi_new 32 0)) = 1 /\
  raise idle_onSlaveTransmit idle_onSlaveReceive (irq TW_MT_DATA_ACK)
    (writeTo_begin 0x50 [] 0 0 (Twi_new 32 0))
  = stop_or_repeated_start
      (set_twsr (irq_status (irq TW_MT_DATA_ACK)) (writeTo_begin 0x50 [] 0 0 (Twi_new 32 0))).
Proof.
  destruct (sendStop_argument_is_not_stored idle_onSlaveTransmit idle_onSlaveReceive)
    as (_ & H1 & _ & _ & _ & H5 & _).
  split.
  - rewrite H1. reflexivity.
  - apply H5; [right; reflexivity|].
    vm_compute. discriminate.
Defined.

Lemma read_of_length_zero_witness :
  exists t',
    readFrom idle_onSlaveTransmit idle_onSlaveReceive 0x50 [1; 2] 0 1 (Twi_new 32 0)
      (mr_device (continues (Twi_new 32 0)) (replicate 256 0x5A) ++ [])
    = Some (0, [1; 2], t', []) /\
    masterBufferLength t' = 255.
Proof.
  destruct (read_of_length_zero idle_onSlaveTransmit idle_onSlaveReceive
              0x50 [1; 2] 1 (Twi_new 32 0) (replicate 256 0x5A) [])
    as (_ & _ & _ & t' & data_phase & Hrun & Hlen & _);
    try first [reflexivity | simpl; lia].
  exists t'. exact (conj Hrun Hlen).
Defined.

Lemma transmit_appends_witness :
  fst (transmit [1; 2; 3] 3 (set_state TWI_STX (Twi_new 8 0))) = 0 /\
  txBuffer (snd (transmit [1; 2; 3] 3 (set_state TWI_STX (Twi_new 8 0))))
    = [1; 2; 3; 0; 0; 0; 0; 0] /\
  txBufferLength (snd (transmit [1; 2; 3] 3 (set_state TWI_STX (Twi_new 8 0)))) = 3.
Proof.
  destruct (transmit_appends [1; 2; 3] 3 (set_state TWI_STX (Twi_new 8 0)))
    as (_ & _ & H); try (simpl; lia).
  destruct H as (H0 & Hbuf & _ & Hlen & _); try first [reflexivity | simpl; lia].
  split; [exact H0|]. split; [exact Hbuf|]. apply Hlen. simpl. lia.
Defined.

Lemma transmit_overflow_before_state_witness :
  transmit [1; 2; 3; 4; 5] 5 (Twi_new 4 0) = (1, Twi_new 4 0).
Proof.
  apply (transmit_overflow_before_state [1; 2; 3; 4; 5] 5 (Twi_new 4 0)).
  - simpl. lia.
  - discriminate.
Defined.

(** * Further properties of the code *)

(** ** Configuration entry points *)

(** X1.  [setAddress] stores the 7-bit address in bits 7..1 of TWAR and
    leaves bit 0 (general-call recognition) clear: the address reads back
    as [twar >> 1] when it is below 128, and an eighth address bit is
    dropped.  Nothing else of the controller changes. *)
Theorem setAddress_register address t :
  0 <= address < 256 ->
  Z.testbit (twar (setAddress address t)) 0 = false /\
  Z.shiftr (twar (setAddress address t)) 1 = address mod 128 /\
  (address < 128 -> Z.shiftr (twar (setAddress address t)) 1 = address) /\
  set_twar (twar t) (setAddress address t) = t.
Proof.
  intros Ha. unfold setAddress. cbn [twar set_twar].
  assert (u8 (Z.shiftl address 1) = 2 * (address mod 128)) as ->.
  { unfold u8. rewrite Z.shiftl_mul_pow2 by lia.
    change (2 ^ 1) with 2. rewrite (Z.mul_comm address 2).
    change 256 with (2 * 128). rewrite Zmult_mod_distr_l. reflexivity. }
  split; [apply Z.testbit_even_0|].
  assert (Z.shiftr (2 * (address mod 128)) 1 = address mod 128) as Hs.
  { rewrite Z.shiftr_div_pow2 by lia. change (2 ^ 1) with 2.
    rewrite Z.mul_comm. apply Z.div_mul. lia. }
  split; [exact Hs|]. split.
  - intros Hlt. rewrite Hs. apply Z.mod_small. lia.
  - destruct t. reflexivity.
Qed.

Lemma setAddress_register_witness :
  Z.shiftr (twar (setAddress 0x3C (Twi_new 32 0))) 1 = 0x3C.
Proof.
  apply (setAddress_register 0x3C (Twi_new 32 0)); lia.
Defined.

(** X2.  [setFrequency] with a request the bit-rate register can hold
    ([16 <= F_CPU / frequency <= 527]): TWBR becomes
    [(F_CPU / frequency - 16) / 2], the largest setting for which the bus
    clock [F_CPU / (16 + 2 * TWBR)] of the formula in the source is not
    below the requested frequency.  Only TWBR changes. *)
Theorem setFrequency_rate F_CPU frequency t :
  0 < frequency -> 0 <= F_CPU < 2 ^ 32 ->
  16 <= F_CPU / frequency <= 527 ->
  exists t',
    setFrequency F_CPU frequency t = Some t' /\
    t' = set_twbr ((F_CPU / frequency - 16) / 2) t /\
    0 <= twbr t' <= 255 /\
    frequency * (16 + 2 * twbr t') <= F_CPU /\
    F_CPU < frequency * (16 + 2 * (twbr t' + 1)).
Proof.
  intros Hf HF Hq. unfold setFrequency.
  assert ((frequency =? 0) = false) as -> by (apply Z.eqb_neq; lia).
  set (q := F_CPU / frequency) in *.
  assert (u32 (q - 16) = q - 16) as -> by (unfold u32; apply Z.mod_small; lia).
  assert (0 <= (q - 16) / 2 <= 255) as Hb.
  { split; [apply Z.div_pos; lia|].
    assert ((q - 16) / 2 < 256) by (apply Z.div_lt_upper_bound; lia). lia. }
  rewrite u8_small by lia.
  eexists. split; [reflexivity|]. split; [reflexivity|]. cbn [twbr set_twbr].
  split; [exact Hb|].
  pose proof (Z.mul_div_le F_CPU frequency ltac:(lia)) as H1.
  pose proof (Z.mul_succ_div_gt F_CPU frequency ltac:(lia)) as H2.
  fold q in H1, H2.
  pose proof (Z.mul_div_le (q - 16) 2 ltac:(lia)) as H3.
  pose proof (Z.mul_succ_div_gt (q - 16) 2 ltac:(lia)) as H4.
  set (b := (q - 16) / 2) in *.
  split; nia.
Qed.

Lemma setFrequency_rate_witness :
  exists t',
    setFrequency 16000000 400000 (Twi_new 32 0) = Some t' /\ twbr t' = 12.
Proof.
  destruct (setFrequency_rate 16000000 400000 (Twi_new 32 0))
    as (t' & H1 & H2 & _); try (vm_compute; intuition congruence).
  exists t'. split; [exact H1|]. rewrite H2. reflexivity.
Defined.

(** X3.  [setFrequency] with a request above [F_CPU / 16]: the unsigned
    subtraction [F_CPU / frequency - 16] wraps, and TWBR ends at
    [248 + (F_CPU / frequency) / 2], between 248 and 255 -- the slowest
    bus clocks rather than the fastest. *)
Theorem setFrequency_too_fast F_CPU frequency t :
  0 < frequency -> 0 <= F_CPU < 2 ^ 32 ->
  F_CPU / frequency < 16 ->
  exists t',
    setFrequency F_CPU frequency t = Some t' /\
    twbr t' = 248 + (F_CPU / frequency) / 2 /\
    248 <= twbr t' <= 255.
Proof.
  intros Hf HF Hq. unfold setFrequency.
  assert ((frequency =? 0) = false) as -> by (apply Z.eqb_neq; lia).
  assert (0 <= F_CPU / frequency) as Hq0 by (apply Z.div_pos; lia).
  generalize dependent (F_CPU / frequency). intros q Hq Hq0.
  eexists. split; [reflexivity|]. cbn [twbr set_twbr].
  destruct q as [|p|p]; [vm_compute; intuition congruence| |lia].
  do 4 (try destruct p as [p|p|]); try lia; vm_compute; intuition congruence.
Qed.

Lemma setFrequency_too_fast_witness :
  exists t',
    setFrequency 16000000 2000000 (Twi_new 32 0) = Some t' /\ twbr t' = 252.
Proof.
  destruct (setFrequency_too_fast 16000000 2000000 (Twi_new 32 0))
    as (t' & H1 & H2 & _); try (vm_compute; intuition congruence).
  exists t'. split; [exact H1|]. rewrite H2. reflexivity.
Defined.

Ltac cfg_simpl :=
  cbn [bufferSize state slarw sendStop inRepStart masterBuffer masterBufferIndex
       masterBufferLength txBuffer txBufferIndex txBufferLength rxBuffer
       rxBufferIndex error twar twbr twcr twdr twsr trace
       set_state set_twar set_twbr set_twcr set_twdr set_twsr set_trace
       emit write_twcr write_twdr fst snd] in *.

(** X4.  [begin], for a CPU clock of at least [16 * TWI_FREQ]: both pins
    are driven high; the prescaler bits of TWSR are cleared and its status
    bits kept; TWCR holds exactly enable, interrupt enable and acknowledge
    enable; and the bit rate is the one [setFrequency(TWI_FREQ)] computes,
    so that calling it afterwards changes nothing.  The controller's state
    is left as it was. *)
Theorem begin_configures F_CPU t :
  16 * TWI_FREQ <= F_CPU < 2 ^ 31 ->
  snd (begin F_CPU t) = [(SDA, 1); (SCL, 1)] /\
  twcr (fst (begin F_CPU t)) = 0x45 /\
  trace (fst (begin F_CPU t)) = trace t ++ [WrTWCR 0x45] /\
  Z.testbit (twsr (fst (begin F_CPU t))) TWPS0 = false /\
  Z.testbit (twsr (fst (begin F_CPU t))) TWPS1 = false /\
  TW_STATUS (fst (begin F_CPU t)) = TW_STATUS t /\
  state (fst (begin F_CPU t)) = state t /\
  setFrequency F_CPU TWI_FREQ (fst (begin F_CPU t)) = Some (fst (begin F_CPU t)).
Proof.
  intros HF. unfold TWI_FREQ in HF.
  unfold begin. cbv zeta. cfg_simpl.
  split; [reflexivity|]. split; [reflexivity|]. split; [reflexivity|].
  split.
  { unfold cbi. rewrite !Z.land_spec.
    change (Z.testbit (Z.lnot (_BV TWPS0)) TWPS0) with false.
    rewrite andb_false_r. reflexivity. }
  split.
  { unfold cbi. rewrite !Z.land_spec.
    change (Z.testbit (Z.lnot (_BV TWPS1)) TWPS1) with false.
    apply andb_false_r. }
  split.
  { unfold TW_STATUS, cbi. cfg_simpl. rewrite <- !Z.land_assoc. reflexivity. }
  split; [reflexivity|].
  unfold setFrequency. change (TWI_FREQ =? 0) with false. cbv iota.
  assert (16 <= F_CPU / TWI_FREQ) as Hq
    by (apply Z.div_le_lower_bound; unfold TWI_FREQ; lia).
  rewrite (Z.quot_div_nonneg F_CPU TWI_FREQ) by (unfold TWI_FREQ; lia).
  rewrite (Z.quot_div_nonneg (F_CPU / TWI_FREQ - 16) 2) by lia.
  assert (F_CPU / TWI_FREQ < 2 ^ 31) as Hq'
    by (apply Z.div_lt_upper_bound; unfold TWI_FREQ; lia).
  assert (u32 (F_CPU / TWI_FREQ - 16) = F_CPU / TWI_FREQ - 16) as ->
    by (unfold u32; apply Z.mod_small; lia).
  f_equal.
Qed.

Lemma begin_configures_witness :
  twcr (fst (begin 16000000 (Twi_new 32 0))) = 0x45 /\
  setFrequency 16000000 TWI_FREQ (fst (begin 16000000 (Twi_new 32 0)))
    = Some (fst (begin 16000000 (Twi_new 32 0))).
Proof.
  destruct (begin_configures 16000000 (Twi_new 32 0))
    as (_ & H1 & _ & _ & _ & _ & _ & H2); [vm_compute; intuition congruence|].
  exact (conj H1 H2).
Defined.

(** X5.  [disable] drives both pins low and writes TWCR back with exactly
    the enable, interrupt-enable and acknowledge-enable bits cleared and
    every other bit as it was; after [begin] the register is 0.  It does
    not touch [state]: a transaction that was in progress stays
    "in progress" for the entry points. *)
Theorem disable_clears_enable_bits t :
  snd (disable t) = [(SDA, 0); (SCL, 0)] /\
  (forall n, 0 <= n ->
     Z.testbit (twcr (fst (disable t))) n
     = Z.testbit (twcr t) n && negb (Z.testbit 0x45 n)) /\
  Z.testbit (twcr (fst (disable t))) TWEN = false /\
  Z.testbit (twcr (fst (disable t))) TWIE = false /\
  Z.testbit (twcr (fst (disable t))) TWEA = false /\
  trace (fst (disable t)) = trace t ++ [WrTWCR (twcr (fst (disable t)))] /\
  state (fst (disable t)) = state t /\
  (forall F_CPU, twcr (fst (disable (fst (begin F_CPU t)))) = 0).
Proof.
  unfold disable, begin. cbv zeta. cfg_simpl.
  change (Z.lor (Z.lor (_BV TWEN) (_BV TWIE)) (_BV TWEA)) with 0x45.
  split; [reflexivity|].
  assert (forall n, 0 <= n ->
            Z.testbit (Z.land (twcr t) (Z.lnot 0x45)) n
            = Z.testbit (twcr t) n && negb (Z.testbit 0x45 n)) as Hbits.
  { intros n Hn. rewrite Z.land_spec, Z.lnot_spec by lia. reflexivity. }
  split; [exact Hbits|].
  split; [rewrite Hbits by (unfold TWEN; lia); apply andb_false_r|].
  split; [rewrite Hbits by (unfold TWIE; lia); apply andb_false_r|].
  split; [rewrite Hbits by (unfold TWEA; lia); apply andb_false_r|].
  split; [reflexivity|]. split; [reflexivity|].
  intros F_CPU. reflexivity.
Qed.

Lemma disable_clears_enable_bits_witness :
  Z.testbit (twcr (fst (disable (fst (begin 16000000 (Twi_new 32 0)))))) TWEN = false.
Proof.
  apply (disable_clears_enable_bits (fst (begin 16000000 (Twi_new 32 0)))).
Defined.

(** ** Master transactions *)

Lemma data_writes_app tr1 tr2 : data_writes (tr1 ++ tr2) = data_writes tr1 ++ data_writes tr2.
Proof. unfold data_writes. apply omap_app. Qed.

Lemma data_writes_stores (f : Z -> Action) l :
  (forall j, data_write (f j) = None) -> data_writes (map f l) = [].
Proof.
  intros Hf. induction l as [|j l IH]; [reflexivity|].
  simpl. unfold data_writes in *. simpl. rewrite Hf. exact IH.
Qed.

Lemma data_writes_mt_data_trace l : data_writes (mt_data_trace l) = l.
Proof.
  induction l as [|b l IH]; [reflexivity|].
  change (data_writes (mt_data_trace (b :: l))) with (b :: data_writes (mt_data_trace l)).
  rewrite IH. reflexivity.
Qed.

Lemma data_writes_address_trace c sla : data_writes (address_trace c sla) = [sla].
Proof. destruct c; reflexivity. Qed.

(** The address byte: [slarw = direction | address << 1], kept in eight bits. *)
Lemma address_byte direction a :
  0 <= a < 256 -> direction = 0 \/ direction = 1 ->
  u8 (Z.lor direction (Z.shiftl a 1)) = 2 * (a mod 128) + direction.
Proof.
  intros Ha Hd.
  assert (Z.lor direction (Z.shiftl a 1) = 2 * a + direction) as ->.
  { destruct Hd as [-> | ->]; destruct a as [|p|p]; try lia; reflexivity. }
  unfold u8.
  pose proof (Z.div_mod a 128 ltac:(lia)) as Hdm.
  pose proof (Z.mod_pos_bound a 128 ltac:(lia)) as Hb.
  replace (2 * a + direction)
    with (2 * (a mod 128) + direction + (a / 128) * 256) by lia.
  rewrite Z_mod_plus_full. apply Z.mod_small. lia.
Qed.

Section MoreProperties.

Variable twi0_onSlaveTransmit : Twi -> Twi.
Variable twi0_onSlaveReceive : list Z -> Z -> Twi -> Twi.

Local Abbreviation handler := (onInterrupt twi0_onSlaveTransmit twi0_onSlaveReceive).
Local Abbreviation deliver := (raise twi0_onSlaveTransmit twi0_onSlaveReceive).
Local Abbreviation deliver_all := (raise_all twi0_onSlaveTransmit twi0_onSlaveReceive).
Local Abbreviation wait_while := (spin twi0_onSlaveTransmit twi0_onSlaveReceive).
Local Abbreviation read_from := (readFrom twi0_onSlaveTransmit twi0_onSlaveReceive).
Local Abbreviation write_to := (writeTo twi0_onSlaveTransmit twi0_onSlaveReceive).

(** X6.  A blocking [writeTo] of [len <= bufferSize] bytes to a device that
    acknowledges everything returns 0, and what the controller has put on
    the bus is the address byte followed by exactly the first [len] bytes
    of [data], in order; the master buffer holds them too. *)
Theorem write_delivers_data a data len wait s t rest :
  truthy wait = true ->
  0 <= len < 256 -> len <= bufferSize t ->
  state t = TWI_READY ->
  Z.of_nat (length (masterBuffer t)) = bufferSize t ->
  len <= Z.of_nat (length data) ->
  exists t',
    write_to a data len wait s t (mt_device (continues t) (Z.to_nat len) ++ rest)
      = Some (0, t', rest) /\
    state t' = TWI_READY /\
    data_writes (trace t')
      = data_writes (trace t)
          ++ u8 (Z.lor TW_WRITE (Z.shiftl a 1)) :: take (Z.to_nat len) data /\
    take (Z.to_nat len) (masterBuffer t') = take (Z.to_nat len) data.
Proof.
  intros Hwait Hlen Hcap Hready Halloc Hdata.
  destruct (writeTo_run twi0_onSlaveTransmit twi0_onSlaveReceive a data len wait s t rest)
    as (t' & Hrun & W1 & W2 & W3 & W4 & W5 & W6 & W7); try assumption.
  assert (masterBuffer t' = take (Z.to_nat len) data ++ drop (Z.to_nat len) (masterBuffer t))
    as Hbuf.
  { rewrite W6.
    change (zrange 0 (Z.to_nat len)) with (zrange (Z.of_nat 0) (Z.to_nat len)).
    rewrite map_load_zrange by (simpl; lia).
    change (drop 0 data) with data. change (Z.of_nat 0) with 0.
    change 0 with (Z.of_nat 0).
    rewrite pokes_take_drop by (rewrite length_take; simpl; lia).
    rewrite length_take.
    replace (0 + Z.to_nat len `min` length data)%nat with (Z.to_nat len) by lia.
    reflexivity. }
  assert (take (Z.to_nat len) (masterBuffer t') = take (Z.to_nat len) data) as Htake.
  { rewrite Hbuf. rewrite take_app_le by (rewrite length_take; lia).
    rewrite take_take. f_equal. lia. }
  exists t'. split; [exact Hrun|]. split; [exact W1|]. split; [|exact Htake].
  rewrite W7, !data_writes_app, data_writes_address_trace, data_writes_mt_data_trace.
  rewrite data_writes_stores by reflexivity.
  change (zrange 0 (Z.to_nat len)) with (zrange (Z.of_nat 0) (Z.to_nat len)).
  rewrite map_load_zrange by (simpl; rewrite Hbuf, length_app, length_take, length_drop; lia).
  change (drop 0 (masterBuffer t')) with (masterBuffer t').
  rewrite Htake. simpl. rewrite app_nil_r. reflexivity.
Qed.


Lemma deliver_MR_SLA_NACK t :
  deliver (irq TW_MR_SLA_NACK) t = stop (set_twsr 0x48 t).
Proof. reflexivity. Qed.

Lemma deliver_BUS_ERROR t :
  deliver (irq TW_BUS_ERROR) t = stop (set_error 0x00 (set_twsr 0x00 t)).
Proof. reflexivity. Qed.

Lemma slarw_readFrom_begin a len s t :
  slarw (readFrom_begin a len s t) = u8 (Z.lor TW_READ (Z.shiftl a 1)).
Proof.
  destruct (continues t) eqn:Hc;
    [rewrite readFrom_begin_continued by assumption
    |rewrite readFrom_begin_fresh by assumption]; reflexivity.
Qed.

Lemma slarw_writeTo_begin a d len s t :
  slarw (writeTo_begin a d len s t) = u8 (Z.lor TW_WRITE (Z.shiftl a 1)).
Proof.
  destruct (continues t) eqn:Hc;
    [rewrite writeTo_begin_continued by assumption
    |rewrite writeTo_begin_fresh by assumption]; reflexivity.
Qed.

(** X7.  The address byte both entry points build: bit 0 is the direction
    (1 for [readFrom], 0 for [writeTo]) and bits 7..1 are the low seven
    bits of the address, so that a 7-bit address and the direction are
    recovered by halving and by the remainder. *)
Theorem address_byte_encoding a data len s t :
  0 <= a < 256 ->
  slarw (readFrom_begin a len s t) = 2 * (a mod 128) + 1 /\
  slarw (writeTo_begin a data len s t) = 2 * (a mod 128) /\
  (a < 128 ->
   slarw (readFrom_begin a len s t) / 2 = a /\
   slarw (readFrom_begin a len s t) mod 2 = TW_READ /\
   slarw (writeTo_begin a data len s t) / 2 = a /\
   slarw (writeTo_begin a data len s t) mod 2 = TW_WRITE).
Proof.
  intros Ha. rewrite slarw_readFrom_begin, slarw_writeTo_begin.
  rewrite (address_byte TW_READ a Ha) by (right; reflexivity).
  rewrite (address_byte TW_WRITE a Ha) by (left; reflexivity).
  unfold TW_READ, TW_WRITE.
  split; [reflexivity|]. split; [lia|].
  intros Hlt. rewrite (Z.mod_small a 128) by lia.
  repeat apply conj; Z.div_mod_to_equations; lia.
Qed.

(** X8.  [readFrom] from a device that does not acknowledge its address:
    the handler issues a stop, the call returns 0 and leaves the caller's
    array as it was; nothing is stored, and the error latch stays at "no
    error". *)
Theorem read_address_nack a data len s t rest :
  0 <= len -> len <= bufferSize t ->
  state t = TWI_READY ->
  exists t',
    read_from a data len s t (start_irq (continues t) ++ irq TW_MR_SLA_NACK :: rest)
      = Some (0, data, t', rest) /\
    state t' = TWI_READY /\ error t' = 0xFF /\
    last (trace t') = Some (WrTWCR CR_STOP) /\
    stores MasterBuffer (trace t') = stores MasterBuffer (trace t).
Proof.
  intros Hlen Hcap Hready. unfold readFrom.
  assert ((bufferSize t <? len) = false) as -> by (apply Z.ltb_ge; lia).
  rewrite spin_idle by (rewrite Hready; reflexivity).
  assert (forall u, masterBufferIndex u = 0 -> readFrom_end data len u = (0, data)) as Hend.
  { intros u Hu. unfold readFrom_end. rewrite Hu.
    destruct (0 <? len) eqn:E; [reflexivity|].
    apply Z.ltb_ge in E. assert (len = 0) as -> by lia. reflexivity. }
  unfold start_irq. destruct (continues t) eqn:Hc.
  - rewrite readFrom_begin_continued by assumption. simpl app.
    rewrite spin_step by reflexivity. rewrite deliver_MR_SLA_NACK.
    rewrite spin_idle by reflexivity. rewrite Hend by reflexivity.
    eexists. split; [reflexivity|]. unfold stop. twi_simpl.
    split; [reflexivity|]. split; [reflexivity|].
    split; [apply last_snoc|]. rewrite !stores_app. simpl. rewrite !app_nil_r.
    reflexivity.
  - rewrite readFrom_begin_fresh by assumption. simpl app.
    rewrite spin_step by reflexivity. rewrite deliver_START.
    rewrite spin_step by reflexivity. rewrite deliver_MR_SLA_NACK.
    rewrite spin_idle by reflexivity. rewrite Hend by reflexivity.
    eexists. split; [reflexivity|]. unfold stop. twi_simpl.
    split; [reflexivity|]. split; [reflexivity|].
    split; [apply last_snoc|]. rewrite !stores_app. simpl. rewrite !app_nil_r.
    reflexivity.
Qed.




(** Master transmitter: acknowledgements that leave bytes to send. *)
Lemma mt_progress wait evs :
  truthy wait = true ->
  forall t rest,
  Forall mt_ack evs ->
  state t = TWI_MTX ->
  0 <= masterBufferIndex t ->
  masterBufferIndex t + Z.of_nat (length evs) <= masterBufferLength t ->
  masterBufferLength t < 256 ->
  exists t',
    wait_while (fun t => truthy wait && (TWI_MTX =? state t)) (evs ++ rest) t
      = wait_while (fun t => truthy wait && (TWI_MTX =? state t)) rest t' /\
    state t' = TWI_MTX /\ error t' = error t /\ sendStop t' = sendStop t /\
    bufferSize t' = bufferSize t /\ masterBuffer t' = masterBuffer t /\
    masterBufferLength t' = masterBufferLength t /\
    masterBufferIndex t' = masterBufferIndex t + Z.of_nat (length evs) /\
    trace t' = trace t
      ++ mt_data_trace (map (load (masterBuffer t))
                          (zrange (masterBufferIndex t) (length evs))).
Proof.
  intros Hwait. induction evs as [|e evs IH]; intros t rest Hacks Hst Hidx Hn Hlen.
  - exists t. simpl. rewrite app_nil_r, Z.add_0_r.
    repeat apply conj; first [reflexivity | assumption].
  - inversion Hacks as [|? ? He Hacks']; subst.
    simpl app. rewrite spin_step by (rewrite Hwait, Hst; reflexivity).
    rewrite (deliver_mt_ack _ _ _ _ He). cbv zeta.
    simpl length in Hn.
    assert ((masterBufferIndex t <? masterBufferLength t) = true) as ->
      by (apply Z.ltb_lt; lia).
    rewrite (u8_small (masterBufferIndex t + 1)) by lia.
    edestruct (IH (write_twcr CR_ACK
                     (write_twdr (load (masterBuffer t) (masterBufferIndex t))
                        (set_masterBufferIndex (masterBufferIndex t + 1)
                           (set_twsr (irq_status e) t)))) rest)
      as (t' & Hrun & H1 & H2 & H3 & H4 & H5 & H6 & H7 & H8);
      twi_simpl; try assumption; try lia.
    exists t'. split; [exact Hrun|]. repeat (split; [assumption|]).
    split; [simpl length; lia|].
    rewrite H8. simpl. rewrite <- !app_assoc. reflexivity.
Qed.

(** What the handler does on the four statuses that fail a master write. *)
Lemma deliver_write_failure e rc t :
  write_failure e = Some rc ->
  state (deliver (irq e) t) = TWI_READY /\
  error (deliver (irq e) t) = status_code e /\
  return_code (status_code e) = rc /\
  data_writes (trace (deliver (irq e) t)) = data_writes (trace t) /\
  last (trace (deliver (irq e) t))
    = Some (WrTWCR (match e with TW_MT_ARB_LOST => CR_RELEASE | _ => CR_STOP end)).
Proof.
  intros He. destruct e; try discriminate; inversion He; subst;
    [rewrite deliver_MT_SLA_NACK | rewrite deliver_MT_DATA_NACK
    |rewrite deliver_MT_ARB_LOST | rewrite deliver_BUS_ERROR];
    unfold stop, releaseBus; twi_simpl;
    rewrite data_writes_app, app_nil_r, last_snoc; repeat apply conj; reflexivity.
Qed.

Lemma mt_acks_facts len m :
  (m <= Z.to_nat len)%nat ->
  Forall mt_ack (mt_acks len m) /\ length (mt_acks len m) = m.
Proof.
  intros Hm. unfold mt_acks. split.
  - apply Forall_take. constructor; [left; reflexivity|].
    apply Forall_forall. intros x Hx. apply elem_of_replicate in Hx as [-> _].
    right; reflexivity.
  - rewrite length_take. simpl length. rewrite length_replicate. lia.
Qed.

(** The master buffer after the prologue of [writeTo], read back. *)
Lemma master_buffer_prefix (mb data : list Z) (len m : nat) :
  (len <= length mb)%nat -> (len <= length data)%nat -> (m <= len)%nat ->
  map (load (pokes mb 0 (map (load data) (zrange 0 len)))) (zrange 0 m) = take m data.
Proof.
  intros Hmb Hdata Hm.
  change (zrange 0 len) with (zrange (Z.of_nat 0) len).
  rewrite map_load_zrange by (simpl; lia).
  change (drop 0 data) with data.
  change (pokes mb 0) with (pokes mb (Z.of_nat 0)).
  rewrite pokes_take_drop by (rewrite length_take; simpl; lia).
  change (zrange 0 m) with (zrange (Z.of_nat 0) m).
  rewrite map_load_zrange
    by (simpl; rewrite length_app, length_take; lia).
  change (take 0 mb) with (@nil Z).
  change (drop 0 ?l) with l. simpl app.
  rewrite take_app_le by (rewrite length_take; lia).
  rewrite take_take. f_equal. lia.
Qed.

(** X11.  A blocking [writeTo] that fails after [m] acknowledgements (the
    address and [m - 1] bytes; [m = 0] when the address itself fails): it
    returns 2 when the status is address-NACK, 3 when it is data-NACK, 4
    when arbitration is lost or a bus error is reported; the latch holds
    the status; the controller is ready again; and what went on the bus
    is the address byte and the first [m] bytes of [data], no more. *)
Theorem write_failure_code a data len wait s t m e rc rest :
  truthy wait = true ->
  0 <= len < 256 -> len <= bufferSize t ->
  state t = TWI_READY ->
  Z.of_nat (length (masterBuffer t)) = bufferSize t ->
  len <= Z.of_nat (length data) ->
  (m <= Z.to_nat len)%nat ->
  write_failure e = Some rc ->
  exists t',
    write_to a data len wait s t
      (start_irq (continues t) ++ mt_acks len m ++ irq e :: rest)
      = Some (rc, t', rest) /\
    state t' = TWI_READY /\
    error t' = status_code e /\
    data_writes (trace t')
      = data_writes (trace t) ++ u8 (Z.lor TW_WRITE (Z.shiftl a 1)) :: take m data /\
    last (trace t')
      = Some (WrTWCR (match e with TW_MT_ARB_LOST => CR_RELEASE | _ => CR_STOP end)).
Proof.
  intros Hwait Hlen Hcap Hready Halloc Hdata Hm He.
  destruct (mt_acks_facts len m Hm) as [Hacks Hcount].
  unfold writeTo.
  assert ((bufferSize t <? len) = false) as -> by (apply Z.ltb_ge; lia).
  rewrite spin_idle by (rewrite Hready; reflexivity).
  assert (forall t0 : Twi,
            state t0 = TWI_MTX -> masterBufferIndex t0 = 0 ->
            masterBufferLength t0 = len ->
            masterBuffer t0
              = pokes (masterBuffer t) 0 (map (load data) (zrange 0 (Z.to_nat len))) ->
            exists t',
              wait_while (fun t => truthy wait && (TWI_MTX =? state t))
                (mt_acks len m ++ irq e :: rest) t0 = Some (t', rest) /\
              writeTo_end t' = rc /\ state t' = TWI_READY /\
              error t' = status_code e /\
              data_writes (trace t') = data_writes (trace t0) ++ take m data /\
              last (trace t')
                = Some (WrTWCR (match e with TW_MT_ARB_LOST => CR_RELEASE
                                        | _ => CR_STOP end))) as Hgo.
  { intros t0 S1 S2 S3 S4.
    destruct (mt_progress wait (mt_acks len m) Hwait t0 (irq e :: rest))
      as (t1 & Hrun & P1 & P2 & P3 & P4 & P5 & P6 & P7 & P8);
      try first [assumption | lia].
    destruct (deliver_write_failure e rc t1 He) as (D1 & D2 & D3 & D4 & D5).
    exists (deliver (irq e) t1). rewrite Hrun.
    rewrite spin_step by (rewrite Hwait, P1; reflexivity).
    rewrite spin_idle by (rewrite D1; apply andb_false_r).
    split; [reflexivity|].
    rewrite writeTo_end_return_code, D2.
    split; [exact D3|]. split; [exact D1|]. split; [reflexivity|].
    split; [|exact D5].
    rewrite D4, P8, data_writes_app, data_writes_mt_data_trace.
    rewrite S2, S4, Hcount.
    rewrite master_buffer_prefix by lia. reflexivity. }
  unfold start_irq. destruct (continues t) eqn:Hc.
  - rewrite writeTo_begin_continued by assumption. simpl app.
    match goal with |- context [spin _ _ _ _ ?X] =>
      destruct (Hgo X) as (t' & Hrun & G1 & G2 & G3 & G4 & G5)
    end; try reflexivity.
    exists t'. rewrite Hrun. rewrite G1.
    split; [reflexivity|]. split; [assumption|]. split; [assumption|].
    split; [|assumption].
    rewrite G4. twi_simpl. rewrite !data_writes_app.
    rewrite data_writes_stores by reflexivity.
    simpl. rewrite ?app_nil_r, <- ?app_assoc. reflexivity.
  - rewrite writeTo_begin_fresh by assumption. simpl app.
    rewrite spin_step by (twi_simpl; rewrite Hwait; reflexivity).
    rewrite deliver_START.
    match goal with |- context [spin _ _ _ _ ?X] =>
      destruct (Hgo X) as (t' & Hrun & G1 & G2 & G3 & G4 & G5)
    end; try reflexivity.
    exists t'. rewrite Hrun. rewrite G1.
    split; [reflexivity|]. split; [assumption|]. split; [assumption|].
    split; [|assumption].
    rewrite G4. twi_simpl. rewrite !data_writes_app.
    rewrite data_writes_stores by reflexivity.
    simpl. rewrite ?app_nil_r, <- ?app_assoc. reflexivity.
Qed.

(** Master receiver: acknowledged bytes that do not end the transaction. *)
Lemma mr_progress bytes :
  forall t rest,
  state t = TWI_MRX ->
  0 <= masterBufferIndex t ->
  masterBufferIndex t + Z.of_nat (length bytes) < 256 ->
  exists t',
    wait_while (fun t => TWI_MRX =? state t)
      (map (irq_byte TW_MR_DATA_ACK) bytes ++ rest) t
      = wait_while (fun t => TWI_MRX =? state t) rest t' /\
    state t' = TWI_MRX /\ error t' = error t /\ sendStop t' = sendStop t /\
    bufferSize t' = bufferSize t /\
    masterBufferLength t' = masterBufferLength t /\
    masterBufferIndex t' = masterBufferIndex t + Z.of_nat (length bytes) /\
    masterBuffer t' = pokes (masterBuffer t) (masterBufferIndex t) bytes.
Proof.
  induction bytes as [|b bytes IH]; intros t rest Hst Hidx Hn.
  - exists t. simpl. rewrite Z.add_0_r.
    repeat apply conj; first [reflexivity | assumption].
  - simpl map. simpl app. rewrite spin_step by (rewrite Hst; reflexivity).
    rewrite deliver_MR_DATA_ACK. simpl length in Hn.
    rewrite (u8_small (masterBufferIndex t + 1)) by lia.
    edestruct (IH (write_twcr
                     (reply_word (masterBufferIndex t + 1 <? masterBufferLength t))
                     (store_master (masterBufferIndex t) b
                        (set_masterBufferIndex (masterBufferIndex t + 1)
                           (set_twdr b (set_twsr 0x50 t))))) rest)
      as (t' & Hrun & H1 & H2 & H3 & H4 & H5 & H6 & H7);
      twi_simpl; try assumption; try lia.
    exists t'. split; [exact Hrun|]. repeat (split; [assumption|]).
    split; [simpl length; lia|]. exact H7.
Qed.

(** What the handler does on the two statuses that abort a transaction. *)
Lemma deliver_abort e t :
  aborts e ->
  state (deliver (irq e) t) = TWI_READY /\
  error (deliver (irq e) t) = status_code e /\
  masterBuffer (deliver (irq e) t) = masterBuffer t /\
  masterBufferIndex (deliver (irq e) t) = masterBufferIndex t.
Proof.
  intros [-> | ->];
    [rewrite deliver_MT_ARB_LOST | rewrite deliver_BUS_ERROR];
    repeat apply conj; reflexivity.
Qed.

(** X12.  A [readFrom] cut short: the device has supplied [k < len] bytes
    when arbitration is lost or a bus error is reported.  The call returns
    [k], the caller's array holds the [k] bytes received, in order, and is
    otherwise as it was; the status is latched in [error], which
    [readFrom] does not report. *)
Theorem read_cut_short a data len s t bytes e rest :
  aborts e ->
  0 <= len < 256 -> len <= bufferSize t ->
  state t = TWI_READY ->
  Z.of_nat (length (masterBuffer t)) = bufferSize t ->
  len <= Z.of_nat (length data) ->
  Z.of_nat (length bytes) < len ->
  exists t',
    read_from a data len s t
      (start_irq (continues t) ++ irq TW_MR_SLA_ACK
         :: map (irq_byte TW_MR_DATA_ACK) bytes ++ irq e :: rest)
      = Some (Z.of_nat (length bytes), bytes ++ drop (length bytes) data, t', rest) /\
    state t' = TWI_READY /\
    error t' = status_code e.
Proof.
  intros He Hlen Hcap Hready Halloc Hdata Hk.
  unfold readFrom.
  assert ((bufferSize t <? len) = false) as -> by (apply Z.ltb_ge; lia).
  rewrite spin_idle by (rewrite Hready; reflexivity).
  assert (forall t0 : Twi,
            state t0 = TWI_MRX -> masterBufferIndex t0 = 0 ->
            masterBuffer t0 = masterBuffer t ->
            exists t',
              wait_while (fun t => TWI_MRX =? state t)
                (map (irq_byte TW_MR_DATA_ACK) bytes ++ irq e :: rest) t0
                = Some (t', rest) /\
              readFrom_end data len t'
                = (Z.of_nat (length bytes), bytes ++ drop (length bytes) data) /\
              state t' = TWI_READY /\ error t' = status_code e) as Hgo.
  { intros t0 S1 S2 S3.
    destruct (mr_progress bytes t0 (irq e :: rest))
      as (t1 & Hrun & P1 & P2 & P3 & P4 & P5 & P6 & P7);
      try first [assumption | lia].
    destruct (deliver_abort e t1 He) as (D1 & D2 & D3 & D4).
    exists (deliver (irq e) t1). rewrite Hrun.
    rewrite spin_step by (rewrite P1; reflexivity).
    rewrite spin_idle by (rewrite D1; reflexivity).
    split; [reflexivity|]. split; [|split; assumption].
    unfold readFrom_end. rewrite D3, D4, P6, P7, S2, S3. rewrite Z.add_0_l.
    assert ((Z.of_nat (length bytes) <? len) = true) as -> by (apply Z.ltb_lt; lia).
    rewrite Nat2Z.id.
    change 0 with (Z.of_nat 0).
    rewrite pokes_take_drop by (simpl; lia).
    change (take 0 (masterBuffer t)) with (@nil Z). simpl app.
    rewrite copy_out_loop by (simpl; rewrite length_app, length_drop; lia).
    change (drop 0 ?l) with l.
    rewrite take_app_length.
    rewrite pokes_take_drop by (simpl; lia).
    reflexivity. }
  unfold start_irq. destruct (continues t) eqn:Hc.
  - rewrite readFrom_begin_continued by assumption. simpl app.
    rewrite spin_step by reflexivity. rewrite deliver_MR_SLA_ACK.
    match goal with |- context [spin _ _ _ _ ?X] =>
      destruct (Hgo X) as (t' & Hrun & G1 & G2 & G3)
    end; try reflexivity.
    exists t'. rewrite Hrun, G1. repeat split; assumption.
  - rewrite readFrom_begin_fresh by assumption. simpl app.
    rewrite spin_step by reflexivity. rewrite deliver_START.
    rewrite spin_step by reflexivity. rewrite deliver_MR_SLA_ACK.
    match goal with |- context [spin _ _ _ _ ?X] =>
      destruct (Hgo X) as (t' & Hrun & G1 & G2 & G3)
    end; try reflexivity.
    exists t'. rewrite Hrun, G1. repeat split; assumption.
Qed.

(** ** The repeated start is out of reach *)

Lemma Forall_map_all {A B : Type} (P : B -> Prop) (f : A -> B) (l : list A) :
  (forall j, P (f j)) -> Forall P (map f l).
Proof.
  intros Hf. induction l as [|j l IH]; simpl; constructor; [apply Hf|exact IH].
Qed.

Ltac no_repeated_start_step :=
  unfold no_repeated_start in *;
  repeat match goal with H : _ /\ _ |- _ => destruct H end;
  unfold stop_or_repeated_start, mr_ack_if_more, mr_store_byte, st_send_next,
    stop, releaseBus;
  rewrite ?reply_1, ?reply_0; cbv zeta; twi_simpl;
  repeat match goal with
         | H : truthy (sendStop ?t) = true |- context [truthy (sendStop ?t)] =>
             rewrite H
         | |- context [if ?c then _ else _] => destruct c eqn:?
         end;
  unfold continues in *; twi_simpl;
  (split; [first [assumption | reflexivity]|split; [assumption|]]);
  rewrite ?Forall_app; repeat apply conj; try assumption;
  repeat constructor; discriminate.

Lemma no_repeated_start_handler :
  (forall u, no_repeated_start u -> no_repeated_start (twi0_onSlaveTransmit u)) ->
  (forall buf n u, no_repeated_start u -> no_repeated_start (twi0_onSlaveReceive buf n u)) ->
  forall t, no_repeated_start t -> no_repeated_start (handler t).
Proof.
  intros Htx Hrx t Hinv. unfold onInterrupt.
  destruct (decode_status (TW_STATUS t)) as [st|]; [|exact Hinv].
  destruct st; try exact Hinv; try (no_repeated_start_step; fail).
  - cbv zeta.
    set (t1 := emit CallSlaveTransmit
                 (set_txBufferLength 0 (set_txBufferIndex 0 (set_state TWI_STX t)))).
    assert (no_repeated_start t1) as H1 by (subst t1; no_repeated_start_step).
    apply Htx in H1. revert H1. generalize (twi0_onSlaveTransmit t1). clear.
    intros t2 H2. no_repeated_start_step.
  - cbv zeta.
    set (t1 := emit CallSlaveTransmit
                 (set_txBufferLength 0 (set_txBufferIndex 0 (set_state TWI_STX t)))).
    assert (no_repeated_start t1) as H1 by (subst t1; no_repeated_start_step).
    apply Htx in H1. revert H1. generalize (twi0_onSlaveTransmit t1). clear.
    intros t2 H2. no_repeated_start_step.
  - cbv zeta.
    match goal with
    | |- no_repeated_start (set_rxBufferIndex 0 (twi0_onSlaveReceive ?b ?n ?x)) =>
      assert (no_repeated_start x) as H1;
      [|apply (Hrx b n) in H1; revert H1; generalize (twi0_onSlaveReceive b n x)]
    end.
    + no_repeated_start_step.
    + clear. intros t2 H2. no_repeated_start_step.
Qed.

Lemma no_repeated_start_deliver_all :
  (forall u, no_repeated_start u -> no_repeated_start (twi0_onSlaveTransmit u)) ->
  (forall buf n u, no_repeated_start u -> no_repeated_start (twi0_onSlaveReceive buf n u)) ->
  forall irqs t, no_repeated_start t -> no_repeated_start (deliver_all irqs t).
Proof.
  intros Htx Hrx irqs. induction irqs as [|i irqs IH]; intros t Hinv; [exact Hinv|].
  apply IH. unfold raise. cbv zeta. apply no_repeated_start_handler; try assumption.
  destruct (irq_data i); exact Hinv.
Qed.

Lemma no_repeated_start_begin a data len s t :
  no_repeated_start t ->
  no_repeated_start (writeTo_begin a data len s t) /\
  no_repeated_start (readFrom_begin a len s t).
Proof.
  intros (Hs & Hc & Htr).
  rewrite writeTo_begin_fresh, readFrom_begin_fresh by assumption.
  unfold no_repeated_start, continues in *. twi_simpl.
  split; (split; [assumption|split; [assumption|]]).
  - rewrite !Forall_app. repeat apply conj; try assumption.
    + apply Forall_map_all. intros j. discriminate.
    + repeat constructor. discriminate.
  - rewrite !Forall_app. repeat apply conj; try assumption.
    repeat constructor. discriminate.
Qed.

(** X13.  No run of the controller reaches a repeated start.  As
    constructed the field [sendStop] is true and no repeated start is
    pending; every interrupt served, every [writeTo] and [readFrom] that
    returns (whatever their [sendStop] argument), and every [transmit]
    keeps it so, as long as the two collaborators do; and the
    repeated-start control word is never written to TWCR. *)
Theorem repeated_start_unreachable :
  (forall u, no_repeated_start u -> no_repeated_start (twi0_onSlaveTransmit u)) ->
  (forall buf n u, no_repeated_start u -> no_repeated_start (twi0_onSlaveReceive buf n u)) ->
  (forall size fill, no_repeated_start (Twi_new size fill)) /\
  (forall irqs t, no_repeated_start t -> no_repeated_start (deliver_all irqs t)) /\
  (forall a data len wait s t pending rc t' rest,
     no_repeated_start t ->
     write_to a data len wait s t pending = Some (rc, t', rest) ->
     no_repeated_start t') /\
  (forall a data len s t pending n data' t' rest,
     no_repeated_start t ->
     read_from a data len s t pending = Some (n, data', t', rest) ->
     no_repeated_start t') /\
  (forall data len t, no_repeated_start t -> no_repeated_start (snd (transmit data len t))) /\
  (forall t, no_repeated_start t -> ~ In (WrTWCR CR_REP_START) (trace t)).
Proof.
  intros Htx Hrx.
  pose proof (no_repeated_start_deliver_all Htx Hrx) as Hall.
  split; [intros; split; [reflexivity|split; [reflexivity|constructor]]|].
  split; [exact Hall|].
  split.
  { intros a data len wait s t pending rc t' rest Hinv Hrun. unfold writeTo in Hrun.
    destruct (bufferSize t <? len); [inversion Hrun; subst; exact Hinv|].
    destruct (wait_while _ pending t) as [[t0 p0]|] eqn:Hw1; [|discriminate].
    destruct (wait_while _ p0 _) as [[t1 p1]|] eqn:Hw2; [|discriminate].
    inversion Hrun; subst; clear Hrun.
    apply spin_inv in Hw1 as (served1 & _ & -> & _).
    apply spin_inv in Hw2 as (served2 & _ & -> & _).
    apply Hall. refine (proj1 (no_repeated_start_begin a data len s _ _)).
    apply Hall. exact Hinv. }
  split.
  { intros a data len s t pending n data' t' rest Hinv Hrun. unfold readFrom in Hrun.
    destruct (bufferSize t <? len); [inversion Hrun; subst; exact Hinv|].
    destruct (wait_while _ pending t) as [[t0 p0]|] eqn:Hw1; [|discriminate].
    destruct (wait_while _ p0 _) as [[t1 p1]|] eqn:Hw2; [|discriminate].
    destruct (readFrom_end data len t1) as [n1 d1].
    inversion Hrun; subst; clear Hrun.
    apply spin_inv in Hw1 as (served1 & _ & -> & _).
    apply spin_inv in Hw2 as (served2 & _ & -> & _).
    apply Hall. refine (proj2 (no_repeated_start_begin a data len s _ _)).
    apply Hall. exact Hinv. }
  split.
  { intros data len t (Hs & Hc & Htr). unfold transmit.
    destruct (bufferSize t <? txBufferLength t + len); [repeat split; assumption|].
    destruct (negb (TWI_STX =? state t)); [repeat split; assumption|].
    cbv zeta. rewrite transmit_loop. cbn [snd].
    unfold no_repeated_start, continues in *. twi_simpl.
    split; [assumption|split; [assumption|]].
    rewrite Forall_app. split; [assumption|].
    apply Forall_map_all. intros j. discriminate. }
  intros t (_ & _ & Htr) Hin.
  rewrite Forall_forall in Htr. apply list_elem_of_In in Hin.
  exact (Htr _ Hin eq_refl).
Qed.

(** ** Slave reception, whole messages *)

Lemma deliver_all_app l1 l2 t : deliver_all (l1 ++ l2) t = deliver_all l2 (deliver_all l1 t).
Proof. unfold raise_all. apply fold_left_app. Qed.

Lemma deliver_SR_SLA_ACK t :
  deliver (irq TW_SR_SLA_ACK) t
  = write_twcr CR_ACK (set_rxBufferIndex 0 (set_state TWI_SRX (set_twsr 0x60 t))).
Proof. reflexivity. Qed.

Lemma deliver_SR_DATA_ACK b t :
  deliver (irq_byte TW_SR_DATA_ACK b) t
  = if rxBufferIndex t <? bufferSize t then
      write_twcr CR_ACK
        (store_rx (rxBufferIndex t) b
           (set_rxBufferIndex (u8 (rxBufferIndex t + 1)) (set_twdr b (set_twsr 0x80 t))))
    else write_twcr CR_NACK (set_twdr b (set_twsr 0x80 t)).
Proof. reflexivity. Qed.

Lemma deliver_SR_DATA_NACK b t :
  deliver (irq_byte TW_SR_DATA_NACK b) t
  = write_twcr CR_NACK (set_twdr b (set_twsr 0x88 t)).
Proof. reflexivity. Qed.

Lemma deliver_SR_STOP t :
  deliver (irq TW_SR_STOP) t
  = let t1 := releaseBus (set_twsr 0xA0 t) in
    let t2 := if rxBufferIndex t1 <? bufferSize t1
              then store_rx (rxBufferIndex t1) 0 t1 else t1 in
    let t3 := emit (CallSlaveReceive (rxBuffer t2) (rxBufferIndex t2)) t2 in
    set_rxBufferIndex 0 (twi0_onSlaveReceive (rxBuffer t3) (rxBufferIndex t3) t3).
Proof. reflexivity. Qed.

(** Slave receiver: bytes that all find room. *)
Lemma sr_progress bytes :
  forall t,
  0 <= rxBufferIndex t ->
  rxBufferIndex t + Z.of_nat (length bytes) <= bufferSize t ->
  rxBufferIndex t + Z.of_nat (length bytes) < 256 ->
  let t' := deliver_all (map (irq_byte TW_SR_DATA_ACK) bytes) t in
  state t' = state t /\ bufferSize t' = bufferSize t /\
  rxBufferIndex t' = rxBufferIndex t + Z.of_nat (length bytes) /\
  rxBuffer t' = pokes (rxBuffer t) (rxBufferIndex t) bytes /\
  trace t' = trace t ++ sr_data_trace (rxBufferIndex t) bytes.
Proof.
  induction bytes as [|b bytes IH]; intros t Hidx Hn H256; cbv zeta.
  - simpl. rewrite Z.add_0_r, app_nil_r. repeat apply conj; reflexivity.
  - simpl length in Hn, H256. simpl map.
    change (deliver_all (irq_byte TW_SR_DATA_ACK b :: map (irq_byte TW_SR_DATA_ACK) bytes) t)
      with (deliver_all (map (irq_byte TW_SR_DATA_ACK) bytes)
              (deliver (irq_byte TW_SR_DATA_ACK b) t)).
    rewrite deliver_SR_DATA_ACK.
    assert ((rxBufferIndex t <? bufferSize t) = true) as -> by (apply Z.ltb_lt; lia).
    rewrite (u8_small (rxBufferIndex t + 1)) by lia.
    match goal with |- context [deliver_all _ ?X] =>
      pose proof (IH X) as IH'
    end.
    cbv zeta in IH'. twi_simpl.
    destruct IH' as (H1 & H2 & H3 & H4 & H5); try lia.
    rewrite H1, H2, H3, H4, H5.
    split; [reflexivity|]. split; [reflexivity|].
    split; [simpl length; lia|]. split; [reflexivity|].
    simpl. rewrite <- !app_assoc. reflexivity.
Qed.

Lemma stores_sr_data_trace bytes :
  forall i, stores RxBuffer (sr_data_trace i bytes) = zip (zrange i (length bytes)) bytes.
Proof.
  induction bytes as [|b bytes IH]; intros i; [reflexivity|].
  change (stores RxBuffer (sr_data_trace i (b :: bytes)))
    with ((i, b) :: stores RxBuffer (sr_data_trace (i + 1) bytes)).
  rewrite IH. reflexivity.
Qed.

Lemma acks_sr_data_trace bytes :
  forall i, acks (sr_data_trace i bytes) = replicate (length bytes) true.
Proof.
  induction bytes as [|b bytes IH]; intros i; [reflexivity|].
  change (acks (sr_data_trace i (b :: bytes)))
    with (true :: acks (sr_data_trace (i + 1) bytes)).
  rewrite IH. reflexivity.
Qed.

Lemma receive_calls_sr_data_trace bytes :
  forall i, receive_calls (sr_data_trace i bytes) = [].
Proof.
  induction bytes as [|b bytes IH]; intros i; [reflexivity|].
  change (receive_calls (sr_data_trace i (b :: bytes)))
    with (receive_calls (sr_data_trace (i + 1) bytes)).
  apply IH.
Qed.

Lemma receive_calls_app tr1 tr2 :
  receive_calls (tr1 ++ tr2) = receive_calls tr1 ++ receive_calls tr2.
Proof. unfold receive_calls. apply omap_app. Qed.

(** The handler on "stop or repeated start received", in any state. *)
Lemma sr_stop_any t :
  exists pre,
    deliver (irq TW_SR_STOP) t
      = set_rxBufferIndex 0 (twi0_onSlaveReceive (rxBuffer pre) (rxBufferIndex t) pre) /\
    state pre = TWI_READY /\
    rxBuffer pre = (if rxBufferIndex t <? bufferSize t
                    then poke (rxBuffer t) (rxBufferIndex t) 0 else rxBuffer t) /\
    trace pre = trace t ++ [WrTWCR CR_RELEASE]
      ++ (if rxBufferIndex t <? bufferSize t
          then [Store RxBuffer (rxBufferIndex t) 0] else [])
      ++ [CallSlaveReceive (rxBuffer pre) (rxBufferIndex t)].
Proof.
  rewrite deliver_SR_STOP. cbv zeta.
  assert (rxBufferIndex (releaseBus (set_twsr 160 t)) = rxBufferIndex t) as -> by reflexivity.
  assert (bufferSize (releaseBus (set_twsr 160 t)) = bufferSize t) as -> by reflexivity.
  destruct (rxBufferIndex t <? bufferSize t).
  - match goal with |- context [twi0_onSlaveReceive _ _ ?T3] => exists T3 end.
    split; [|unfold releaseBus; twi_simpl;
             split; [reflexivity|]; split; [reflexivity|];
             rewrite <- !app_assoc; reflexivity].
    f_equal.
  - match goal with |- context [twi0_onSlaveReceive _ _ ?T3] => exists T3 end.
    split; [|unfold releaseBus; twi_simpl;
             split; [reflexivity|]; split; [reflexivity|];
             rewrite <- !app_assoc; reflexivity].
    f_equal.
Qed.

(** X14.  A whole slave reception of [k <= bufferSize] bytes ended by a
    stop, from any state of a controller of capacity at most 255: the
    receive collaborator is called once more, with count [k] and a buffer
    that starts with the [k] bytes in order; a 0 follows them when
    [k < bufferSize], and nothing when the message fills the buffer (the
    terminator is then left out). *)
Theorem slave_receives_message t bytes :
  0 <= bufferSize t <= 255 ->
  Z.of_nat (length (rxBuffer t)) = bufferSize t ->
  Z.of_nat (length bytes) <= bufferSize t ->
  exists pre,
    deliver_all (sr_device bytes) t
      = set_rxBufferIndex 0
          (twi0_onSlaveReceive (rxBuffer pre) (Z.of_nat (length bytes)) pre) /\
    state pre = TWI_READY /\
    rxBuffer pre
      = bytes ++ (if Z.of_nat (length bytes) <? bufferSize t
                  then 0 :: drop (S (length bytes)) (rxBuffer t) else []) /\
    receive_calls (trace pre)
      = receive_calls (trace t) ++ [(rxBuffer pre, Z.of_nat (length bytes))] /\
    stores RxBuffer (trace pre)
      = stores RxBuffer (trace t) ++ zip (zrange 0 (length bytes)) bytes
          ++ (if Z.of_nat (length bytes) <? bufferSize t
              then [(Z.of_nat (length bytes), 0)] else []).
Proof.
  intros Hcap Halloc Hk. unfold sr_device.
  change (deliver_all (irq TW_SR_SLA_ACK :: ?l) t)
    with (deliver_all l (deliver (irq TW_SR_SLA_ACK) t)).
  rewrite deliver_all_app, deliver_SR_SLA_ACK.
  match goal with |- context [deliver_all (map _ bytes) ?X] =>
    pose proof (sr_progress bytes X) as Hp
  end.
  cbv zeta in Hp. twi_simpl.
  destruct Hp as (P1 & P2 & P3 & P4 & P5); try lia.
  match type of P1 with state ?X = _ => generalize dependent X end.
  intros t2 P1 P2 P3 P4 P5. rewrite Z.add_0_l in P3.
  change (deliver_all [irq TW_SR_STOP] t2) with (deliver (irq TW_SR_STOP) t2).
  destruct (sr_stop_any t2) as (pre & Hd & S1 & S2 & S3).
  rewrite P2, P3 in *.
  assert (rxBuffer t2 = bytes ++ drop (length bytes) (rxBuffer t)) as Hbuf.
  { rewrite P4. change 0 with (Z.of_nat 0). rewrite pokes_take_drop by (simpl; lia).
    reflexivity. }
  exists pre. split; [exact Hd|]. split; [exact S1|].
  assert (rxBuffer pre
          = bytes ++ (if Z.of_nat (length bytes) <? bufferSize t
                      then 0 :: drop (S (length bytes)) (rxBuffer t) else [])) as Hpre.
  { rewrite S2. destruct (Z.of_nat (length bytes) <? bufferSize t) eqn:Hroom.
    - apply Z.ltb_lt in Hroom. rewrite poke_nat, Hbuf.
      replace (length bytes) with (length bytes + 0)%nat at 1 by lia.
      rewrite insert_app_r.
      destruct (drop (length bytes) (rxBuffer t)) as [|x l] eqn:Hd'.
      + apply (f_equal length) in Hd'. rewrite length_drop in Hd'. simpl in Hd'. lia.
      + simpl. f_equal. f_equal.
        replace (S (length bytes)) with (length bytes + 1)%nat by lia.
        rewrite <- drop_drop, Hd'. reflexivity.
    - apply Z.ltb_ge in Hroom. rewrite Hbuf, drop_ge by lia. reflexivity. }
  split; [exact Hpre|].
  rewrite S3, P5. split.
  - rewrite !receive_calls_app, receive_calls_sr_data_trace.
    destruct (Z.of_nat (length bytes) <? bufferSize t); simpl;
      rewrite ?app_nil_r; reflexivity.
  - rewrite !stores_app, stores_sr_data_trace.
    destruct (Z.of_nat (length bytes) <? bufferSize t); simpl;
      rewrite ?app_nil_r, <- ?app_assoc; reflexivity.
Qed.

(** Slave receiver with a full buffer: bytes reported as not acknowledged. *)
Lemma sr_nacks more :
  forall t,
  let t' := deliver_all (map (irq_byte TW_SR_DATA_NACK) more) t in
  state t' = state t /\ bufferSize t' = bufferSize t /\
  rxBufferIndex t' = rxBufferIndex t /\ rxBuffer t' = rxBuffer t /\
  trace t' = trace t ++ replicate (length more) (WrTWCR CR_NACK).
Proof.
  induction more as [|b more IH]; intros t; cbv zeta.
  - simpl. rewrite app_nil_r. repeat apply conj; reflexivity.
  - simpl map.
    change (deliver_all (irq_byte TW_SR_DATA_NACK b :: map (irq_byte TW_SR_DATA_NACK) more) t)
      with (deliver_all (map (irq_byte TW_SR_DATA_NACK) more)
              (deliver (irq_byte TW_SR_DATA_NACK b) t)).
    rewrite deliver_SR_DATA_NACK.
    match goal with |- context [deliver_all _ ?X] => pose proof (IH X) as IH' end.
    cbv zeta in IH'. twi_simpl. destruct IH' as (H1 & H2 & H3 & H4 & H5).
    rewrite H1, H2, H3, H4, H5.
    repeat (split; [reflexivity|]).
    simpl. rewrite <- !app_assoc. reflexivity.
Qed.

Lemma acks_replicate_nack n : acks (replicate n (WrTWCR CR_NACK)) = replicate n false.
Proof. induction n as [|n IH]; [reflexivity|]. simpl. unfold acks in *. simpl. now rewrite IH. Qed.

Lemma stores_replicate_nack b n : stores b (replicate n (WrTWCR CR_NACK)) = [].
Proof. induction n as [|n IH]; [reflexivity|]. exact IH. Qed.

Lemma receive_calls_replicate_nack n : receive_calls (replicate n (WrTWCR CR_NACK)) = [].
Proof. induction n as [|n IH]; [reflexivity|]. exact IH. Qed.

(** X15.  A message longer than the receive buffer (capacity at most 255):
    the first [bufferSize] bytes are stored, every later byte is dropped,
    and the collaborator is called with count [bufferSize] and exactly the
    stored bytes, without terminator.  The handler replies ACK up to and
    including the byte that fills the buffer, so the first dropped byte
    has still been acknowledged on the bus; it replies NACK from then
    on. *)
Theorem slave_receive_overflow t stored b more :
  Z.of_nat (length stored) = bufferSize t ->
  bufferSize t <= 255 ->
  Z.of_nat (length (rxBuffer t)) = bufferSize t ->
  exists pre,
    deliver_all
      (irq TW_SR_SLA_ACK :: map (irq_byte TW_SR_DATA_ACK) stored
         ++ sr_excess b more ++ [irq TW_SR_STOP]) t
      = set_rxBufferIndex 0 (twi0_onSlaveReceive stored (bufferSize t) pre) /\
    rxBuffer pre = stored /\
    stores RxBuffer (trace pre)
      = stores RxBuffer (trace t) ++ zip (zrange 0 (length stored)) stored /\
    acks (trace pre)
      = acks (trace t) ++ replicate (S (length stored)) true
          ++ replicate (S (length more)) false ++ [true] /\
    receive_calls (trace pre) = receive_calls (trace t) ++ [(stored, bufferSize t)].
Proof.
  intros Hc H255 Halloc.
  change (deliver_all (irq TW_SR_SLA_ACK :: ?l) t)
    with (deliver_all l (deliver (irq TW_SR_SLA_ACK) t)).
  rewrite !deliver_all_app, deliver_SR_SLA_ACK.
  match goal with |- context [deliver_all (map _ stored) ?X] =>
    pose proof (sr_progress stored X) as Hp
  end.
  cbv zeta in Hp. twi_simpl.
  destruct Hp as (P1 & P2 & P3 & P4 & P5); try lia.
  match type of P1 with state ?X = _ => generalize dependent X end.
  intros t2 P1 P2 P3 P4 P5. rewrite Z.add_0_l in P3.
  assert (rxBuffer t2 = stored) as Hbuf.
  { rewrite P4. change 0 with (Z.of_nat 0). rewrite pokes_take_drop by (simpl; lia).
    rewrite drop_ge by (simpl; lia). simpl. apply app_nil_r. }
  unfold sr_excess.
  change (deliver_all (irq_byte TW_SR_DATA_ACK b :: ?l) t2)
    with (deliver_all l (deliver (irq_byte TW_SR_DATA_ACK b) t2)).
  rewrite deliver_SR_DATA_ACK.
  assert ((rxBufferIndex t2 <? bufferSize t2) = false) as ->
    by (apply Z.ltb_ge; lia).
  match goal with |- context [deliver_all (map _ more) ?X] =>
    pose proof (sr_nacks more X) as Hn
  end.
  cbv zeta in Hn. twi_simpl.
  destruct Hn as (N1 & N2 & N3 & N4 & N5).
  match type of N1 with state ?X = _ => generalize dependent X end.
  intros t3 N1 N2 N3 N4 N5.
  change (deliver_all [irq TW_SR_STOP] t3) with (deliver (irq TW_SR_STOP) t3).
  destruct (sr_stop_any t3) as (pre & Hd & S1 & S2 & S3).
  rewrite N2, N3, P2, P3 in *.
  assert ((Z.of_nat (length stored) <? bufferSize t) = false) as Hfull
    by (apply Z.ltb_ge; lia).
  rewrite Hfull in *. rewrite N4, Hbuf in S2.
  exists pre. rewrite Hd, S2, Hc.
  split; [reflexivity|]. split; [reflexivity|].
  rewrite S3, N5, P5, S2.
  split; [|split].
  - rewrite !stores_app, stores_replicate_nack, stores_sr_data_trace. simpl.
    rewrite !app_nil_r. reflexivity.
  - rewrite !acks_app, acks_replicate_nack, acks_sr_data_trace. simpl.
    rewrite <- !app_assoc. reflexivity.
  - rewrite !receive_calls_app, receive_calls_replicate_nack,
      receive_calls_sr_data_trace. simpl. rewrite !app_nil_r. rewrite Hc. reflexivity.
Qed.

(** Slave receiver: bytes that are all stored, through the 8-bit index. *)
Lemma length_poke buf i v : length (poke buf i v) = length buf.
Proof. unfold poke. destruct (0 <=? i); [apply length_insert|reflexivity]. Qed.

Lemma u8_succ i : u8 (u8 i + 1) = u8 (i + 1).
Proof. unfold u8. apply Zplus_mod_idemp_l. Qed.

Lemma deliver_sr_addressed sa t :
  sr_addressed sa ->
  deliver (irq sa) t
  = write_twcr CR_ACK
      (set_rxBufferIndex 0 (set_state TWI_SRX (set_twsr (status_code sa) t))).
Proof. intros [-> | [-> | [-> | ->]]]; reflexivity. Qed.

Lemma deliver_sr_data sd b t :
  sr_data sd ->
  deliver (irq_byte sd b) t
  = if rxBufferIndex t <? bufferSize t then
      write_twcr CR_ACK
        (store_rx (rxBufferIndex t) b
           (set_rxBufferIndex (u8 (rxBufferIndex t + 1))
              (set_twdr b (set_twsr (status_code sd) t))))
    else write_twcr CR_NACK (set_twdr b (set_twsr (status_code sd) t)).
Proof. intros [-> | ->]; reflexivity. Qed.

Lemma sr_store_progress sd bytes :
  sr_data sd ->
  forall t i,
  0 <= i -> rxBufferIndex t = u8 i ->
  256 <= bufferSize t \/ i + Z.of_nat (length bytes) <= bufferSize t ->
  let t' := deliver_all (map (irq_byte sd) bytes) t in
  state t' = state t /\ bufferSize t' = bufferSize t /\
  rxBufferIndex t' = u8 (i + Z.of_nat (length bytes)) /\
  length (rxBuffer t') = length (rxBuffer t) /\
  trace t' = trace t ++ sr_store_trace i bytes /\
  (i + Z.of_nat (length bytes) <= 256 -> rxBuffer t' = pokes (rxBuffer t) i bytes).
Proof.
  intros Hsd.
  induction bytes as [|b bytes IH]; intros t i Hi Hidx Hroom; cbv zeta.
  - simpl. rewrite Z.add_0_r, app_nil_r. repeat apply conj; first [reflexivity | assumption].
  - simpl length in Hroom. simpl map.
    change (deliver_all (irq_byte sd b :: map (irq_byte sd) bytes) t)
      with (deliver_all (map (irq_byte sd) bytes) (deliver (irq_byte sd b) t)).
    rewrite (deliver_sr_data sd b t Hsd).
    assert ((rxBufferIndex t <? bufferSize t) = true) as ->.
    { apply Z.ltb_lt. rewrite Hidx.
      pose proof (u8_range i). pose proof (u8_le i Hi). lia. }
    match goal with |- context [deliver_all _ ?X] =>
      pose proof (IH X (i + 1)) as IH'
    end.
    cbv zeta in IH'. twi_simpl.
    destruct IH' as (H1 & H2 & H3 & H4 & H5 & H6);
      [lia | rewrite Hidx; apply u8_succ | lia |].
    rewrite H1, H2, H3, H4, H5, length_poke.
    split; [reflexivity|]. split; [reflexivity|].
    split; [f_equal; simpl length; lia|]. split; [reflexivity|].
    split; [rewrite Hidx; simpl; rewrite <- !app_assoc; reflexivity|].
    simpl length. intros Hsmall. rewrite H6 by lia.
    rewrite Hidx, (u8_small i) by lia. reflexivity.
Qed.

Lemma stores_sr_store_trace bytes :
  forall i,
  stores RxBuffer (sr_store_trace i bytes) = zip (map u8 (zrange i (length bytes))) bytes.
Proof.
  induction bytes as [|b bytes IH]; intros i; [reflexivity|].
  change (stores RxBuffer (sr_store_trace i (b :: bytes)))
    with ((u8 i, b) :: stores RxBuffer (sr_store_trace (i + 1) bytes)).
  rewrite IH. reflexivity.
Qed.

Lemma conditions_sr_store_trace bytes :
  forall i, conditions (sr_store_trace i bytes) = [].
Proof.
  induction bytes as [|b bytes IH]; intros i; [reflexivity|].
  change (conditions (sr_store_trace i (b :: bytes)))
    with (conditions (sr_store_trace (i + 1) bytes)).
  apply IH.
Qed.

Lemma receive_calls_sr_store_trace bytes :
  forall i, receive_calls (sr_store_trace i bytes) = [].
Proof.
  induction bytes as [|b bytes IH]; intros i; [reflexivity|].
  change (receive_calls (sr_store_trace i (b :: bytes)))
    with (receive_calls (sr_store_trace (i + 1) bytes)).
  apply IH.
Qed.

(** The receive buffer once the terminator follows the bytes. *)
Lemma terminated_buffer (bytes buf : list Z) :
  (length bytes < length buf)%nat ->
  poke (pokes buf 0 bytes) (Z.of_nat (length bytes)) 0
  = bytes ++ 0 :: drop (S (length bytes)) buf.
Proof.
  intros Hlen. change (pokes buf 0) with (pokes buf (Z.of_nat 0)).
  rewrite pokes_take_drop by (simpl; lia). rewrite take_0, app_nil_l, poke_nat.
  replace (length bytes) with (length bytes + 0)%nat at 1 by lia.
  rewrite insert_app_r. simpl.
  destruct (drop (length bytes) buf) as [|x l] eqn:Hd.
  - apply (f_equal length) in Hd. rewrite length_drop in Hd. simpl in Hd. lia.
  - simpl. f_equal. f_equal.
    replace (S (length bytes)) with (length bytes + 1)%nat by lia.
    rewrite <- drop_drop, Hd. reflexivity.
Qed.

(** C6, as the code has it.  A slave reception of [n] bytes, all stored,
    with [n < bufferSize], opened by any of the "addressed" statuses and
    ended by "stop or repeated start received", from any state:
    the handler writes the release word (no stop condition) and sets the
    state to ready, stores 0 in the receive buffer, calls the receive
    collaborator once, with the receive buffer and a count, and then sets
    the receive index to 0.  The terminator's index and the count are the
    receive index, a [uint8_t]: [n mod 256], which is [n] whenever
    [n <= 255], in particular whenever [bufferSize <= 256]; the buffer
    then holds the [n] bytes followed by the 0.  The same holds for one
    run of the handler on that status from any state whose receive index
    is below [bufferSize].  In particular, as constructed with capacity 8
    and after three received bytes, the collaborator is called once, with
    count 3 and a buffer whose index 3 holds 0. *)
Theorem slave_receive_stop :
  (forall sa sd t bytes,
     sr_addressed sa -> sr_data sd ->
     Z.of_nat (length bytes) < bufferSize t ->
     Z.of_nat (length (rxBuffer t)) = bufferSize t ->
     let k := u8 (Z.of_nat (length bytes)) in
     exists pre,
       deliver_all (sr_transaction sa sd bytes) t
         = set_rxBufferIndex 0 (twi0_onSlaveReceive (rxBuffer pre) k pre) /\
       rxBufferIndex (deliver_all (sr_transaction sa sd bytes) t) = 0 /\
       state pre = TWI_READY /\
       trace pre
         = trace t ++ WrTWCR CR_ACK :: sr_store_trace 0 bytes
             ++ [WrTWCR CR_RELEASE; Store RxBuffer k 0; CallSlaveReceive (rxBuffer pre) k] /\
       stores RxBuffer (trace pre)
         = stores RxBuffer (trace t)
             ++ zip (map u8 (zrange 0 (length bytes))) bytes ++ [(k, 0)] /\
       rxBuffer pre !! Z.to_nat k = Some 0 /\
       receive_calls (trace pre) = receive_calls (trace t) ++ [(rxBuffer pre, k)] /\
       conditions (trace pre) = conditions (trace t) /\
       (Z.of_nat (length bytes) <= 255 ->
          k = Z.of_nat (length bytes) /\
          rxBuffer pre = bytes ++ 0 :: drop (S (length bytes)) (rxBuffer t)) /\
       (bufferSize t <= 256 -> k = Z.of_nat (length bytes))) /\
  (forall t k,
     TW_STATUS t = status_code TW_SR_STOP ->
     rxBufferIndex t = k -> 0 <= k < bufferSize t ->
     Z.of_nat (length (rxBuffer t)) = bufferSize t ->
     exists pre,
       handler t = set_rxBufferIndex 0 (twi0_onSlaveReceive (rxBuffer pre) k pre) /\
       state pre = TWI_READY /\
       rxBufferIndex pre = k /\
       rxBuffer pre = <[Z.to_nat k := 0]> (rxBuffer t) /\
       rxBuffer pre !! Z.to_nat k = Some 0 /\
       trace pre = trace t
         ++ [WrTWCR CR_RELEASE; Store RxBuffer k 0; CallSlaveReceive (rxBuffer pre) k] /\
       conditions [WrTWCR CR_RELEASE] = [] /\
       rxBufferIndex (handler t) = 0) /\
  (forall fill b1 b2 b3,
     let t3 := deliver_all (irq TW_SR_SLA_ACK :: map (irq_byte TW_SR_DATA_ACK) [b1; b2; b3])
                 (Twi_new 8 fill) in
     rxBufferIndex t3 = 3 /\ state t3 = TWI_SRX /\
     exists pre,
       deliver (irq TW_SR_STOP) t3
         = set_rxBufferIndex 0 (twi0_onSlaveReceive (rxBuffer pre) 3 pre) /\
       state pre = TWI_READY /\
       rxBuffer pre = [b1; b2; b3; 0; fill; fill; fill; fill] /\
       receive_calls (trace pre) = [(rxBuffer pre, 3)] /\
       conditions (trace pre) = []).
Proof.
  split; [|split].
  2: { intros t k Hst. apply sr_stop_step. rewrite Hst. reflexivity. }
  - intros sa sd t bytes Hsa Hsd Hk Halloc. cbv zeta. unfold sr_transaction.
    change (deliver_all (irq sa :: ?l) t) with (deliver_all l (deliver (irq sa) t)).
    rewrite deliver_all_app, (deliver_sr_addressed sa t Hsa).
    match goal with |- context [deliver_all (map _ bytes) ?X] =>
      pose proof (sr_store_progress sd bytes Hsd X 0) as Hp
    end.
    cbv zeta in Hp. revert Hp. twi_simpl.
    match goal with |- context [deliver_all (map _ bytes) ?X] =>
      generalize (deliver_all (map (irq_byte sd) bytes) X)
    end.
    intros t2 Hp.
    destruct Hp as (P1 & P2 & P3 & P4 & P5 & P6); [lia | reflexivity | right; lia |].
    rewrite Z.add_0_l in P3.
    pose proof (u8_range (Z.of_nat (length bytes))) as Hr.
    pose proof (u8_le (Z.of_nat (length bytes)) ltac:(lia)) as Hle.
    change (deliver_all [irq TW_SR_STOP] t2) with (deliver (irq TW_SR_STOP) t2).
    destruct (sr_stop_any t2) as (pre & Hd & S1 & S2 & S3).
    rewrite P2, P3 in *.
    assert ((u8 (Z.of_nat (length bytes)) <? bufferSize t) = true) as Hroom
      by (apply Z.ltb_lt; lia).
    rewrite Hroom in S2, S3.
    exists pre. split; [exact Hd|]. rewrite Hd.
    split; [reflexivity|]. split; [exact S1|].
    assert (trace pre
            = trace t ++ WrTWCR CR_ACK :: sr_store_trace 0 bytes
                ++ [WrTWCR CR_RELEASE; Store RxBuffer (u8 (Z.of_nat (length bytes))) 0;
                    CallSlaveReceive (rxBuffer pre) (u8 (Z.of_nat (length bytes)))]) as Htr.
    { rewrite S3, P5. simpl. rewrite <- !app_assoc. reflexivity. }
    split; [exact Htr|].
    split; [|split; [|split; [|split; [|split]]]].
    + rewrite Htr, stores_app.
      change (stores RxBuffer (WrTWCR CR_ACK :: ?l)) with (stores RxBuffer l).
      rewrite stores_app, stores_sr_store_trace. reflexivity.
    + rewrite S2. unfold poke.
      assert ((0 <=? u8 (Z.of_nat (length bytes))) = true) as -> by (apply Z.leb_le; lia).
      apply list_lookup_insert_eq. lia.
    + rewrite Htr, receive_calls_app.
      change (receive_calls (WrTWCR CR_ACK :: ?l)) with (receive_calls l).
      rewrite receive_calls_app, receive_calls_sr_store_trace. reflexivity.
    + rewrite Htr, conditions_app.
      change (conditions (WrTWCR CR_ACK :: ?l)) with (conditions l).
      rewrite conditions_app, conditions_sr_store_trace. simpl. apply app_nil_r.
    + intros H255. rewrite (u8_small (Z.of_nat (length bytes))) in * by lia.
      split; [reflexivity|].
      rewrite S2, P6 by lia. apply terminated_buffer. lia.
    + intros H256. apply u8_small. lia.
  - intros fill b1 b2 b3.
    pose proof (sr_three_bytes twi0_onSlaveTransmit twi0_onSlaveReceive fill b1 b2 b3) as H3.
    cbv zeta in H3 |- *.
    revert H3.
    match goal with |- context [raise_all _ _ ?l ?t] =>
      generalize (deliver_all l t) end.
    intros t3 (Hidx & Hstate & Hsize & Hbuf & Htrace).
    split; [assumption|]. split; [assumption|].
    destruct (sr_stop_step twi0_onSlaveTransmit twi0_onSlaveReceive
                (set_twsr (status_code TW_SR_STOP) t3) 3)
      as (pre & Hd & P1 & P2 & P3 & P4 & P5 & P6 & P7);
      twi_simpl; try first [assumption | reflexivity | lia].
    { rewrite Hbuf, Hsize. reflexivity. }
    exists pre. split; [exact Hd|]. split; [assumption|].
    rewrite P5, P3, Htrace, Hbuf.
    split; [reflexivity|]. split; reflexivity.
Qed.

(** Slave transmitter. *)
Lemma deliver_ST_SLA_ACK t :
  deliver (irq TW_ST_SLA_ACK) t
  = let t1 := twi0_onSlaveTransmit
                (emit CallSlaveTransmit
                   (set_txBufferLength 0
                      (set_txBufferIndex 0 (set_state TWI_STX (set_twsr 0xA8 t))))) in
    let t2 := if 0 =? txBufferLength t1
              then store_tx 0 0x00 (set_txBufferLength 1 t1) else t1 in
    st_send_next t2.
Proof. reflexivity. Qed.

Lemma deliver_ST_DATA_ACK t :
  deliver (irq TW_ST_DATA_ACK) t = st_send_next (set_twsr 0xB8 t).
Proof. reflexivity. Qed.

Lemma deliver_ST_end last t :
  last = TW_ST_DATA_NACK \/ last = TW_ST_LAST_DATA ->
  deliver (irq last) t
  = set_state TWI_READY (write_twcr CR_ACK (set_twsr (status_code last) t)).
Proof. intros [-> | ->]; reflexivity. Qed.

Lemma st_send_next_facts s :
  0 <= txBufferIndex s < 255 ->
  let s' := st_send_next s in
  state s' = state s /\ bufferSize s' = bufferSize s /\
  txBufferIndex s' = txBufferIndex s + 1 /\
  txBufferLength s' = txBufferLength s /\
  txBuffer s' = txBuffer s /\
  trace s' = trace s ++ st_data_trace (txBuffer s) (txBufferLength s) (txBufferIndex s) 1.
Proof.
  intros Hi. cbv zeta. unfold st_send_next. cbv zeta. twi_simpl.
  rewrite (u8_small (txBufferIndex s + 1)) by lia.
  unfold st_data_trace. simpl flat_map.
  destruct (txBufferIndex s + 1 <? txBufferLength s);
    rewrite ?reply_1, ?reply_0; unfold write_twcr, write_twdr, emit; twi_simpl;
    rewrite <- !app_assoc; repeat (split; [reflexivity|]); reflexivity.
Qed.

Lemma st_data_trace_S buf len i k :
  st_data_trace buf len i (S k)
  = st_data_trace buf len i 1 ++ st_data_trace buf len (i + 1) k.
Proof. reflexivity. Qed.

Lemma st_progress k :
  forall s,
  0 <= txBufferIndex s ->
  txBufferIndex s + Z.of_nat k <= 255 ->
  let s' := deliver_all (replicate k (irq TW_ST_DATA_ACK)) s in
  state s' = state s /\ bufferSize s' = bufferSize s /\
  txBufferIndex s' = txBufferIndex s + Z.of_nat k /\
  txBufferLength s' = txBufferLength s /\
  txBuffer s' = txBuffer s /\
  trace s' = trace s ++ st_data_trace (txBuffer s) (txBufferLength s) (txBufferIndex s) k.
Proof.
  induction k as [|k IH]; intros s Hi Hk; cbv zeta.
  - simpl. rewrite Z.add_0_r, app_nil_r. repeat apply conj; reflexivity.
  - change (deliver_all (replicate (S k) (irq TW_ST_DATA_ACK)) s)
      with (deliver_all (replicate k (irq TW_ST_DATA_ACK))
              (deliver (irq TW_ST_DATA_ACK) s)).
    rewrite deliver_ST_DATA_ACK.
    destruct (st_send_next_facts (set_twsr 0xB8 s)) as (F1 & F2 & F3 & F4 & F5 & F6);
      [twi_simpl; lia|].
    revert F1 F2 F3 F4 F5 F6. twi_simpl.
    generalize (st_send_next (set_twsr 0xB8 s)). intros s1 F1 F2 F3 F4 F5 F6.
    destruct (IH s1) as (H1 & H2 & H3 & H4 & H5 & H6); try lia.
    rewrite H1, H2, H3, H4, H5, H6, F1, F2, F3, F4, F5, F6.
    repeat (split; [first [reflexivity | lia]|]).
    rewrite st_data_trace_S, <- app_assoc. reflexivity.
Qed.

Lemma data_writes_st_data_trace buf len k :
  forall i, data_writes (st_data_trace buf len i k) = map (load buf) (zrange i k).
Proof.
  induction k as [|k IH]; intros i; [reflexivity|].
  change (data_writes (st_data_trace buf len i (S k)))
    with (load buf i :: data_writes (st_data_trace buf len (i + 1) k)).
  rewrite IH. reflexivity.
Qed.

Lemma acks_st_data_trace buf len k :
  forall i, acks (st_data_trace buf len i k) = map (fun j => j + 1 <? len) (zrange i k).
Proof.
  induction k as [|k IH]; intros i; [reflexivity|].
  rewrite st_data_trace_S. unfold acks in *. rewrite omap_app, IH.
  simpl zrange. simpl map. f_equal.
  unfold st_data_trace. simpl. destruct (i + 1 <? len); reflexivity.
Qed.

Lemma st_run t n last :
  let t1 := twi0_onSlaveTransmit
              (emit CallSlaveTransmit
                 (set_txBufferLength 0
                    (set_txBufferIndex 0 (set_state TWI_STX (set_twsr 0xA8 t))))) in
  let t2 := if 0 =? txBufferLength t1
            then store_tx 0 0x00 (set_txBufferLength 1 t1) else t1 in
  last = TW_ST_DATA_NACK \/ last = TW_ST_LAST_DATA ->
  txBufferIndex t1 = 0 ->
  txBufferLength t2 = Z.of_nat n ->
  (1 <= n <= 255)%nat ->
  let t' := deliver_all (st_device n last) t in
  state t' = TWI_READY /\
  trace t' = trace t2 ++ st_data_trace (txBuffer t2) (Z.of_nat n) 0 n ++ [WrTWCR CR_ACK].
Proof.
  intros t1 t2 Hlast Hidx Hlen Hn. cbv zeta. unfold st_device.
  change (deliver_all (irq TW_ST_SLA_ACK :: ?l) t)
    with (deliver_all l (deliver (irq TW_ST_SLA_ACK) t)).
  rewrite deliver_ST_SLA_ACK. cbv zeta. fold t1. fold t2.
  assert (txBufferIndex t2 = 0) as Hidx2.
  { unfold t2. destruct (0 =? txBufferLength t1); [|exact Hidx].
    unfold store_tx, emit. twi_simpl. exact Hidx. }
  clearbody t2. clear t1 Hidx.
  destruct (st_send_next_facts t2) as (F1 & F2 & F3 & F4 & F5 & F6); [lia|].
  revert F1 F2 F3 F4 F5 F6. generalize (st_send_next t2).
  intros s1 F1 F2 F3 F4 F5 F6.
  rewrite deliver_all_app.
  destruct (st_progress (n - 1) s1) as (P1 & P2 & P3 & P4 & P5 & P6); try lia.
  revert P1 P2 P3 P4 P5 P6.
  generalize (deliver_all (replicate (n - 1) (irq TW_ST_DATA_ACK)) s1).
  intros s2 P1 P2 P3 P4 P5 P6.
  change (deliver_all [irq last] s2) with (deliver (irq last) s2).
  rewrite (deliver_ST_end last s2 Hlast). unfold write_twcr, emit. twi_simpl.
  split; [reflexivity|].
  rewrite P6, F6, F5, F4, F3, Hidx2, Hlen, <- !app_assoc.
  f_equal. rewrite !app_assoc. f_equal.
  assert (st_data_trace (txBuffer t2) (Z.of_nat n) 0 n
          = st_data_trace (txBuffer t2) (Z.of_nat n) 0 1
              ++ st_data_trace (txBuffer t2) (Z.of_nat n) (0 + 1) (n - 1)) as ->.
  { destruct n as [|n]; [lia|]. rewrite st_data_trace_S.
    replace (S n - 1)%nat with n by lia. reflexivity. }
  reflexivity.
Qed.

End MoreProperties.

Lemma acks_stores (f : Z -> Action) l :
  (forall j, ack_of (f j) = None) -> acks (map f l) = [].
Proof.
  intros Hf. induction l as [|j l IH]; [reflexivity|].
  simpl. unfold acks in *. simpl. rewrite Hf. exact IH.
Qed.

Lemma more_to_come k :
  forall i,
  map (fun j => j + 1 <? i + Z.of_nat (S k)) (zrange i (S k)) = replicate k true ++ [false].
Proof.
  induction k as [|k IH]; intros i.
  - simpl. f_equal. apply Z.ltb_ge. lia.
  - change (zrange i (S (S k))) with (i :: zrange (i + 1) (S k)).
    cbn [map replicate app]. f_equal; [apply Z.ltb_lt; lia|].
    rewrite <- (IH (i + 1)). apply map_ext. intros j. f_equal. lia.
Qed.

(** The state the transmit collaborator leaves when it hands over bytes
    that fit, called from the handler. *)
Lemma transmitting_fills data len t :
  txBufferLength t = 0 -> state t = TWI_STX ->
  0 <= len <= 255 -> len <= bufferSize t ->
  let t1 := transmitting_onSlaveTransmit data len t in
  txBufferIndex t1 = txBufferIndex t /\
  txBufferLength t1 = len /\
  txBuffer t1 = pokes (txBuffer t) 0 (map (load data) (zrange 0 (Z.to_nat len))) /\
  trace t1 = trace t ++ map (fun j => Store TxBuffer (0 + j) (load data j))
                          (zrange 0 (Z.to_nat len)).
Proof.
  intros Hl Hs Hlen Hfit. cbv zeta.
  unfold transmitting_onSlaveTransmit, transmit.
  rewrite Hl, Hs.
  assert ((bufferSize t <? 0 + len) = false) as -> by (apply Z.ltb_ge; lia).
  change (negb (TWI_STX =? TWI_STX)) with false. cbv iota. cbv zeta.
  rewrite transmit_loop. twi_simpl. rewrite Hl.
  rewrite (u8_small (0 + len)) by lia.
  repeat (split; [first [reflexivity | lia]|]). reflexivity.
Qed.

(** The state the transmit collaborator leaves when [transmit] refuses the
    bytes or is given none. *)
Lemma transmitting_refused data len t :
  txBufferLength t = 0 -> state t = TWI_STX ->
  len = 0 \/ bufferSize t < len ->
  let t1 := transmitting_onSlaveTransmit data len t in
  txBufferIndex t1 = txBufferIndex t /\ txBufferLength t1 = 0 /\
  txBuffer t1 = txBuffer t /\ trace t1 = trace t.
Proof.
  intros Hl Hs Hlen. cbv zeta.
  unfold transmitting_onSlaveTransmit, transmit.
  rewrite Hl, Hs.
  destruct (bufferSize t <? 0 + len) eqn:Hov.
  - simpl. rewrite Hl. repeat apply conj; reflexivity.
  - apply Z.ltb_ge in Hov. destruct Hlen as [-> | Hlen]; [|lia].
    change (negb (TWI_STX =? TWI_STX)) with false. cbv iota. cbv zeta.
    simpl for_loop. cbn [snd]. twi_simpl. rewrite Hl. repeat apply conj; reflexivity.
Qed.

(** X16.  Slave transmission, handler and [transmit] together: when the
    collaborator called on "addressed for reading" hands [len] bytes of
    [data] to [transmit], with [1 <= len <= bufferSize] and
    [len <= 255], and the master then reads [len] bytes, the bytes put in
    the data register are exactly the first [len] bytes of [data], in
    order; the handler announces "more to come" after each byte but the
    last, "last byte" after the last, re-arms the acknowledge when the
    master ends the transfer, and the controller is ready again. *)
Theorem slave_transmits_message rx data len last t :
  last = TW_ST_DATA_NACK \/ last = TW_ST_LAST_DATA ->
  1 <= len <= 255 ->
  len <= bufferSize t ->
  Z.of_nat (length (txBuffer t)) = bufferSize t ->
  len <= Z.of_nat (length data) ->
  let t' := raise_all (transmitting_onSlaveTransmit data len) rx
              (st_device (Z.to_nat len) last) t in
  state t' = TWI_READY /\
  data_writes (trace t') = data_writes (trace t) ++ take (Z.to_nat len) data /\
  acks (trace t')
    = acks (trace t) ++ replicate (Z.to_nat len - 1) true ++ [false; true].
Proof.
  intros Hlast Hlen Hfit Halloc Hdata. cbv zeta.
  pose proof (st_run (transmitting_onSlaveTransmit data len) rx t (Z.to_nat len) last)
    as Hrun.
  cbv zeta in Hrun.
  match type of Hrun with
  | context [transmitting_onSlaveTransmit data len ?T0] =>
      pose proof (transmitting_fills data len T0) as Hf
  end.
  cbv zeta in Hf. revert Hf Hrun. twi_simpl.
  match goal with
  | |- context [transmitting_onSlaveTransmit data len ?T0] =>
      generalize (transmitting_onSlaveTransmit data len T0)
  end.
  intros t1 Hf Hrun.
  destruct Hf as (F1 & F2 & F3 & F4); try first [reflexivity | lia].
  rewrite F2 in Hrun.
  assert ((0 =? len) = false) as Hne by (apply Z.eqb_neq; lia).
  rewrite Hne in Hrun.
  destruct (Hrun Hlast F1) as (R1 & R2); [lia | lia |].
  split; [exact R1|].
  assert (map (load data) (zrange 0 (Z.to_nat len)) = take (Z.to_nat len) data) as Hd.
  { change (zrange 0) with (zrange (Z.of_nat 0)).
    rewrite (map_load_zrange data (Z.to_nat len) 0) by (simpl; lia). reflexivity. }
  assert (map (load (txBuffer t1)) (zrange 0 (Z.to_nat len)) = take (Z.to_nat len) data)
    as Hsent.
  { rewrite F3, Hd. change (pokes (txBuffer t) 0) with (pokes (txBuffer t) (Z.of_nat 0)).
    rewrite pokes_take_drop by (rewrite length_take; simpl; lia).
    change (zrange 0) with (zrange (Z.of_nat 0)).
    rewrite (map_load_zrange _ (Z.to_nat len) 0)
      by (rewrite !length_app, length_take, length_drop; simpl; lia).
    rewrite drop_0, take_0, app_nil_l.
    rewrite take_app_le by (rewrite length_take; lia).
    rewrite take_take, Nat.min_id. reflexivity. }
  rewrite R2, F4.
  rewrite !data_writes_app, !acks_app.
  rewrite data_writes_stores, acks_stores by reflexivity.
  rewrite data_writes_st_data_trace, acks_st_data_trace, Hsent.
  split.
  - simpl. rewrite !app_nil_r. reflexivity.
  - simpl acks. rewrite !app_nil_r.
    destruct (Z.to_nat len) as [|k] eqn:Hk; [lia|].
    replace (Z.of_nat (S k)) with (0 + Z.of_nat (S k)) by lia.
    rewrite more_to_come. replace (S k - 1)%nat with k by lia.
    rewrite <- !app_assoc. reflexivity.
Qed.

(** X17.  Slave transmission without data: when the collaborator hands
    [transmit] no byte, or more bytes than the buffer holds (which
    [transmit] refuses as a whole), the handler stores 0x00 in the first
    slot of the transmit buffer, sends that single byte and announces it
    as the last one. *)
Theorem slave_transmit_default_byte rx data len last t :
  last = TW_ST_DATA_NACK \/ last = TW_ST_LAST_DATA ->
  len = 0 \/ bufferSize t < len ->
  txBuffer t <> [] ->
  let t' := raise_all (transmitting_onSlaveTransmit data len) rx (st_device 1 last) t in
  state t' = TWI_READY /\
  stores TxBuffer (trace t') = stores TxBuffer (trace t) ++ [(0, 0)] /\
  data_writes (trace t') = data_writes (trace t) ++ [0] /\
  acks (trace t') = acks (trace t) ++ [false; true].
Proof.
  intros Hlast Hlen Halloc. cbv zeta.
  pose proof (st_run (transmitting_onSlaveTransmit data len) rx t 1 last) as Hrun.
  cbv zeta in Hrun.
  match type of Hrun with
  | context [transmitting_onSlaveTransmit data len ?T0] =>
      pose proof (transmitting_refused data len T0) as Hf
  end.
  cbv zeta in Hf. revert Hf Hrun. twi_simpl.
  match goal with
  | |- context [transmitting_onSlaveTransmit data len ?T0] =>
      generalize (transmitting_onSlaveTransmit data len T0)
  end.
  intros t1 Hf Hrun.
  destruct Hf as (F1 & F2 & F3 & F4); try first [reflexivity | assumption].
  rewrite F2 in Hrun. change (0 =? 0) with true in Hrun. cbv iota in Hrun.
  revert Hrun. unfold store_tx, emit. twi_simpl. intros Hrun.
  destruct (Hrun Hlast F1) as (R1 & R2); [reflexivity | lia |].
  split; [exact R1|].
  rewrite R2, F3, F4.
  assert (load (poke (txBuffer t) 0 0) 0 = 0) as Hz.
  { destruct (txBuffer t); [congruence | reflexivity]. }
  unfold st_data_trace. simpl flat_map. rewrite Hz.
  rewrite !stores_app, !data_writes_app, !acks_app. simpl.
  rewrite !app_nil_r. repeat apply conj; reflexivity.
Qed.

(** ** Instances on a controller of capacity 32 *)

Lemma write_delivers_data_witness :
  exists t',
    writeTo idle_onSlaveTransmit idle_onSlaveReceive 0x50 [0xDE; 0xAD; 0xBE] 2 1 1
      (Twi_new 32 0) (mt_device (continues (Twi_new 32 0)) (Z.to_nat 2) ++ [])
      = Some (0, t', []) /\
    take (Z.to_nat 2) (masterBuffer t') = take (Z.to_nat 2) [0xDE; 0xAD; 0xBE].
Proof.
  destruct (write_delivers_data idle_onSlaveTransmit idle_onSlaveReceive
              0x50 [0xDE; 0xAD; 0xBE] 2 1 1 (Twi_new 32 0) [])
    as (t' & Hrun & _ & _ & Hbuf); try first [reflexivity | simpl; lia].
  exists t'. exact (conj Hrun Hbuf).
Defined.

Lemma address_byte_encoding_witness :
  slarw (readFrom_begin 0x50 2 1 (Twi_new 32 0)) = 2 * (0x50 mod 128) + 1.
Proof.
  refine (proj1 (address_byte_encoding idle_onSlaveTransmit idle_onSlaveReceive
                   0x50 [] 2 1 (Twi_new 32 0) _)).
  lia.
Defined.

Lemma read_address_nack_witness :
  exists t',
    readFrom idle_onSlaveTransmit idle_onSlaveReceive 0x50 [0; 0] 2 1 (Twi_new 32 0)
      (start_irq (continues (Twi_new 32 0)) ++ irq TW_MR_SLA_NACK :: [])
      = Some (0, [0; 0], t', []) /\
    error t' = 0xFF.
Proof.
  destruct (read_address_nack idle_onSlaveTransmit idle_onSlaveReceive
              0x50 [0; 0] 2 1 (Twi_new 32 0) [])
    as (t' & Hrun & _ & Herr & _); try first [reflexivity | simpl; lia].
  exists t'. exact (conj Hrun Herr).
Defined.



Lemma write_failure_code_witness :
  exists t',
    writeTo idle_onSlaveTransmit idle_onSlaveReceive 0x50 [1; 2] 2 1 1 (Twi_new 32 0)
      (start_irq (continues (Twi_new 32 0)) ++ mt_acks 2 1 ++ irq TW_MT_DATA_NACK :: [])
      = Some (3, t', []) /\
    error t' = status_code TW_MT_DATA_NACK.
Proof.
  destruct (write_failure_code idle_onSlaveTransmit idle_onSlaveReceive
              0x50 [1; 2] 2 1 1 (Twi_new 32 0) 1%nat TW_MT_DATA_NACK 3 [])
    as (t' & Hrun & _ & Herr & _); try first [reflexivity | simpl; lia].
  exists t'. exact (conj Hrun Herr).
Defined.

Lemma read_cut_short_witness :
  exists t',
    readFrom idle_onSlaveTransmit idle_onSlaveReceive 0x50 [0; 0; 0] 3 1 (Twi_new 32 0)
      (start_irq (continues (Twi_new 32 0)) ++ irq TW_MR_SLA_ACK
         :: map (irq_byte TW_MR_DATA_ACK) [7] ++ irq TW_BUS_ERROR :: [])
      = Some (Z.of_nat (length [7]), [7] ++ drop (length [7]) [0; 0; 0], t', []) /\
    error t' = status_code TW_BUS_ERROR.
Proof.
  destruct (read_cut_short idle_onSlaveTransmit idle_onSlaveReceive
              0x50 [0; 0; 0] 3 1 (Twi_new 32 0) [7] TW_BUS_ERROR [])
    as (t' & Hrun & _ & Herr);
    try first [right; reflexivity | reflexivity | simpl; lia].
  exists t'. exact (conj Hrun Herr).
Defined.

Lemma repeated_start_unreachable_witness :
  ~ In (WrTWCR CR_REP_START)
      (trace (raise_all idle_onSlaveTransmit idle_onSlaveReceive
                [irq TW_START; irq TW_MT_SLA_ACK; irq TW_MT_DATA_ACK] (Twi_new 32 0))).
Proof.
  destruct (repeated_start_unreachable idle_onSlaveTransmit idle_onSlaveReceive
              (fun u H => H) (fun _ _ u H => H))
    as (Hnew & Hirq & _ & _ & _ & Hnever).
  apply Hnever. apply Hirq. apply Hnew.
Defined.

Lemma slave_receives_message_witness :
  exists pre,
    raise_all idle_onSlaveTransmit idle_onSlaveReceive (sr_device [1; 2; 3])
      (Twi_new 32 0)
      = set_rxBufferIndex 0
          (idle_onSlaveReceive (rxBuffer pre) (Z.of_nat (length [1; 2; 3])) pre) /\
    state pre = TWI_READY.
Proof.
  destruct (slave_receives_message idle_onSlaveTransmit idle_onSlaveReceive
              (Twi_new 32 0) [1; 2; 3])
    as (pre & Hrun & Hst & _); try first [reflexivity | simpl; lia].
  exists pre. exact (conj Hrun Hst).
Defined.

Lemma slave_receive_overflow_witness :
  exists pre,
    raise_all idle_onSlaveTransmit idle_onSlaveReceive
      (irq TW_SR_SLA_ACK :: map (irq_byte TW_SR_DATA_ACK) [1; 2]
         ++ sr_excess 3 [4] ++ [irq TW_SR_STOP]) (Twi_new 2 0)
      = set_rxBufferIndex 0
          (idle_onSlaveReceive [1; 2] (bufferSize (Twi_new 2 0)) pre) /\
    rxBuffer pre = [1; 2].
Proof.
  destruct (slave_receive_overflow idle_onSlaveTransmit idle_onSlaveReceive
              (Twi_new 2 0) [1; 2] 3 [4])
    as (pre & Hrun & Hbuf & _); try first [reflexivity | simpl; lia].
  exists pre. exact (conj Hrun Hbuf).
Defined.

Lemma slave_transmits_message_witness :
  data_writes
    (trace (raise_all (transmitting_onSlaveTransmit [7; 8; 9] 2) idle_onSlaveReceive
              (st_device (Z.to_nat 2) TW_ST_DATA_NACK) (Twi_new 32 0)))
  = data_writes (trace (Twi_new 32 0)) ++ take (Z.to_nat 2) [7; 8; 9].
Proof.
  refine (proj1 (proj2 (slave_transmits_message idle_onSlaveReceive [7; 8; 9] 2
                          TW_ST_DATA_NACK (Twi_new 32 0) _ _ _ _ _)));
    first [left; reflexivity | reflexivity | simpl; lia].
Defined.

Lemma slave_transmit_default_byte_witness :
  data_writes
    (trace (raise_all (transmitting_onSlaveTransmit [7; 8; 9] 40) idle_onSlaveReceive
              (st_device 1 TW_ST_LAST_DATA) (Twi_new 32 0)))
  = data_writes (trace (Twi_new 32 0)) ++ [0].
Proof.
  refine (proj1 (proj2 (proj2 (slave_transmit_default_byte idle_onSlaveReceive
                                 [7; 8; 9] 40 TW_ST_LAST_DATA (Twi_new 32 0) _ _ _))));
    first [right; reflexivity | right; simpl; lia | simpl; discriminate].
Defined.

(** ** The receive index at capacities above 255 *)

(** A slave of capacity 300 that receives 256 bytes and then a stop: every
    byte has been stored and 256 is below the capacity, yet the terminator
    goes to index 0 and the collaborator is given the count 0; index 256
    of the buffer is left as it was. *)
Lemma slave_receive_stop_wraps :
  let bytes := replicate 256 7 in
  let t := raise_all idle_onSlaveTransmit idle_onSlaveReceive
             (sr_transaction TW_SR_SLA_ACK TW_SR_DATA_ACK bytes) (Twi_new 300 0xEE) in
  Z.of_nat (length bytes) = 256 /\
  Z.of_nat (length bytes) < bufferSize (Twi_new 300 0xEE) /\
  take 256 (stores RxBuffer (trace t)) = zip (zrange 0 256) bytes /\
  drop 256 (stores RxBuffer (trace t)) = [(0, 0)] /\
  map snd (receive_calls (trace t)) = [0] /\
  map snd (receive_calls (trace t)) <> [256] /\
  rxBuffer t !! 0%nat = Some 0 /\
  rxBuffer t !! 256%nat = Some 0xEE.
Proof. vm_compute. repeat apply conj; try reflexivity; discriminate. Qed.

(** A slave of capacity 300 that has received 255 bytes: the next byte
    finds room, is stored at index 255 and acknowledged, and the receive
    index becomes 0, not 256. *)
Lemma slave_receive_index_wraps :
  let t := raise_all idle_onSlaveTransmit idle_onSlaveReceive
             (irq TW_SR_SLA_ACK :: map (irq_byte TW_SR_DATA_ACK) (replicate 255 7))
             (Twi_new 300 0xEE) in
  let t' := raise idle_onSlaveTransmit idle_onSlaveReceive
              (irq_byte TW_SR_DATA_ACK 9) t in
  rxBufferIndex t = 255 /\ bufferSize t = 300 /\
  rxBufferIndex t < bufferSize t /\
  trace t' = trace t ++ [Store RxBuffer 255 9; WrTWCR CR_ACK] /\
  rxBuffer t' !! 255%nat = Some 9 /\
  rxBufferIndex t' = 0 /\
  rxBufferIndex t' <> rxBufferIndex t + 1.
Proof. vm_compute. repeat apply conj; try reflexivity; discriminate. Qed.

Lemma slave_receive_stop_witness :
  exists pre,
    raise_all idle_onSlaveTransmit idle_onSlaveReceive
      (sr_transaction TW_SR_SLA_ACK TW_SR_DATA_ACK [0x11; 0x22; 0x33]) (Twi_new 8 0xEE)
      = set_rxBufferIndex 0
          (idle_onSlaveReceive (rxBuffer pre)
             (u8 (Z.of_nat (length [0x11; 0x22; 0x33]))) pre) /\
    rxBuffer pre
      = [0x11; 0x22; 0x33]
          ++ 0 :: drop (S (length [0x11; 0x22; 0x33])) (rxBuffer (Twi_new 8 0xEE)) /\
    receive_calls (trace pre)
      = receive_calls (trace (Twi_new 8 0xEE))
          ++ [(rxBuffer pre, u8 (Z.of_nat (length [0x11; 0x22; 0x33])))].
Proof.
  destruct (proj1 (slave_receive_stop idle_onSlaveTransmit idle_onSlaveReceive)
              TW_SR_SLA_ACK TW_SR_DATA_ACK (Twi_new 8 0xEE) [0x11; 0x22; 0x33])
    as (pre & Hd & _ & _ & _ & _ & _ & Hc & _ & Hsmall & _);
    try first [left; reflexivity | reflexivity | simpl; lia].
  exists pre. split; [exact Hd|].
  split; [apply Hsmall; simpl; lia | exact Hc].
Defined.

Lemma slave_receive_bounds_witness :
  trace (onInterrupt idle_onSlaveTransmit idle_onSlaveReceive
           (set_twdr 7 (set_twsr (status_code TW_SR_DATA_ACK) (Twi_new 2 0))))
    = trace (set_twdr 7 (set_twsr (status_code TW_SR_DATA_ACK) (Twi_new 2 0)))
        ++ [Store RxBuffer
              (rxBufferIndex (set_twdr 7 (set_twsr (status_code TW_SR_DATA_ACK)
                                            (Twi_new 2 0))))
              (twdr (set_twdr 7 (set_twsr (status_code TW_SR_DATA_ACK) (Twi_new 2 0))));
            WrTWCR CR_ACK] /\
  rx_invariant
    (raise_all idle_onSlaveTransmit idle_onSlaveReceive
       (sr_device [1; 2; 3] ++ [irq TW_ST_SLA_ACK; irq TW_ST_DATA_NACK])
       (Twi_new 2 0)).
Proof.
  split.
  - assert (0 <= rxBufferIndex (set_twdr 7 (set_twsr (status_code TW_SR_DATA_ACK)
                                               (Twi_new 2 0)))) as Hidx
      by (simpl; lia).
    assert (rxBufferIndex (set_twdr 7 (set_twsr (status_code TW_SR_DATA_ACK)
                                          (Twi_new 2 0)))
            < bufferSize (set_twdr 7 (set_twsr (status_code TW_SR_DATA_ACK)
                                        (Twi_new 2 0)))) as Hlt
      by (simpl; lia).
    exact (proj2 (proj2 (proj2 (proj2 (proj2
             (proj1 (proj1 (slave_receive_bounds idle_onSlaveTransmit idle_onSlaveReceive)
                       (set_twdr 7 (set_twsr (status_code TW_SR_DATA_ACK) (Twi_new 2 0)))
                       TW_SR_DATA_ACK (or_introl eq_refl) eq_refl Hidx) Hlt)))))).
  - apply (proj1 (proj2 (slave_receive_bounds idle_onSlaveTransmit idle_onSlaveReceive))).
    + intros u H. exact H.
    + intros buf n u H. exact H.
    + apply (proj2 (proj2 (slave_receive_bounds idle_onSlaveTransmit idle_onSlaveReceive))).
      lia.
Defined.
